(** * Elliott-wave backtester: structure engine, entry confirmation,
      trade simulator, classifier gate and equity accountant

    Shallow embedding of [Ur-EW-Code_backup_2025-09-08.py].

    Numbers.  Python [float]s are idealised as exact rationals ([Q]):
    comparisons are the rational order, [==] is [Qeq], arithmetic does not
    round.  A float division whose divisor is zero raises
    [ZeroDivisionError], as Python's does.  A NaN in a numpy array (a gap in
    the ATR column) is an element [None] of a [list (option Q)].  Python
    [int]s are [Z]; indexing goes through [py_index], which implements
    Python's negative indices and fails out of range.

    The one function whose claim is about exact float equality, [fib_ext],
    is embedded a second time on IEEE-754 binary64 numbers ([fib_ext_ieee]).

    Effects.  Code that may raise returns a [result]; loops over index ranges
    are folds over the list of indices; the mutable locals of a loop are a
    record threaded through its body. *)

From Stdlib Require Import String ZArith QArith Qabs Qround Lqa Lia Bool List.
From Stdlib Require Import Sorted Floats.
Import ListNotations.

Open Scope Q_scope.

(* ====================================================================== *)
(** * Python primitives *)
(* ====================================================================== *)

Inductive Exn : Type := IndexError | ZeroDivisionError | ValueError.

Inductive result (A : Type) : Type :=
| Ok (a : A)
| Raise (e : Exn).
Arguments Ok {A} a.
Arguments Raise {A} e.

Definition bind {A B} (r : result A) (k : A -> result B) : result B :=
  match r with
  | Ok a => k a
  | Raise e => Raise e
  end.

Notation "x <- r ;; k" := (bind r (fun x => k))
  (at level 61, r at next level, right associativity).

(** [x[i]] on a sequence that may be absent in range. *)
Definition lift_index {A} (o : option A) : result A :=
  match o with
  | Some a => Ok a
  | None => Raise IndexError
  end.

Definition Qleb (x y : Q) : bool := Qle_bool x y.
Definition Qltb (x y : Q) : bool := negb (Qle_bool y x).
Definition Qeqb (x y : Q) : bool := Qeq_bool x y.

Infix "<=?" := Qleb (at level 70, no associativity) : Q_scope.
Infix "<?" := Qltb (at level 70, no associativity) : Q_scope.
Infix "=?" := Qeqb (at level 70, no associativity) : Q_scope.

(** [max(a, b)] keeps [a] unless [b > a]; [min(a, b)] keeps [a] unless
    [b < a]. *)
Definition pymax (a b : Q) : Q := if a <? b then b else a.
Definition pymin (a b : Q) : Q := if b <? a then b else a.

(** [int(x)] truncates towards zero. *)
Definition py_int (x : Q) : Z := Z.quot (Qnum x) (Z.pos (Qden x)).

Definition len {A} (l : list A) : Z := Z.of_nat (length l).

(** [l[i]] / [df.iloc[i]] / [a[i]]: negative indices count from the end. *)
Definition py_index {A} (l : list A) (i : Z) : option A :=
  if ((0 <=? i) && (i <? len l))%Z then nth_error l (Z.to_nat i)
  else if ((- len l <=? i) && (i <? 0))%Z then nth_error l (Z.to_nat (len l + i))
  else None.

(** [range(a, b)]. *)
Definition py_range (a b : Z) : list Z :=
  map (fun k => (a + Z.of_nat k)%Z) (seq 0 (Z.to_nat (b - a))).

(** [enumerate(l, start=k)]. *)
Fixpoint enumerate_from {A} (k : Z) (l : list A) : list (Z * A) :=
  match l with
  | [] => []
  | x :: t => (k, x) :: enumerate_from (k + 1)%Z t
  end.

(** [l.sort(key=...)] / [sorted(l, key=...)]: a stable sort; [leb a b] is
    [key a <= key b]. *)
Fixpoint insert_by {A} (leb : A -> A -> bool) (x : A) (l : list A) : list A :=
  match l with
  | [] => [x]
  | y :: t => if leb x y then x :: y :: t else y :: insert_by leb x t
  end.

Fixpoint sort_by {A} (leb : A -> A -> bool) (l : list A) : list A :=
  match l with
  | [] => []
  | x :: t => insert_by leb x (sort_by leb t)
  end.

(* ====================================================================== *)
(** * Structure engine ([ElliottEngine]) *)
(* ====================================================================== *)

Inductive Dir : Type := UP | DOWN.

(** [Pivot.kind] is ['H'] or ['L']. *)
Inductive Kind : Type := H | L.

Definition Kind_eqb (a b : Kind) : bool :=
  match a, b with
  | H, H | L, L => true
  | _, _ => false
  end.

Record Pivot : Type := mkPivot { idx : Z; price : Q; kind : Kind }.

Record Impulse : Type := mkImpulse { direction : Dir; points : list Pivot }.

Record ElliottEngine : Type := mkEngine {
  zz_pct : Q;
  zz_atr_mult : Q;
  min_imp : Q
}.

(** [_thr(base, atr, pct, atr_mult)]; [atr = None] is [pd.isna(atr)]. *)
Definition _thr (base : Q) (atr : option Q) (pct atr_mult : Q) : Q :=
  match atr with
  | None => base * pct
  | Some a => pymax (base * pct) (a * atr_mult)
  end.

(** [atr[i] if atr is not None and i < len(atr) else np.nan], for [i >= 1];
    an absent array reads like an empty one. *)
Definition atr_at (atr : list (option Q)) (i : Z) : option Q :=
  if (i <? len atr)%Z then
    match py_index atr i with
    | Some a => a
    | None => None
    end
  else None.

(** The locals of the scanning loop of [zigzag]. *)
Record ZigZag : Type := mkZigZag {
  zz_piv : list Pivot;
  zz_last : Q;
  zz_hi : Q;
  zz_lo : Q;
  zz_hi_i : Z;
  zz_lo_i : Z;
  zz_direction : option Dir
}.

Definition dir_is_none_or (d : Dir) (o : option Dir) : bool :=
  match o, d with
  | None, _ => true
  | Some UP, UP => true
  | Some DOWN, DOWN => true
  | _, _ => false
  end.

(** [if direction in (None, Dir.UP): ...] *)
Definition zz_up (thr p : Q) (i : Z) (s : ZigZag) : ZigZag :=
  if dir_is_none_or UP (zz_direction s) then
    let hi := if zz_hi s <? p then p else zz_hi s in
    let hi_i := if zz_hi s <? p then i else zz_hi_i s in
    if thr <=? hi - p then
      mkZigZag (zz_piv s ++ [mkPivot hi_i hi H]) hi hi (p) hi_i i (Some DOWN)
    else
      mkZigZag (zz_piv s) (zz_last s) hi (zz_lo s) hi_i (zz_lo_i s) (zz_direction s)
  else s.

(** [if direction in (None, Dir.DOWN): ...], read after [zz_up] has run. *)
Definition zz_down (thr p : Q) (i : Z) (s : ZigZag) : ZigZag :=
  if dir_is_none_or DOWN (zz_direction s) then
    let lo := if p <? zz_lo s then p else zz_lo s in
    let lo_i := if p <? zz_lo s then i else zz_lo_i s in
    if thr <=? p - lo then
      mkZigZag (zz_piv s ++ [mkPivot lo_i lo L]) lo p lo i lo_i (Some UP)
    else
      mkZigZag (zz_piv s) (zz_last s) (zz_hi s) lo (zz_hi_i s) lo_i (zz_direction s)
  else s.

(** One iteration of [for i in range(1, len(close))]: [thr] is computed once,
    from [last] as it is when the iteration starts. *)
Definition zz_step (e : ElliottEngine) (atr : list (option Q))
    (s : ZigZag) (ip : Z * Q) : ZigZag :=
  let '(i, p) := ip in
  let thr := _thr (zz_last s) (atr_at atr i) (zz_pct e) (zz_atr_mult e) in
  zz_down thr p i (zz_up thr p i s).

(** The clean-up loop; the accumulator holds [cleaned] in reverse, so that
    [cleaned[-1]] is its head. *)
Definition clean_step (rcleaned : list Pivot) (p : Pivot) : list Pivot :=
  match rcleaned with
  | [] => [p]
  | q :: rest =>
      if negb (Kind_eqb (kind q) (kind p)) then p :: rcleaned
      else if (Kind_eqb (kind p) H && (price q <=? price p))
              || (Kind_eqb (kind p) L && (price p <=? price q))
           then p :: rest
           else rcleaned
  end.

Definition clean (piv : list Pivot) : list Pivot :=
  rev (fold_left clean_step piv []).

Definition idx_leb (a b : Pivot) : bool := (idx a <=? idx b)%Z.

Definition zigzag (e : ElliottEngine) (close : list Q) (atr : list (option Q))
    : list Pivot :=
  if (len close <? 3)%Z then []
  else
    match close with
    | [] => []
    | c0 :: rest =>
        let s0 := mkZigZag [] c0 c0 c0 0%Z 0%Z None in
        let s := fold_left (zz_step e atr) (enumerate_from 1 rest) s0 in
        clean (sort_by idx_leb (zz_piv s))
    end.

(** The two acceptance gates of [detect_impulses] on one window of six
    pivots: [Some d] when the window is appended as an impulse of direction
    [d], [None] when it is skipped ([i += 1; continue]). *)
Definition atr_positive (a : option Q) : bool :=
  match a with
  | Some v => 0 <? v
  | None => false
  end.

Definition atr_ratio_below (w : Q) (a : option Q) (m : Q) : bool :=
  match a with
  | Some v => w / v <? m
  | None => false
  end.

Definition impulse_window (e : ElliottEngine) (atr : list (option Q))
    (p0 p1 p2 p3 p4 p5 : Pivot) : result (option Dir) :=
  match kind p0, kind p1, kind p2, kind p3, kind p4, kind p5 with
  | L, H, L, H, L, H =>
      let w1 := price p1 - price p0 in
      let w3 := price p3 - price p2 in
      if (price p2 <=? price p0) || (w1 <=? 0) || (w3 <? 0.6 * w1) then Ok None
      else if price p4 <=? price p1 * 0.98 then Ok None
      else
        atr_b <- lift_index (py_index atr (Z.min (idx p3) (len atr - 1))) ;;
        if atr_positive atr_b && atr_ratio_below w3 atr_b (min_imp e)
        then Ok None else Ok (Some UP)
  | H, L, H, L, H, L =>
      let w1 := price p0 - price p1 in
      let w3 := price p2 - price p3 in
      if (price p0 <=? price p2) || (w1 <=? 0) || (w3 <? 0.6 * w1) then Ok None
      else if price p1 * 1.02 <=? price p4 then Ok None
      else
        atr_b <- lift_index (py_index atr (Z.min (idx p3) (len atr - 1))) ;;
        if atr_positive atr_b && atr_ratio_below (Qabs w3) atr_b (min_imp e)
        then Ok None else Ok (Some DOWN)
  | _, _, _, _, _, _ => Ok None
  end.

(** The [while] loop of [detect_impulses].  The loop index [i] is carried
    as the suffix [piv[i:]]: the window [piv[i:i+6]] is its first six pivots,
    [i <= len(piv)-6] holds when it has six, [i += 1] takes its tail and
    [i += 3] drops three pivots; [res.append] becomes a cons on the way
    back. *)
Fixpoint detect_impulses_from (e : ElliottEngine) (atr : list (option Q))
    (s : list Pivot) : result (list Impulse) :=
  match s with
  | p0 :: s1 =>
      match s1 with
      | p1 :: p2 :: s3 =>
          match s3 with
          | p3 :: p4 :: p5 :: _ =>
              v <- impulse_window e atr p0 p1 p2 p3 p4 p5 ;;
              match v with
              | Some d =>
                  res <- detect_impulses_from e atr s3 ;;
                  Ok (mkImpulse d [p0; p1; p2; p3; p4; p5] :: res)
              | None => detect_impulses_from e atr s1
              end
          | _ => Ok []
          end
      | _ => Ok []
      end
  | [] => Ok []
  end.

Definition detect_impulses (e : ElliottEngine) (piv : list Pivot)
    (close : list Q) (atr : list (option Q)) : result (list Impulse) :=
  detect_impulses_from e atr piv.

(** [fib_ext(A, B, d, ext)]. *)
Definition fib_ext (A B : Q) (d : Dir) (ext : Q) : Q :=
  match d with
  | UP => B + (B - A) * (ext - 1.0)
  | DOWN => B - (A - B) * (ext - 1.0)
  end.

(** [fib_ext] once more, on binary64 floats with the rounding of IEEE-754,
    as Python evaluates it. *)
Definition fib_ext_ieee (A B : float) (d : Dir) (ext : float) : float :=
  match d with
  | UP => (B + (B - A) * (ext - 1.0))%float
  | DOWN => (B - (A - B) * (ext - 1.0))%float
  end.

(** The leg that [fib_ext] extends: [B - A] upwards, [A - B] downwards. *)
Definition leg_ieee (A B : float) (d : Dir) : float :=
  match d with
  | UP => (B - A)%float
  | DOWN => (A - B)%float
  end.

(* ====================================================================== *)
(** * Configuration, bars and strategy types *)
(* ====================================================================== *)

(** The keys of the global [CFG] that the embedded code reads.  A key read
    with [CFG["K"]] is a field; a key read with [CFG.get("K", default)] may
    be missing from a profile and is an [option], the default being applied
    where it is read. *)
Record Config : Type := mkConfig {
  START_CAPITAL : Q;
  RISK_PER_TRADE : Q;
  DYNAMIC_DD_RISK : option bool;
  DD_RISK_STEPS : option (list (Q * Q));
  USE_VOL_TARGET : option bool;
  TARGET_ANNUAL_VOL : option Q;
  VOL_WINDOW_TRADES : option Z;
  RISK_PER_TRADE_MIN : option Q;
  RISK_PER_TRADE_MAX : option Q;
  MAX_DRAWDOWN_STOP : option Q;
  OPTIMIZE_ML_THRESHOLD : option bool;
  ATR_MULT_BUFFER : Q;
  ENTRY_WINDOW_H1 : Z;
  ENTRY_WINDOW_M30 : Z;
  MAX_HOLD_H1 : Z;
  MAX_HOLD_M30 : Z;
  USE_EMA_TREND : bool;
  REQUIRE_PRICE_ABOVE_EMA_FAST : option bool;
  ATR_PCT_MIN : Q;
  ATR_PCT_MAX : Q;
  ADX_TREND_THRESHOLD : option Q;
  USE_ADX : option bool;
  REQUIRE_CONFIRM : bool;
  CONFIRM_BARS_H1 : Z;
  CONFIRM_BARS_M30 : Z;
  CONFIRM_RULES : list string;
  ALLOW_TOUCH_IF_NO_CONFIRM : bool;
  USE_ML : bool;
  TRAIN_FRAC : Q;
  SIZE_BY_PROB : bool;
  PROB_SIZE_MIN : Q;
  PROB_SIZE_MAX : Q;
  ML_MIN_PASS_RATE_TEST : Q;
  SIZE_SHORT_FACTOR : Q
}.

(** [CFG.get(key, default)]. *)
Definition get {A} (o : option A) (default : A) : A :=
  match o with
  | Some v => v
  | None => default
  end.

(** One row of an intraday frame ([h1] / [m30]); [date] is a timestamp. *)
Record Bar : Type := mkBar {
  date : Z;
  open : Q;
  high : Q;
  low : Q;
  close : Q;
  EMA_FAST : Q;
  EMA_SLOW : Q;
  ATR : Q;
  ATR_PCT : Q
}.

(** One row of the daily frame, as far as [simulate_all] reads it; [ADX_14]
    is [None] where the column holds NaN. *)
Record DailyBar : Type := mkDailyBar { daily_date : Z; ADX_14 : option Q }.

Inductive SetupTag : Type := W3 | W5 | C.

(** [entry_tf]: ["30m"] or ["1h"]. *)
Inductive Timeframe : Type := TF_30m | TF_1h.

Record Setup : Type := mkSetup {
  setup : SetupTag;
  sp_direction : Dir;
  start_time : Z;
  entry_tf : Timeframe;
  zone : Q * Q;
  stop_ref : Q;
  sp_tp1 : Q;
  sp_tp2 : Q
}.

(** [SimTrade.direction] / [Trade.direction]: ["LONG"] or ["SHORT"]. *)
Inductive Side : Type := LONG | SHORT.

(* ====================================================================== *)
(** * Entry confirmation *)
(* ====================================================================== *)

Definition df_for_tf (h1 m30 : list Bar) (tf : Timeframe) : list Bar :=
  match tf with
  | TF_30m => m30
  | TF_1h => h1
  end.

(** [idx_from_time]: the smallest index whose date is at or after [ts]. *)
Fixpoint first_index_from (k : Z) (f : Bar -> bool) (df : list Bar) : option Z :=
  match df with
  | [] => None
  | r :: t => if f r then Some k else first_index_from (k + 1)%Z f t
  end.

Definition idx_from_time (df : list Bar) (ts : Z) : option Z :=
  first_index_from 0%Z (fun r => (ts <=? date r)%Z) df.

Definition touches (zone : Q * Q) (r : Bar) : bool :=
  let '(zl, zh) := zone in
  ((low r <=? zh) && (zl <=? high r)) || ((zl <=? close r) && (close r <=? zh)).

Fixpoint touch_scan (df : list Bar) (zone : Q * Q) (ixs : list Z)
    : result (option Z) :=
  match ixs with
  | [] => Ok None
  | i :: rest =>
      r <- lift_index (py_index df i) ;;
      if touches zone r then Ok (Some i) else touch_scan df zone rest
  end.

Definition first_touch (df : list Bar) (start_ts : Z) (zone : Q * Q)
    (window : Z) : result (option Z) :=
  match idx_from_time df start_ts with
  | None => Ok None
  | Some start_i =>
      let end_i := Z.min (start_i + window) (len df - 1) in
      touch_scan df zone (py_range start_i (end_i + 1))
  end.

Definition rule_enabled (cfg : Config) (name : string) : bool :=
  existsb (String.eqb name) (CONFIRM_RULES cfg).

(** The test one candidate bar [r] goes through in the loop of
    [confirm_idx], against the reference extremes [prev_hi] / [prev_lo]. *)
Definition bar_confirms (cfg : Config) (d : Dir) (prev_hi prev_lo : Q)
    (r : Bar) : bool :=
  let cl := close r in
  let ef := EMA_FAST r in
  let es := EMA_SLOW r in
  (rule_enabled cfg "break_prev_extreme"
   && match d with UP => prev_hi <? cl | DOWN => cl <? prev_lo end)
  || (rule_enabled cfg "ema_fast_cross"
      && match d with
         | UP => (ef <? cl) && (es <? ef)
         | DOWN => (cl <? ef) && (ef <? es)
         end).

Fixpoint confirm_scan (cfg : Config) (df : list Bar) (d : Dir)
    (prev_hi prev_lo : Q) (ixs : list Z) : result (option Z) :=
  match ixs with
  | [] => Ok None
  | i :: rest =>
      r <- lift_index (py_index df i) ;;
      if bar_confirms cfg d prev_hi prev_lo r then Ok (Some i)
      else confirm_scan cfg df d prev_hi prev_lo rest
  end.

Definition confirm_idx (cfg : Config) (df : list Bar) (touch_i : Z) (d : Dir)
    (bars : Z) (allow_touch : bool) : result (option Z) :=
  if negb (REQUIRE_CONFIRM cfg) then Ok (Some touch_i)
  else
    let end_ := Z.min (touch_i + bars) (len df - 1) in
    pb <- lift_index (py_index df (Z.max 0 (touch_i - 1))) ;;
    let prev_hi := high pb in
    let prev_lo := low pb in
    found <- confirm_scan cfg df d prev_hi prev_lo (py_range touch_i (end_ + 1)) ;;
    match found with
    | Some i => Ok (Some i)
    | None => Ok (if allow_touch then Some end_ else None)
    end.

(* ====================================================================== *)
(** * Trade simulator *)
(* ====================================================================== *)

(** The locals of the bar loop of [simulate]. *)
Record SimState : Type := mkSim {
  pos : Q;
  realized : Q;
  stop : Q;
  extreme : Q;
  mae : Q;
  mfe : Q
}.

(** An assignment to [stop] inside the loop: the break-even promotion
    ([stop=max(stop,entry)] / [stop=min(stop,entry)]) or the move to entry
    at the first target ([stop=entry]). *)
Inductive StopWrite : Type :=
| BreakEven (v : Q)
| RiskFree (v : Q).

Definition written (w : StopWrite) : Q :=
  match w with
  | BreakEven v => v
  | RiskFree v => v
  end.

(** What [simulate] returns: exit index, exit price, realized per-share
    PnL, MAE and MFE in R. *)
Record SimResult : Type := mkSimResult {
  x_idx : Z;
  x_price : Q;
  ps : Q;
  mae_R : Q;
  mfe_R : Q
}.

(** [extreme=...; mae=...; mfe=...], for a non-zero [R]. *)
Definition track (d : Dir) (entry R : Q) (r : Bar) (s : SimState) : SimState :=
  match d with
  | UP =>
      mkSim (pos s) (realized s) (stop s)
            (pymax (extreme s) (high r))
            (pymin (mae s) ((low r - entry) / R))
            (pymax (mfe s) ((high r - entry) / R))
  | DOWN =>
      mkSim (pos s) (realized s) (stop s)
            (pymin (extreme s) (low r))
            (pymin (mae s) ((entry - high r) / R))
            (pymax (mfe s) ((entry - low r) / R))
  end.

(** [if pos==1.0 and (extreme-entry)>=R: stop=max(stop,entry)] and its
    mirror image. *)
Definition promote_be (d : Dir) (entry R : Q) (s : SimState)
    : SimState * list StopWrite :=
  let reached :=
    match d with
    | UP => R <=? extreme s - entry
    | DOWN => R <=? entry - extreme s
    end in
  if (pos s =? 1.0) && reached then
    let v := match d with
             | UP => pymax (stop s) entry
             | DOWN => pymin (stop s) entry
             end in
    (mkSim (pos s) (realized s) v (extreme s) (mae s) (mfe s), [BreakEven v])
  else (s, []).

(** [if pos==1.0 and hi>=tp1: realized+=(tp1-entry)*0.5; pos=0.5; stop=entry]
    and its mirror image. *)
Definition take_tp1 (d : Dir) (entry tp1 : Q) (r : Bar) (s : SimState)
    : SimState * list StopWrite :=
  let hit :=
    match d with
    | UP => tp1 <=? high r
    | DOWN => low r <=? tp1
    end in
  if (pos s =? 1.0) && hit then
    let gain := match d with UP => tp1 - entry | DOWN => entry - tp1 end in
    (mkSim 0.5 (realized s + gain * 0.5) entry (extreme s) (mae s) (mfe s),
     [RiskFree entry])
  else (s, []).

(** The two [return]s of the loop body: stopped out, or second target. *)
Definition try_exit (d : Dir) (entry tp2 : Q) (i : Z) (r : Bar) (s : SimState)
    : option SimResult :=
  match d with
  | UP =>
      if low r <=? stop s then
        Some (mkSimResult i (stop s) (realized s + (stop s - entry) * pos s)
                          (mae s) (mfe s))
      else if (pos s =? 0.5) && (tp2 <=? high r) then
        Some (mkSimResult i tp2 (realized s + (tp2 - entry) * 0.5) (mae s) (mfe s))
      else None
  | DOWN =>
      if stop s <=? high r then
        Some (mkSimResult i (stop s) (realized s + (entry - stop s) * pos s)
                          (mae s) (mfe s))
      else if (pos s =? 0.5) && (low r <=? tp2) then
        Some (mkSimResult i tp2 (realized s + (entry - tp2) * 0.5) (mae s) (mfe s))
      else None
  end.

(** How the bar loop ends: it runs out of bars, or the body returns. *)
Inductive LoopEnd : Type :=
| Exhausted (s : SimState)
| Returned (out : SimResult).

(** [for i in range(entry_i+1, end+1): ...], together with the log of the
    values written to [stop], in order. *)
Fixpoint sim_loop (df : list Bar) (d : Dir) (entry R tp1 tp2 : Q)
    (ixs : list Z) (s : SimState) : list StopWrite * result LoopEnd :=
  match ixs with
  | [] => ([], Ok (Exhausted s))
  | i :: rest =>
      match py_index df i with
      | None => ([], Raise IndexError)
      | Some r =>
          if R =? 0 then ([], Raise ZeroDivisionError)
          else
            let s1 := track d entry R r s in
            let '(s2, w2) := promote_be d entry R s1 in
            let '(s3, w3) := take_tp1 d entry tp1 r s2 in
            match try_exit d entry tp2 i r s3 with
            | Some out => (w2 ++ w3, Ok (Returned out))
            | None =>
                let '(ws, o) := sim_loop df d entry R tp1 tp2 rest s3 in
                (w2 ++ w3 ++ ws, o)
            end
      end
  end.

(** The forced close after the loop. *)
Definition force_close (df : list Bar) (d : Dir) (entry R : Q) (end_ : Z)
    (s : SimState) : result SimResult :=
  rl <- lift_index (py_index df end_) ;;
  let last := close rl in
  if R =? 0 then Raise ZeroDivisionError
  else
    match d with
    | UP =>
        Ok (mkSimResult end_ last (realized s + (last - entry) * pos s)
                        (mae s) (pymax (mfe s) ((last - entry) / R)))
    | DOWN =>
        Ok (mkSimResult end_ last (realized s + (entry - last) * pos s)
                        (mae s) (pymax (mfe s) ((entry - last) / R)))
    end.

Definition simulate_log (df : list Bar) (entry_i : Z) (entry : Q) (d : Dir)
    (stop0 tp1 tp2 : Q) (max_bars : Z) : list StopWrite * result SimResult :=
  let end_ := Z.min (entry_i + max_bars) (len df - 1) in
  let R := Qabs (entry - stop0) in
  let s0 := mkSim 1.0 0.0 stop0 entry 0.0 0.0 in
  let '(ws, o) :=
    sim_loop df d entry R tp1 tp2 (py_range (entry_i + 1) (end_ + 1)) s0 in
  (ws,
   e <- o ;;
   match e with
   | Returned out => Ok out
   | Exhausted s => force_close df d entry R end_ s
   end).

(** [simulate(df, entry_i, entry, d, stop, tp1, tp2, max_bars)]. *)
Definition simulate (df : list Bar) (entry_i : Z) (entry : Q) (d : Dir)
    (stop0 tp1 tp2 : Q) (max_bars : Z) : result SimResult :=
  snd (simulate_log df entry_i entry d stop0 tp1 tp2 max_bars).

(** The values [stop] takes during one call, after its initial one. *)
Definition stop_writes (df : list Bar) (entry_i : Z) (entry : Q) (d : Dir)
    (stop0 tp1 tp2 : Q) (max_bars : Z) : list StopWrite :=
  fst (simulate_log df entry_i entry d stop0 tp1 tp2 max_bars).

(* ====================================================================== *)
(** * Backtester: candidate simulation *)
(* ====================================================================== *)

Record SimTrade (F : Type) : Type := mkSimTrade {
  sim_entry_tf : Timeframe;
  sim_entry_idx : Z;
  sim_exit_idx : Z;
  sim_entry : Q;
  sim_exit : Q;
  per_share : Q;
  risk_per_share : Q;
  sim_setup : SetupTag;
  sim_direction : Side;
  time_in : Z;
  time_out : Z;
  sim_stop : Q;
  sim_tp1 : Q;
  sim_tp2 : Q;
  sim_mae_r : Q;
  sim_mfe_r : Q;
  features : F;
  label : Z
}.
Arguments mkSimTrade {F}.
Arguments sim_entry_tf {F}.
Arguments sim_entry_idx {F}.
Arguments sim_exit_idx {F}.
Arguments sim_entry {F}.
Arguments sim_exit {F}.
Arguments per_share {F}.
Arguments risk_per_share {F}.
Arguments sim_setup {F}.
Arguments sim_direction {F}.
Arguments time_in {F}.
Arguments time_out {F}.
Arguments sim_stop {F}.
Arguments sim_tp1 {F}.
Arguments sim_tp2 {F}.
Arguments sim_mae_r {F}.
Arguments sim_mfe_r {F}.
Arguments features {F}.
Arguments label {F}.

Record Trade : Type := mkTrade {
  tr_entry_tf : Timeframe;
  tr_entry_idx : Z;
  tr_exit_idx : Z;
  tr_entry : Q;
  tr_exit : Q;
  pnl : Q;
  size : Z;
  rr : Q;
  tr_setup : SetupTag;
  tr_direction : Side;
  tr_time_in : Z;
  tr_time_out : Z;
  tr_stop : Q;
  tr_tp1 : Q;
  tr_tp2 : Q;
  tr_mae_r : Q;
  tr_mfe_r : Q;
  prob : option Q;
  tr_risk_per_share : option Q
}.

(** What the backtester takes from outside the repository: the feature
    snapshot ([build_features] computes sines and cosines), the classifier
    of scikit-learn, and numpy's sample standard deviation ([None] when it
    is NaN). *)
Class External : Type := mkExternal {
  Features : Type;
  build_features : list Bar -> Z -> Dir -> SetupTag -> Q * Q -> Features;
  Model : Type;
  fit : list (SimTrade Features) -> Model;
  predict_proba : Model -> Features -> Q;
  np_std : list Q -> option Q
}.

(** [self.telemetry]: a dict with a fixed set of counters. *)
Record Telemetry : Type := mkTelemetry {
  setups : Z;
  filtered_daily : Z;
  filtered_ema : Z;
  filtered_vol : Z;
  filtered_volatility : Z;
  filtered_regime : Z;
  no_touch : Z;
  no_confirm : Z;
  accepted : Z
}.

Definition bump_filtered_regime (t : Telemetry) : Telemetry :=
  mkTelemetry (setups t) (filtered_daily t) (filtered_ema t) (filtered_vol t)
    (filtered_volatility t) (filtered_regime t + 1)%Z (no_touch t)
    (no_confirm t) (accepted t).

Definition bump_filtered_ema (t : Telemetry) : Telemetry :=
  mkTelemetry (setups t) (filtered_daily t) (filtered_ema t + 1)%Z
    (filtered_vol t) (filtered_volatility t) (filtered_regime t) (no_touch t)
    (no_confirm t) (accepted t).

Definition bump_filtered_vol (t : Telemetry) : Telemetry :=
  mkTelemetry (setups t) (filtered_daily t) (filtered_ema t)
    (filtered_vol t + 1)%Z (filtered_volatility t) (filtered_regime t)
    (no_touch t) (no_confirm t) (accepted t).

Definition bump_no_touch (t : Telemetry) : Telemetry :=
  mkTelemetry (setups t) (filtered_daily t) (filtered_ema t) (filtered_vol t)
    (filtered_volatility t) (filtered_regime t) (no_touch t + 1)%Z
    (no_confirm t) (accepted t).

Definition bump_no_confirm (t : Telemetry) : Telemetry :=
  mkTelemetry (setups t) (filtered_daily t) (filtered_ema t) (filtered_vol t)
    (filtered_volatility t) (filtered_regime t) (no_touch t)
    (no_confirm t + 1)%Z (accepted t).

Definition bump_accepted (t : Telemetry) : Telemetry :=
  mkTelemetry (setups t) (filtered_daily t) (filtered_ema t) (filtered_vol t)
    (filtered_volatility t) (filtered_regime t) (no_touch t) (no_confirm t)
    (accepted t + 1)%Z.

(** The daily frame as [simulate_all] reads it; [has_ADX_14] is
    ["ADX_14" in self.daily.columns]. *)
Record DailyFrame : Type := mkDailyFrame {
  daily_rows : list DailyBar;
  has_ADX_14 : bool
}.

(** The row at [didx.max()]: the last row dated at or before [ts]. *)
Definition daily_row_at (rows : list DailyBar) (ts : Z) : option DailyBar :=
  fold_left (fun acc r => if (daily_date r <=? ts)%Z then Some r else acc)
            rows None.

(** The regime gate: [true] when the setup is filtered out. *)
Definition adx_filtered (cfg : Config) (daily : DailyFrame) (ts : Z) : bool :=
  if get (USE_ADX cfg) true then
    match daily_row_at (daily_rows daily) ts with
    | Some r =>
        if has_ADX_14 daily then
          match ADX_14 r with
          | Some cur_adx => cur_adx <? get (ADX_TREND_THRESHOLD cfg) 25
          | None => false
          end
        else false
    | None => false
    end
  else false.

Definition ema_trend_ok (cfg : Config) (r : Bar) (d : Dir) : bool :=
  if negb (USE_EMA_TREND cfg) then true
  else if get (REQUIRE_PRICE_ABOVE_EMA_FAST cfg) true then
    match d with
    | UP => (EMA_SLOW r <? EMA_FAST r) && (EMA_FAST r <? close r)
    | DOWN => (EMA_FAST r <? EMA_SLOW r) && (close r <? EMA_FAST r)
    end
  else
    match d with
    | UP => EMA_SLOW r <? EMA_FAST r
    | DOWN => EMA_FAST r <? EMA_SLOW r
    end.

Definition vol_ok (cfg : Config) (r : Bar) : bool :=
  (ATR_PCT_MIN cfg <=? ATR_PCT r) && (ATR_PCT r <=? ATR_PCT_MAX cfg).

Definition side_of (d : Dir) : Side :=
  match d with
  | UP => LONG
  | DOWN => SHORT
  end.

Section Candidates.

Context {X : External}.

(** [self.telemetry] and [self.sim_trades] while [simulate_all] runs. *)
Record Candidates : Type := mkCandidates {
  telemetry : Telemetry;
  sim_trades : list (SimTrade Features)
}.

(** The stop price of a confirmed entry: the structural reference moved
    away by the ATR buffer. *)
Definition entry_stop (cfg : Config) (sp : Setup) (r : Bar) : Q :=
  let buffer := ATR_MULT_BUFFER cfg * ATR r in
  match sp_direction sp with
  | UP => stop_ref sp - buffer
  | DOWN => stop_ref sp + buffer
  end.

(** The body of the loop of [simulate_all] from the confirmed entry index
    [e_idx] on. *)
Definition enter (cfg : Config) (df : list Bar) (sp : Setup) (e_idx : Z)
    (st : Candidates) : result Candidates :=
  r <- lift_index (py_index df e_idx) ;;
  let stop0 := entry_stop cfg sp r in
  let entry := close r in
  let rps := Qabs (entry - stop0) in
  if rps <=? 1e-9 then Ok st
  else
    let max_hold :=
      match entry_tf sp with
      | TF_30m => MAX_HOLD_M30 cfg
      | TF_1h => MAX_HOLD_H1 cfg
      end in
    out <- simulate df e_idx entry (sp_direction sp) stop0 (sp_tp1 sp)
                    (sp_tp2 sp) max_hold ;;
    let feats := build_features df e_idx (sp_direction sp) (setup sp) (zone sp) in
    let label := if 0 <? ps out then 1%Z else 0%Z in
    rx <- lift_index (py_index df (x_idx out)) ;;
    Ok (mkCandidates
          (bump_accepted (telemetry st))
          (sim_trades st ++
           [mkSimTrade (entry_tf sp) e_idx (x_idx out) entry (x_price out)
                       (ps out) rps (setup sp) (side_of (sp_direction sp))
                       (date r) (date rx) stop0 (sp_tp1 sp) (sp_tp2 sp)
                       (mae_R out) (mfe_R out) feats label])).

(** One iteration of [for sp in self.setups]. *)
Definition simulate_setup (cfg : Config) (daily : DailyFrame)
    (h1 m30 : list Bar) (st : Candidates) (sp : Setup) : result Candidates :=
  let skip (bump : Telemetry -> Telemetry) :=
    Ok (mkCandidates (bump (telemetry st)) (sim_trades st)) in
  if adx_filtered cfg daily (start_time sp) then skip bump_filtered_regime
  else
    let df := df_for_tf h1 m30 (entry_tf sp) in
    match df with
    | [] => Ok st
    | _ :: _ =>
        match idx_from_time df (start_time sp) with
        | None => skip bump_no_touch
        | Some start_i =>
            r0 <- lift_index (py_index df start_i) ;;
            if negb (ema_trend_ok cfg r0 (sp_direction sp))
            then skip bump_filtered_ema
            else if negb (vol_ok cfg r0) then skip bump_filtered_vol
            else
              let win := match entry_tf sp with
                         | TF_30m => ENTRY_WINDOW_M30 cfg
                         | TF_1h => ENTRY_WINDOW_H1 cfg
                         end in
              t <- first_touch df (start_time sp) (zone sp) win ;;
              match t with
              | None => skip bump_no_touch
              | Some t_idx =>
                  let bars := match entry_tf sp with
                              | TF_30m => CONFIRM_BARS_M30 cfg
                              | TF_1h => CONFIRM_BARS_H1 cfg
                              end in
                  c <- confirm_idx cfg df t_idx (sp_direction sp) bars
                                   (ALLOW_TOUCH_IF_NO_CONFIRM cfg) ;;
                  match c with
                  | None => skip bump_no_confirm
                  | Some e_idx => enter cfg df sp e_idx st
                  end
              end
        end
    end.

(** [simulate_all], from the telemetry as [build_setups] leaves it. *)
Definition simulate_all (cfg : Config) (daily : DailyFrame)
    (h1 m30 : list Bar) (tel : Telemetry) (sps : list Setup)
    : result Candidates :=
  fold_left (fun acc sp => st <- acc ;; simulate_setup cfg daily h1 m30 st sp)
            sps (Ok (mkCandidates tel [])).

End Candidates.

(* ====================================================================== *)
(** * Backtester: classifier gate *)
(* ====================================================================== *)

(** [(probs >= thr).mean()]. *)
Definition pass_count (probs : list Q) (thr : Q) : Z :=
  len (filter (fun p => thr <=? p) probs).

Definition pass_rate (probs : list Q) (thr : Q) : Q :=
  inject_Z (pass_count probs thr) / inject_Z (len probs).

(** [np.quantile(a, q)] with numpy's default method: on the sorted array,
    linear interpolation at the virtual index [q * (n - 1)].  It rejects a
    [q] outside [[0, 1]]; the embedded code never calls it on an empty
    array, on which the model raises as well. *)
Definition np_quantile (a : list Q) (q : Q) : result Q :=
  if (q <? 0) || (1 <? q) then Raise ValueError
  else
    let s := sort_by Qleb a in
    let n := len s in
    if (n =? 0)%Z then Raise ValueError
    else
      let h := q * inject_Z (n - 1) in
      let j := Qfloor h in
      let g := h - inject_Z j in
      xj <- lift_index (py_index s j) ;;
      xk <- lift_index (py_index s (Z.min (j + 1) (n - 1))) ;;
      Ok (xj + (xk - xj) * g).

(** [np.linspace(0.2, 0.9, 15)]. *)
Definition threshold_grid : list Q :=
  map (fun k => 0.2 + inject_Z k * ((0.9 - 0.2) / 14)) (py_range 0 15).

Section Gate.

Context {X : External}.

(** [self.model] and [self.threshold]. *)
Record Gate : Type := mkGate {
  model : option Model;
  threshold : Q
}.

Definition probs_of (m : Model) (ts : list (SimTrade Features)) : list Q :=
  map (fun t => predict_proba m (features t)) ts.

(** The chronological split of [run]: [train_until]. *)
Definition split_time (cfg : Config) (sims : list (SimTrade Features))
    : result Z :=
  let times := sort_by Z.leb (map time_in sims) in
  let split_idx := Z.max 1 (py_int (inject_Z (len times) * TRAIN_FRAC cfg)) in
  lift_index (py_index times (split_idx - 1)).

Definition train_set (train_until : Z) (sims : list (SimTrade Features))
    : list (SimTrade Features) :=
  filter (fun t => (time_in t <=? train_until)%Z) sims.

Definition oos_set (train_until : Z) (sims : list (SimTrade Features))
    : list (SimTrade Features) :=
  filter (fun t => (train_until <? time_in t)%Z) sims.

(** One step of the threshold search: [best] is [(best_thr, best_score)]. *)
Definition search_step (probs : list Q) (labels : list Z) (best : Q * Q)
    (q : Q) : result (Q * Q) :=
  thr <- np_quantile probs q ;;
  let sel := map snd (filter (fun pl => thr <=? fst pl) (combine probs labels)) in
  if (len sel <? 5)%Z then Ok best
  else
    let win_rate := inject_Z (fold_right Z.add 0%Z sel) / inject_Z (len sel) in
    let score := win_rate - 0.5 * (1 - win_rate) in
    if snd best <? score then Ok (thr, score) else Ok best.

(** The optional threshold search of [run]; an exception inside it leaves
    the threshold as it was ([except Exception: pass]). *)
Definition optimize_threshold (m : Model) (thr0 : Q)
    (val : list (SimTrade Features)) : Q :=
  if (25 <=? len val)%Z then
    let probs := probs_of m val in
    let labels := map label val in
    match fold_left (fun acc q => b <- acc ;; search_step probs labels b q)
                    threshold_grid (Ok (thr0, - 1e9)) with
    | Ok (best_thr, _) => best_thr
    | Raise _ => thr0
    end
  else thr0.

(** The classifier stage of [run], between [simulate_all] and
    [build_equity]. *)
Definition train_gate (cfg : Config) (train_until : Z)
    (sims : list (SimTrade Features)) : Gate :=
  if USE_ML cfg then
    let train := train_set train_until sims in
    if (20 <=? len train)%Z then
      let m := fit train in
      if get (OPTIMIZE_ML_THRESHOLD cfg) false
      then mkGate (Some m) (optimize_threshold m 0.5 (oos_set train_until sims))
      else mkGate (Some m) 0.5
    else mkGate None 0.5
  else mkGate None 0.5.

(** The pass-rate guard at the head of [build_equity]: the threshold it
    leaves in [self.threshold]. *)
Definition relax (cfg : Config) (thr : Q) (probs : list Q) : result Q :=
  let raw_rate := pass_rate probs thr in
  if raw_rate <? ML_MIN_PASS_RATE_TEST cfg then
    thr_relaxed <- np_quantile probs (1 - ML_MIN_PASS_RATE_TEST cfg) ;;
    Ok (pymin thr thr_relaxed)
  else Ok thr.

Definition relax_gate (cfg : Config) (g : Gate) (train_until : Z)
    (sims : list (SimTrade Features)) : result Gate :=
  match model g, oos_set train_until sims with
  | Some m, (_ :: _) as oos =>
      thr <- relax cfg (threshold g) (probs_of m oos) ;;
      Ok (mkGate (Some m) thr)
  | _, _ => Ok g
  end.

End Gate.

(* ====================================================================== *)
(** * Backtester: risk sizing and equity accounting *)
(* ====================================================================== *)

(** [l[start:]]. *)
Definition py_slice_from {A} (l : list A) (start : Z) : list A :=
  if (start <? 0)%Z then skipn (Z.to_nat (Z.max 0 (len l + start))) l
  else skipn (Z.to_nat start) l.

Definition _dd_percent (current_cap highest_cap : Q) : Q :=
  if 0 <? highest_cap then (current_cap / highest_cap - 1.0) * 100.0 else 0.0.

Definition step_leb (a b : Q * Q) : bool := fst a <=? fst b.

Definition _risk_multiplier_for_dd (cfg : Config) (cur_dd : Q) : Q :=
  if negb (get (DYNAMIC_DD_RISK cfg) false) then 1.0
  else
    let steps := get (DD_RISK_STEPS cfg) [] in
    fold_left (fun mult tm => if cur_dd <=? fst tm then snd tm else mult)
              (sort_by step_leb steps) 1.0.

(** [eq_map]: a dict from timestamp to capital, as an association list read
    from the front, so that a later assignment to a key shadows an earlier
    one. *)
Definition eq_map_get (m : list (Z * Q)) (ts : Z) : option Q :=
  option_map snd (find (fun kv => (fst kv =? ts)%Z) m).

(** The locals of [build_equity] that [add] updates. *)
Record Account : Type := mkAccount {
  cap : Q;
  highest_global : Q;
  trade_returns : list Q;
  eq_map : list (Z * Q);
  trades : list Trade
}.

Record EquitySnapshot : Type := mkSnapshot {
  snap_date : Z;
  capital : Q;
  dd : Q
}.

Section Equity.

Context {X : External}.

Definition _vol_adjustment (cfg : Config) (trade_returns : list Q) : Q :=
  if negb (get (USE_VOL_TARGET cfg) false) then 1.0
  else
    let target := get (TARGET_ANNUAL_VOL cfg) 0.25 in
    let window := get (VOL_WINDOW_TRADES cfg) 40%Z in
    if (len trade_returns <? 5)%Z then 1.0
    else
      let recent := py_slice_from trade_returns (- window) in
      match np_std recent with
      | Some s =>
          if s <=? 1e-9 then 1.0
          else
            let scale := target / (s * 4) in
            pymax 0.4 (pymin 1.6 scale)
      | None => pymax 0.4 1.6
      end.

(** The hard stop at the head of [add]. *)
Definition hard_stopped (cfg : Config) (a : Account) : bool :=
  (- 1e8 <? get (MAX_DRAWDOWN_STOP cfg) (- 1e9))
  && (_dd_percent (cap a) (highest_global a)
      <=? get (MAX_DRAWDOWN_STOP cfg) (- 1e9)).

(** [eff_risk] after the clamp. *)
Definition eff_risk (cfg : Config) (a : Account) : Q :=
  let base_risk := RISK_PER_TRADE cfg in
  let cur_dd := _dd_percent (cap a) (highest_global a) in
  let dd_mult := _risk_multiplier_for_dd cfg cur_dd in
  let vol_mult := _vol_adjustment cfg (trade_returns a) in
  let eff := base_risk * dd_mult * vol_mult in
  pymax (get (RISK_PER_TRADE_MIN cfg) eff)
        (pymin eff (get (RISK_PER_TRADE_MAX cfg) eff)).

(** The probability scale of the size, [1] when it does not apply. *)
Definition prob_scale (cfg : Config) (thr : Q) (p : option Q) : Q :=
  match p with
  | Some pr =>
      if SIZE_BY_PROB cfg then
        let frac := pymax 0.0 ((pr - thr) / pymax 1e-6 (1 - thr)) in
        PROB_SIZE_MIN cfg + (PROB_SIZE_MAX cfg - PROB_SIZE_MIN cfg) * frac
      else 1
  | None => 1
  end.

Definition short_factor (cfg : Config) (side : Side) : Q :=
  match side with
  | SHORT => SIZE_SHORT_FACTOR cfg
  | LONG => 1
  end.

(** [size] as [add] computes it, before and after [int(max(1, size))]. *)
Definition raw_size (cfg : Config) (thr : Q) (a : Account)
    (sim : SimTrade Features) (p : option Q) : Q :=
  (eff_risk cfg a * cap a) / pymax (risk_per_share sim) 1e-9
  * short_factor cfg (sim_direction sim)
  * prob_scale cfg thr p.

Definition sized (cfg : Config) (thr : Q) (a : Account)
    (sim : SimTrade Features) (p : option Q) : Z :=
  py_int (pymax 1 (raw_size cfg thr a sim p)).

(** The first 1H timestamp at or after the exit, else the last one. *)
Definition map_time (h1 : list Bar) (t_out : Z) : result Z :=
  match find (fun r => (t_out <=? date r)%Z) h1 with
  | Some r => Ok (date r)
  | None => r <- lift_index (py_index h1 (-1)) ;; Ok (date r)
  end.

(** [add(sim, prob)]; [thr] is [self.threshold]. *)
Definition add (cfg : Config) (h1 : list Bar) (thr : Q) (a : Account)
    (sim : SimTrade Features) (p : option Q) : result Account :=
  if hard_stopped cfg a then Ok a
  else
    let sz := sized cfg thr a sim p in
    let pnl := per_share sim * inject_Z sz in
    let cap' := cap a + pnl in
    let r := per_share sim / pymax (risk_per_share sim) 1e-9 in
    mt <- map_time h1 (time_out sim) ;;
    Ok (mkAccount cap'
          (pymax (highest_global a) cap')
          (trade_returns a ++ [r])
          ((mt, cap') :: eq_map a)
          (trades a ++
           [mkTrade (sim_entry_tf sim) (sim_entry_idx sim) (sim_exit_idx sim)
                    (sim_entry sim) (sim_exit sim) pnl sz r (sim_setup sim)
                    (sim_direction sim) (time_in sim) (time_out sim)
                    (sim_stop sim) (sim_tp1 sim) (sim_tp2 sim)
                    (sim_mae_r sim) (sim_mfe_r sim) p
                    (Some (risk_per_share sim))])).

(** What the accounting loop does with one candidate: [None] when the
    probability gate drops it, [Some p] when it calls [add(sim, p)]. *)
Definition gate_verdict (g : Gate) (train_until : Z)
    (sim : SimTrade Features) : option (option Q) :=
  if (time_in sim <=? train_until)%Z then Some None
  else
    match model g with
    | None => Some None
    | Some m =>
        let p := predict_proba m (features sim) in
        if threshold g <=? p then Some (Some p) else None
    end.

Definition account_one (cfg : Config) (h1 : list Bar) (g : Gate)
    (train_until : Z) (a : Account) (sim : SimTrade Features)
    : result Account :=
  match gate_verdict g train_until sim with
  | Some p => add cfg h1 (threshold g) a sim p
  | None => Ok a
  end.

(** [for sim in self.sim_trades: ...] *)
Definition account_all (cfg : Config) (h1 : list Bar) (g : Gate)
    (train_until : Z) (sims : list (SimTrade Features)) (a0 : Account)
    : result Account :=
  fold_left (fun acc sim => a <- acc ;; account_one cfg h1 g train_until a sim)
            sims (Ok a0).

(** The closing loop over the 1H timestamps; the state is
    [(highest, cur, equity)]. *)
Definition equity_step (m : list (Z * Q)) (st : Q * Q * list EquitySnapshot)
    (ts : Z) : Q * Q * list EquitySnapshot :=
  let '(highest, cur, eq) := st in
  let cur' := get (eq_map_get m ts) cur in
  let highest' := pymax highest cur' in
  let dd := (cur' - highest') / pymax highest' 1e-9 * 100 in
  (highest', cur', eq ++ [mkSnapshot ts cur' dd]).

Definition equity_curve (cfg : Config) (h1 : list Bar) (m : list (Z * Q))
    : list EquitySnapshot :=
  snd (fold_left (equity_step m) (map date h1)
                 (START_CAPITAL cfg, START_CAPITAL cfg, [])).

Definition initial_account (cfg : Config) : Account :=
  mkAccount (START_CAPITAL cfg) (START_CAPITAL cfg) [] [] [].

(** What [build_equity] leaves behind: the gate with its final threshold,
    the trades and the equity series. *)
Record Ledger : Type := mkLedger {
  final_gate : Gate;
  book : Account;
  equity : list EquitySnapshot
}.

Definition build_equity (cfg : Config) (h1 : list Bar) (g : Gate)
    (train_until : Z) (sims : list (SimTrade Features)) : result Ledger :=
  g' <- relax_gate cfg g train_until sims ;;
  a <- account_all cfg h1 g' train_until sims (initial_account cfg) ;;
  Ok (mkLedger g' a (equity_curve cfg h1 (eq_map a))).

(** [run], from the simulated candidates on; [None] is the early
    [return {}]. *)
Definition run (cfg : Config) (h1 : list Bar)
    (sims : list (SimTrade Features)) : result (option Ledger) :=
  match sims with
  | [] => Ok None
  | _ :: _ =>
      train_until <- split_time cfg sims ;;
      let g := train_gate cfg train_until sims in
      l <- build_equity cfg h1 g train_until sims ;;
      Ok (Some l)
  end.

End Equity.

(* ====================================================================== *)
(** * Vocabulary of the properties and concrete scenarios *)
(* ====================================================================== *)

(** Consecutive pivots differ in kind. *)
Fixpoint alternates (l : list Pivot) : Prop :=
  match l with
  | a :: t =>
      match t with
      | b :: _ => kind a <> kind b /\ alternates t
      | [] => True
      end
  | [] => True
  end.

(** The pivots of the impulse scenario. *)
Definition scenario_pivots : list Pivot :=
  [ mkPivot 0 100 L; mkPivot 1 110 H; mkPivot 2 105 L;
    mkPivot 3 115 H; mkPivot 4 108 L; mkPivot 5 120 H ].

(** A value written to [stop] is on the safe side of the entry price: at
    or above it for a long, at or below it for a short. *)
Definition protects (d : Dir) (entry : Q) (w : StopWrite) : Prop :=
  match d with
  | UP => entry <= written w
  | DOWN => written w <= entry
  end.

(** The excursion statistics have the right signs. *)
Definition excursions_signed (m_ae m_fe : Q) : Prop := m_ae <= 0 /\ 0 <= m_fe.

(** Two bars after an entry at 100 with the stop at 95: the first reaches
    +1R, the second the first target. *)
Definition be_bars : list Bar :=
  [ mkBar 0 100 100 100 100 100 100 1 1;
    mkBar 1 101 105 101 104 100 100 1 1;
    mkBar 2 104 111 103 110 100 100 1 1;
    mkBar 3 110 112 101 111 100 100 1 1 ].

(** The full-hold scenario: an entry bar, then ten bars that stay between
    96 and 104 and close at 103. *)
Definition hold_bars : list Bar :=
  mkBar 0 100 100 100 100 100 100 1 1
  :: map (fun k => mkBar k 100 104 96 103 100 100 1 1) (py_range 1 11).

(** Candidate bar [j] of the frame is tested against the extremes of the
    reference bar [pb], with verdict [v]. *)
Definition verdict_against (cfg : Config) (df : list Bar) (d : Dir)
    (pb : Bar) (j : Z) (v : bool) : Prop :=
  exists r, py_index df j = Some r
            /\ bar_confirms cfg d (high pb) (low pb) r = v.

(** Two bars that differ at most in their high and low. *)
Definition same_but_extremes (r r' : Bar) : Prop :=
  date r = date r' /\ open r = open r' /\ close r = close r'
  /\ EMA_FAST r = EMA_FAST r' /\ EMA_SLOW r = EMA_SLOW r'
  /\ ATR r = ATR r' /\ ATR_PCT r = ATR_PCT r'.

(** The shipped "balanced" profile, with the base risk, the confirmation
    rules and the minimum out-of-sample pass rate left open. *)
Definition balanced_with (risk : Q) (rules : list string) (min_pass_test : Q)
    : Config :=
  {| START_CAPITAL := 100000;
     RISK_PER_TRADE := risk;
     DYNAMIC_DD_RISK := Some true;
     DD_RISK_STEPS := Some [(-10, 0.75); (-20, 0.5); (-30, 0.35); (-40, 0.25)];
     USE_VOL_TARGET := Some false;
     TARGET_ANNUAL_VOL := Some 0.25;
     VOL_WINDOW_TRADES := Some 40%Z;
     RISK_PER_TRADE_MIN := Some 0.002;
     RISK_PER_TRADE_MAX := Some 0.02;
     MAX_DRAWDOWN_STOP := Some (-60);
     OPTIMIZE_ML_THRESHOLD := Some true;
     ATR_MULT_BUFFER := 0.25;
     ENTRY_WINDOW_H1 := 72;
     ENTRY_WINDOW_M30 := 144;
     MAX_HOLD_H1 := 144;
     MAX_HOLD_M30 := 288;
     USE_EMA_TREND := false;
     REQUIRE_PRICE_ABOVE_EMA_FAST := Some false;
     ATR_PCT_MIN := 0.06;
     ATR_PCT_MAX := 2.00;
     ADX_TREND_THRESHOLD := Some 25;
     USE_ADX := Some true;
     REQUIRE_CONFIRM := true;
     CONFIRM_BARS_H1 := 5;
     CONFIRM_BARS_M30 := 10;
     CONFIRM_RULES := rules;
     ALLOW_TOUCH_IF_NO_CONFIRM := true;
     USE_ML := true;
     TRAIN_FRAC := 0.6;
     SIZE_BY_PROB := true;
     PROB_SIZE_MIN := 0.7;
     PROB_SIZE_MAX := 1.4;
     ML_MIN_PASS_RATE_TEST := min_pass_test;
     SIZE_SHORT_FACTOR := 0.75 |}.

Definition balanced : Config :=
  balanced_with 0.01 ["break_prev_extreme"%string; "ema_fast_cross"%string] 0.25.

(** The same profile with the break rule as the only confirmation rule. *)
Definition break_only : Config :=
  balanced_with 0.01 ["break_prev_extreme"%string] 0.25.

(** Collaborators that learn nothing: no features, a constant classifier,
    an undefined deviation. *)
Definition no_learning : External :=
  mkExternal unit (fun _ _ _ _ _ => tt) unit (fun _ => tt)
             (fun _ _ => 0.5) (fun _ => None).

(** Three bars: the bar before the touch has its high at 110; the bar after
    the touch closes above the high of the touch bar, yet below 110. *)
Definition confirm_bars : list Bar :=
  [ mkBar 0 108 110 107 109 100 100 1 1;
    mkBar 1 100 101 99 100 100 100 1 1;
    mkBar 2 100 106 100 105 100 100 1 1 ].

(** A confirmed entry whose stop lies half a billionth below the entry
    price: the entry bar closes at 100 with a zero ATR, the structural stop
    reference is 100 - 5e-10. *)
Definition tight_bars : list Bar :=
  [ mkBar 0 100 100 100 100 100 100 0 1;
    mkBar 1 100 101 99 100 100 100 0 1 ].

Definition tight_setup : Setup :=
  mkSetup W3 UP 0 TF_1h (99, 101) (100 - 5e-10) 110 115.

(** A long W3 setup over [be_bars], with the structural stop at 95. *)
Definition be_setup : Setup :=
  mkSetup W3 UP 0 TF_1h (99, 101) 95 110 115.

(** The state of [simulate_all] before its first setup, in a run of one
    setup: [build_setups] has counted the setup, no candidate exists yet. *)
Definition fresh_candidates : @Candidates no_learning :=
  @mkCandidates no_learning (mkTelemetry 1 0 0 0 0 0 0 0 0) [].

(** Equity accounting with no gate at all: every candidate, in order, is
    handed to [add] without a probability. *)
Definition account_ungated {X : External} (cfg : Config) (h1 : list Bar)
    (thr : Q) (sims : list (SimTrade Features)) (a0 : Account)
    : result Account :=
  fold_left (fun acc sim => a <- acc ;; add cfg h1 thr a sim None)
            sims (Ok a0).

(** A simulated long candidate entered at time [k] that gains 2 per share
    on a risk of 5 per share. *)
Definition candidate_at (k : Z) : SimTrade (@Features no_learning) :=
  mkSimTrade TF_1h k (k + 1) 100 102 2 5 W3 LONG k (k + 1) 95 110 115
             (- 0.2) 0.5 tt 1.

(** Seventeen candidates: the training fraction 0.6 holds ten of them. *)
Definition seventeen : list (SimTrade (@Features no_learning)) :=
  map candidate_at (py_range 1 18).

(** The "balanced" profile as the counterfactual grid runs it with its
    risk multiplier 1.5: a base risk of 0.01 * 1.5. *)
Definition balanced_x15 : Config :=
  balanced_with (0.01 * 1.5)
    ["break_prev_extreme"%string; "ema_fast_cross"%string] 0.25.

(** An out-of-sample long candidate with a risk of 1 per share. *)
Definition unit_risk_candidate : SimTrade (@Features no_learning) :=
  mkSimTrade TF_1h 0 1 100 102 2 1 W3 LONG 0 1 99 110 115 (- 0.2) 2 tt 1.

(** The "balanced" profile with the minimum out-of-sample pass rate at
    0.30, the value the profile gives [ML_MIN_PASS_RATE]. *)
Definition balanced_pass30 : Config :=
  balanced_with 0.01
    ["break_prev_extreme"%string; "ema_fast_cross"%string] 0.30.

(** A classifier that is already fitted: the feature snapshot of a
    candidate is the probability the classifier predicts for it. *)
Definition fitted : External :=
  mkExternal Q (fun _ _ _ _ _ => 0.5) unit (fun _ => tt)
             (fun _ p => p) (fun _ => None).

(** A candidate entered at time [k] for which the classifier predicts [p]. *)
Definition candidate_with (k : Z) (p : Q) : SimTrade (@Features fitted) :=
  mkSimTrade TF_1h k (k + 1) 100 102 2 5 W3 LONG k (k + 1) 95 110 115
             (- 0.2) 0.5 p 1.

(** Four out-of-sample candidates, entered after time 0, with predicted
    probabilities 0.1, 0.2, 0.3 and 0.4. *)
Definition four_oos : list (SimTrade (@Features fitted)) :=
  [ candidate_with 1 0.1; candidate_with 2 0.2;
    candidate_with 3 0.3; candidate_with 4 0.4 ].

(* ====================================================================== *)
(** * Structure engine and backtester: corrective patterns, zones, setups *)
(* ====================================================================== *)

Record ABC : Type := mkABC { abc_direction : Dir; abc_points : list Pivot }.

(** The acceptance gate of [detect_abcs] on one window of four pivots.  The
    quotient [B/A] is read only when [A > 0]: the [or] stops at [A<=0]. *)
Definition abc_window (q0 q1 q2 q3 : Pivot) : option Dir :=
  match kind q0, kind q1, kind q2, kind q3 with
  | H, L, H, L =>
      (* h0, l1, h1, l2 *)
      let A := price q0 - price q1 in
      let B := price q2 - price q1 in
      if (A <=? 0)
         || negb ((0.3 <=? B / A) && (B / A <=? 0.86))
         || negb (price q3 <? price q1)
      then None else Some DOWN
  | L, H, L, H =>
      (* l0, h1, l1, h2 *)
      let A := price q1 - price q0 in
      let B := price q1 - price q2 in
      if (A <=? 0)
         || negb ((0.3 <=? B / A) && (B / A <=? 0.86))
         || negb (price q1 <? price q3)
      then None else Some UP
  | _, _, _, _ => None
  end.

(** The [while] loop of [detect_abcs], on the suffix [piv[i:]]: the window
    is its first four pivots, [i += 1] takes its tail and [i += 2] drops two
    pivots. *)
Fixpoint detect_abcs_from (s : list Pivot) : list ABC :=
  match s with
  | q0 :: s1 =>
      match s1 with
      | q1 :: s2 =>
          match s2 with
          | q2 :: q3 :: _ =>
              match abc_window q0 q1 q2 q3 with
              | Some d => mkABC d [q0; q1; q2; q3] :: detect_abcs_from s2
              | None => detect_abcs_from s1
              end
          | _ => []
          end
      | _ => []
      end
  | [] => []
  end.

Definition detect_abcs (e : ElliottEngine) (piv : list Pivot) : list ABC :=
  detect_abcs_from piv.

(** [lo, hi = sorted(zone)]. *)
Definition sorted_pair (z : Q * Q) : Q * Q :=
  if snd z <? fst z then (snd z, fst z) else z.

(** [fib_zone(A, B, d, zone)]. *)
Definition fib_zone (A B : Q) (d : Dir) (zone : Q * Q) : Q * Q :=
  let '(lo, hi) := sorted_pair zone in
  let '(zL, zH) :=
    match d with
    | UP => let L := B - A in (B - L * hi, B - L * lo)
    | DOWN => let L := A - B in (B + L * lo, B + L * hi)
    end in
  (pymin zL zH, pymax zL zH).

(** What [analyze_structure] stores: the impulses and corrections of the
    daily frame and those of the 1H frame. *)
Record Structure : Type := mkStructure {
  prim_imp : list Impulse;
  prim_abc : list ABC;
  impulses : list Impulse;
  abcs : list ABC
}.

(** [analyze_structure]: each frame gives its [close] and [ATR] columns. *)
Definition analyze_structure (primary_engine h1_engine : ElliottEngine)
    (daily_close : list Q) (daily_atr : list (option Q))
    (h1_close : list Q) (h1_atr : list (option Q)) : result Structure :=
  let piv_d := zigzag primary_engine daily_close daily_atr in
  pi <- detect_impulses primary_engine piv_d daily_close daily_atr ;;
  let pa := detect_abcs primary_engine piv_d in
  let piv_h := zigzag h1_engine h1_close h1_atr in
  im <- detect_impulses h1_engine piv_h h1_close h1_atr ;;
  let ab := detect_abcs h1_engine piv_h in
  Ok (mkStructure pi pa im ab).

(** The further keys of [CFG] that [build_setups] reads. *)
Record SetupConfig : Type := mkSetupConfig {
  ENTRY_ZONE_W3 : Q * Q;
  ENTRY_ZONE_W5 : Q * Q;
  ENTRY_ZONE_C : Q * Q;
  TP1 : Q;
  TP2 : Q;
  USE_W5 : bool
}.

(** [_preferred_tf]: the 30-minute frame when it covers [start_time]. *)
Definition _preferred_tf (m30 : list Bar) (start_time : Z) : Timeframe :=
  match py_index m30 0, py_index m30 (-1) with
  | Some first, Some last =>
      if ((date first <=? start_time) && (start_time <=? date last))%Z
      then TF_30m else TF_1h
  | _, _ => TF_1h
  end.

(** The setups [build_setups] appends for one impulse; unpacking the points
    needs six of them. *)
Definition impulse_setups (sc : SetupConfig) (h1 m30 : list Bar)
    (imp : Impulse) : result (list Setup) :=
  match points imp with
  | [p0; p1; p2; p3; p4; p5] =>
      let d := direction imp in
      let z3 := fib_zone (price p0) (price p1) d (ENTRY_ZONE_W3 sc) in
      r3 <- lift_index (py_index h1 (idx p2 + 1)) ;;
      let t3 := date r3 in
      let w3 :=
        mkSetup W3 d t3 (_preferred_tf m30 t3) z3 (price p0)
                (fib_ext (price p0) (price p1) d (TP1 sc))
                (fib_ext (price p0) (price p1) d (TP2 sc)) in
      if USE_W5 sc then
        let z5 := fib_zone (price p2) (price p3) d (ENTRY_ZONE_W5 sc) in
        r5 <- lift_index (py_index h1 (idx p4 + 1)) ;;
        let t5 := date r5 in
        Ok [ w3;
             mkSetup W5 d t5 (_preferred_tf m30 t5) z5 (price p2)
                     (fib_ext (price p2) (price p3) d (TP1 sc))
                     (fib_ext (price p2) (price p3) d (TP2 sc)) ]
      else Ok [w3]
  | _ => Raise ValueError
  end.

(** The setup [build_setups] appends for one correction. *)
Definition abc_setup (sc : SetupConfig) (h1 m30 : list Bar) (abc : ABC)
    : result Setup :=
  match abc_points abc with
  | [a0; a1; b1; c1] =>
      let d := abc_direction abc in
      let zc := fib_zone (price a0) (price a1) d (ENTRY_ZONE_C sc) in
      rc <- lift_index (py_index h1 (idx b1 + 1)) ;;
      let tc := date rc in
      Ok (mkSetup C d tc (_preferred_tf m30 tc) zc (price b1)
                  (fib_ext (price a0) (price a1) d (TP1 sc))
                  (fib_ext (price a0) (price a1) d (TP2 sc)))
  | _ => Raise ValueError
  end.

Definition start_leb (a b : Setup) : bool := (start_time a <=? start_time b)%Z.

(** [self.telemetry["setups"] = len(self.setups)]. *)
Definition set_setups (t : Telemetry) (n : Z) : Telemetry :=
  mkTelemetry n (filtered_daily t) (filtered_ema t) (filtered_vol t)
    (filtered_volatility t) (filtered_regime t) (no_touch t) (no_confirm t)
    (accepted t).

(** The setups in the order the two loops of [build_setups] append them. *)
Definition collect_setups (sc : SetupConfig) (h1 m30 : list Bar)
    (imps : list Impulse) (abcl : list ABC) : result (list Setup) :=
  from_imps <-
    fold_left (fun acc imp =>
                 l <- acc ;; n <- impulse_setups sc h1 m30 imp ;; Ok (l ++ n))
              imps (Ok []) ;;
  fold_left (fun acc abc =>
               l <- acc ;; s <- abc_setup sc h1 m30 abc ;; Ok (l ++ [s]))
            abcl (Ok from_imps).

(** [build_setups]: the sorted setups and the telemetry that counts them. *)
Definition build_setups (sc : SetupConfig) (h1 m30 : list Bar)
    (imps : list Impulse) (abcl : list ABC) (tel : Telemetry)
    : result (Telemetry * list Setup) :=
  l <- collect_setups sc h1 m30 imps abcl ;;
  let sorted := sort_by start_leb l in
  Ok (set_setups tel (len sorted), sorted).

(** The head of [run]: structure, setups and candidates, from the frames.
    The engines read the [close] and [ATR] columns; the ATR columns are
    given as the engine sees them, with [None] for NaN. *)
Definition prepare {X : External} (cfg : Config) (sc : SetupConfig)
    (primary_engine h1_engine : ElliottEngine) (daily : DailyFrame)
    (daily_close : list Q) (daily_atr : list (option Q))
    (h1 m30 : list Bar) (h1_atr : list (option Q)) (tel : Telemetry)
    : result Candidates :=
  st <- analyze_structure primary_engine h1_engine daily_close daily_atr
                          (map close h1) h1_atr ;;
  ts <- build_setups sc h1 m30 (impulses st) (abcs st) tel ;;
  simulate_all cfg daily h1 m30 (fst ts) (snd ts).

(* ====================================================================== *)
(** * Vocabulary of the further properties *)
(* ====================================================================== *)

(** [w] is a window of [l]: consecutive elements of it. *)
Definition window_of {A} (w l : list A) : Prop :=
  exists pre post, l = pre ++ w ++ post.

(** What [detect_abcs] accepted: four pivots of the right kinds, a positive
    A leg, a B leg that retraces 0.30 to 0.86 of it, and a C pivot beyond
    the end of the A leg. *)
Definition abc_shape (a : ABC) : Prop :=
  exists q0 q1 q2 q3,
    abc_points a = [q0; q1; q2; q3]
    /\ match abc_direction a with
       | DOWN =>
           kind q0 = H /\ kind q1 = L /\ kind q2 = H /\ kind q3 = L
           /\ 0 < price q0 - price q1
           /\ 0.3 * (price q0 - price q1) <= price q2 - price q1
           /\ price q2 - price q1 <= 0.86 * (price q0 - price q1)
           /\ price q3 < price q1
       | UP =>
           kind q0 = L /\ kind q1 = H /\ kind q2 = L /\ kind q3 = H
           /\ 0 < price q1 - price q0
           /\ 0.3 * (price q1 - price q0) <= price q1 - price q2
           /\ price q1 - price q2 <= 0.86 * (price q1 - price q0)
           /\ price q1 < price q3
       end.

(** What [detect_impulses] accepted, apart from the ATR gate: six pivots of
    the right kinds, wave 2 above (below) the origin, wave 3 at least 0.6 of
    wave 1, wave 4 clear of wave 1 by the 2% tolerance. *)
Definition impulse_shape (im : Impulse) : Prop :=
  exists p0 p1 p2 p3 p4 p5,
    points im = [p0; p1; p2; p3; p4; p5]
    /\ match direction im with
       | UP =>
           kind p0 = L /\ kind p1 = H /\ kind p2 = L
           /\ kind p3 = H /\ kind p4 = L /\ kind p5 = H
           /\ price p0 < price p2
           /\ 0 < price p1 - price p0
           /\ 0.6 * (price p1 - price p0) <= price p3 - price p2
           /\ price p1 * 0.98 < price p4
       | DOWN =>
           kind p0 = H /\ kind p1 = L /\ kind p2 = H
           /\ kind p3 = L /\ kind p4 = H /\ kind p5 = L
           /\ price p2 < price p0
           /\ 0 < price p0 - price p1
           /\ 0.6 * (price p0 - price p1) <= price p2 - price p3
           /\ price p4 < price p1 * 1.02
       end.

(** [v] is the sample of the series at index [i]. *)
Definition sample_at (closes : list Q) (i : Z) (v : Q) : Prop :=
  (0 <= i < len closes)%Z /\ py_index closes i = Some v.

(** A pivot sits on a sample of the series: its price is the close at its
    index. *)
Definition is_sample (closes : list Q) (p : Pivot) : Prop :=
  sample_at closes (idx p) (price p).

(** The scan of [zigzag] keeps its two running extremes and all its pivots
    on samples of the series. *)
Definition zz_on_samples (closes : list Q) (s : ZigZag) : Prop :=
  sample_at closes (zz_hi_i s) (zz_hi s)
  /\ sample_at closes (zz_lo_i s) (zz_lo s)
  /\ Forall (is_sample closes) (zz_piv s).

Definition idx_le (a b : Pivot) : Prop := (idx a <= idx b)%Z.

(** Seven closes that zigzag into six alternating pivots, the shape of a
    rising impulse, with an ATR column that is undefined throughout. *)
Definition wave_closes : list Q := [100; 110; 105; 115; 108; 120; 112].
Definition wave_atr : list (option Q) := repeat None 7.

(** The 1H engine of the default configuration. *)
Definition wave_engine : ElliottEngine := mkEngine 0.003 0.8 2.0.

(** Bar [j] of the frame is tested against the zone, with verdict [v]. *)
Definition touch_verdict (df : list Bar) (zone : Q * Q) (j : Z) (v : bool)
    : Prop :=
  exists r, py_index df j = Some r /\ touches zone r = v.

(** A bar whose close lies between its low and its high. *)
Definition bar_sane (r : Bar) : Prop := low r <= close r /\ close r <= high r.

(** The stop of a trade lies on the losing side of the entry price and both
    targets on the winning side. *)
Definition brackets_entry (d : Dir) (entry stop0 tp1 tp2 : Q) : Prop :=
  match d with
  | UP => stop0 < entry /\ entry <= tp1 /\ entry <= tp2
  | DOWN => entry < stop0 /\ tp1 <= entry /\ tp2 <= entry
  end.

(** The per-share result of an exit at the initial stop with the full
    position. *)
Definition full_stop_loss (d : Dir) (entry stop0 : Q) : Q :=
  match d with
  | UP => stop0 - entry
  | DOWN => entry - stop0
  end.

(** The loop state of [simulate] is in one of its two phases: the full
    position with nothing realized and a stop no worse than the initial
    one, or half the position with a realized gain and the stop at entry. *)
Definition risk_capped (d : Dir) (entry stop0 : Q) (s : SimState) : Prop :=
  (pos s = 1.0 /\ realized s == 0
   /\ match d with UP => stop0 <= stop s | DOWN => stop s <= stop0 end)
  \/ (pos s = 0.5 /\ 0 <= realized s /\ stop s == entry).

(** The bar did not reach the stop. *)
Definition clear_of_stop (d : Dir) (r : Bar) (s : SimState) : Prop :=
  match d with
  | UP => stop s < low r
  | DOWN => high r < stop s
  end.

(** A trade of the book respects the probability gate: it carries a
    probability only when a classifier exists, it was entered after the
    split and its probability reaches the threshold; it carries none only
    when it was entered up to the split or no classifier exists. *)
Definition booked_by_gate {X : External} (g : Gate) (train_until : Z)
    (t : Trade) : Prop :=
  match prob t with
  | Some p =>
      model g <> None /\ threshold g <= p /\ (train_until < tr_time_in t)%Z
  | None => (tr_time_in t <= train_until)%Z \/ model g = None
  end.

(** The sum of the booked results. *)
Definition total_pnl (l : list Trade) : Q := fold_right Qplus 0 (map pnl l).

(** An account that has lost 70% from its peak. *)
Definition stopped_account : Account := mkAccount 30000 100000 [] [] [].

(** [(t, m)] is the breached step of the table with the largest
    threshold: every other breached step has a smaller threshold. *)
Definition shallowest_breached (steps : list (Q * Q)) (cur_dd : Q)
    (tm : Q * Q) : Prop :=
  In tm steps /\ cur_dd <= fst tm
  /\ forall tm', In tm' steps -> cur_dd <= fst tm' ->
                 fst tm' < fst tm \/ tm' = tm.

(** [MAX_HOLD_M30] or [MAX_HOLD_H1], by the entry frame. *)
Definition max_hold_of (cfg : Config) (tf : Timeframe) : Z :=
  match tf with
  | TF_30m => MAX_HOLD_M30 cfg
  | TF_1h => MAX_HOLD_H1 cfg
  end.

(** What holds of every candidate [simulate_all] appends: its risk per
    share is the distance between entry and stop and exceeds the guard,
    its label is 1 exactly for a positive result, its exit lies in the
    hold window after its entry, and its excursions have the right
    signs. *)
Definition candidate_ok {X : External} (cfg : Config)
    (t : SimTrade Features) : Prop :=
  1e-9 < risk_per_share t
  /\ risk_per_share t = Qabs (sim_entry t - sim_stop t)
  /\ (label t = 1%Z <-> 0 < per_share t)
  /\ (label t = 0%Z \/ label t = 1%Z)
  /\ (sim_entry_idx t <= sim_exit_idx t
      <= sim_entry_idx t + max_hold_of cfg (sim_entry_tf t))%Z
  /\ sim_mae_r t <= 0 /\ 0 <= sim_mfe_r t.

(** The outcome counters of the telemetry, summed. *)
Definition outcomes (t : Telemetry) : Z :=
  (filtered_regime t + filtered_ema t + filtered_vol t + no_touch t
   + no_confirm t + accepted t)%Z.

(** What one setup does to the state of [simulate_all]: it leaves the
    candidates alone and bumps at most one outcome counter other than
    [accepted], or it appends one well-formed candidate and bumps
    [accepted]. *)
Definition setup_step {X : External} (cfg : Config) (st st' : Candidates)
    : Prop :=
  (sim_trades st' = sim_trades st
   /\ accepted (telemetry st') = accepted (telemetry st)
   /\ setups (telemetry st') = setups (telemetry st)
   /\ (outcomes (telemetry st) <= outcomes (telemetry st')
       <= outcomes (telemetry st) + 1)%Z)
  \/ (exists t,
        st' = mkCandidates (bump_accepted (telemetry st)) (sim_trades st ++ [t])
        /\ candidate_ok cfg t).

(** The hold and confirmation counts of the configuration are not
    negative. *)
Definition counts_nonneg (cfg : Config) : Prop :=
  (0 <= CONFIRM_BARS_H1 cfg)%Z /\ (0 <= CONFIRM_BARS_M30 cfg)%Z
  /\ (0 <= MAX_HOLD_H1 cfg)%Z /\ (0 <= MAX_HOLD_M30 cfg)%Z.

(** A daily frame without an ADX column. *)
Definition no_adx : DailyFrame := mkDailyFrame [] false.

Definition idx_lt (a b : Pivot) : Prop := (idx a < idx b)%Z.

(** The scan of [zigzag] before it reads the sample at index [k]: its
    reference prices are positive, its running extremes lie before [k], its
    pivots have strictly increasing indices, and they all lie before the
    running extreme that the next pivot will be placed on. *)
Definition zz_strict (k : Z) (s : ZigZag) : Prop :=
  0 < zz_last s /\ 0 < zz_hi s /\ 0 < zz_lo s
  /\ (zz_hi_i s < k)%Z /\ (zz_lo_i s < k)%Z
  /\ StronglySorted idx_lt (zz_piv s)
  /\ match zz_direction s with
     | None => zz_piv s = []
     | Some UP => Forall (fun q => (idx q < zz_hi_i s)%Z) (zz_piv s)
     | Some DOWN => Forall (fun q => (idx q < zz_lo_i s)%Z) (zz_piv s)
     end.

(** The same scan between the two blocks of the iteration that reads the
    sample [p] at index [k]. *)
Definition zz_mid (k : Z) (p : Q) (s : ZigZag) : Prop :=
  0 < zz_last s /\ 0 < zz_hi s /\ 0 < zz_lo s
  /\ (zz_hi_i s <= k)%Z /\ (zz_lo_i s <= k)%Z
  /\ StronglySorted idx_lt (zz_piv s)
  /\ match zz_direction s with
     | None => zz_piv s = [] /\ (zz_lo_i s < k)%Z
     | Some UP => Forall (fun q => (idx q < zz_hi_i s)%Z) (zz_piv s)
     | Some DOWN =>
         Forall (fun q => (idx q < zz_lo_i s)%Z) (zz_piv s)
         /\ ((zz_lo_i s < k)%Z \/ zz_lo s = p)
     end.

(** The number of setups one impulse gives. *)
Definition setups_per_impulse (sc : SetupConfig) : Z :=
  if USE_W5 sc then 2%Z else 1%Z.

(** A 1H frame whose bars close at the prices of [wave_closes]. *)
Definition wave_bars : list Bar :=
  map (fun kc => mkBar (fst kc) (snd kc) (snd kc) (snd kc) (snd kc)
                       100 100 1 1)
      (enumerate_from 0 wave_closes).

(** The zones and targets of the "balanced" profile. *)
Definition balanced_setups : SetupConfig :=
  mkSetupConfig (0.382, 0.786) (0.236, 0.618) (0.382, 0.786) 1.272 1.618 false.

(** The pivots, impulses and corrections of the wave scenario. *)
Definition wave_pivots : list Pivot := zigzag wave_engine wave_closes wave_atr.

Definition wave_impulses : list Impulse :=
  match detect_impulses wave_engine wave_pivots wave_closes wave_atr with
  | Ok l => l
  | Raise _ => []
  end.

Definition start_le (a b : Setup) : Prop := (start_time a <= start_time b)%Z.

(* ====================================================================== *)
(** * Properties: Python primitives *)
(* ====================================================================== *)

Lemma Qleb_le (x y : Q) : (x <=? y) = true <-> x <= y.
Proof. unfold Qleb. apply Qle_bool_iff. Qed.

Lemma Qleb_gt (x y : Q) : (x <=? y) = false <-> y < x.
Proof.
  unfold Qleb. split; intros E.
  - apply Qnot_le_lt. intros Hle. apply Qle_bool_iff in Hle. congruence.
  - destruct (Qle_bool x y) eqn:B; [|reflexivity].
    apply Qle_bool_iff in B. lra.
Qed.

Lemma Qltb_lt (x y : Q) : (x <? y) = true <-> x < y.
Proof.
  unfold Qltb. rewrite negb_true_iff. apply (Qleb_gt y x).
Qed.

Lemma Qltb_ge (x y : Q) : (x <? y) = false <-> y <= x.
Proof.
  unfold Qltb. rewrite negb_false_iff. apply (Qleb_le y x).
Qed.

Lemma Qeqb_eq (x y : Q) : (x =? y) = true <-> x == y.
Proof. unfold Qeqb. apply Qeq_bool_iff. Qed.

Lemma pymax_l (a b : Q) : a <= pymax a b.
Proof.
  unfold pymax. destruct (a <? b) eqn:E; [|lra].
  apply Qltb_lt in E. lra.
Qed.

Lemma pymax_r (a b : Q) : b <= pymax a b.
Proof.
  unfold pymax. destruct (a <? b) eqn:E; [lra|].
  apply Qltb_ge in E. exact E.
Qed.

Lemma pymin_l (a b : Q) : pymin a b <= a.
Proof.
  unfold pymin. destruct (b <? a) eqn:E; [|lra].
  apply Qltb_lt in E. lra.
Qed.

Lemma pymin_r (a b : Q) : pymin a b <= b.
Proof.
  unfold pymin. destruct (b <? a) eqn:E; [lra|].
  apply Qltb_ge in E. exact E.
Qed.

Lemma pymax_lub (a b c : Q) : a <= c -> b <= c -> pymax a b <= c.
Proof. unfold pymax. destruct (a <? b); auto. Qed.

Lemma pymin_glb (a b c : Q) : c <= a -> c <= b -> c <= pymin a b.
Proof. unfold pymin. destruct (b <? a); auto. Qed.

Lemma len_nonneg {A} (l : list A) : (0 <= len l)%Z.
Proof. unfold len. lia. Qed.

Lemma py_index_nat {A} (l : list A) (i : Z) :
  (0 <= i < len l)%Z -> py_index l i = nth_error l (Z.to_nat i).
Proof.
  intros Hi. unfold py_index.
  destruct (0 <=? i)%Z eqn:E1; [|lia].
  destruct (i <? len l)%Z eqn:E2; [reflexivity|lia].
Qed.

Lemma py_index_in_range {A} (l : list A) (i : Z) :
  (0 <= i < len l)%Z -> exists x, py_index l i = Some x.
Proof.
  intros Hi. rewrite py_index_nat by exact Hi.
  destruct (nth_error l (Z.to_nat i)) eqn:E; [eauto|].
  apply nth_error_None in E. unfold len in Hi. lia.
Qed.

Lemma py_index_repeat {A} (x : A) (n : nat) (i : Z) :
  (0 <= i < Z.of_nat n)%Z -> py_index (repeat x n) i = Some x.
Proof.
  intros Hi.
  assert (Hl : len (repeat x n) = Z.of_nat n)
    by (unfold len; now rewrite repeat_length).
  rewrite py_index_nat by lia.
  destruct (nth_error (repeat x n) (Z.to_nat i)) eqn:E.
  - apply nth_error_In, repeat_spec in E. now subst.
  - apply nth_error_None in E. rewrite repeat_length in E. lia.
Qed.

Lemma py_range_cons (a b : Z) :
  (a < b)%Z -> py_range a b = a :: py_range (a + 1) b.
Proof.
  intros Hab. unfold py_range.
  replace (Z.to_nat (b - a)) with (S (Z.to_nat (b - (a + 1)))) by lia.
  cbn [seq map]. f_equal; [lia|].
  rewrite <- seq_shift, map_map. apply map_ext. intros k. lia.
Qed.

Lemma py_range_nil (a b : Z) : (b <= a)%Z -> py_range a b = [].
Proof.
  intros Hab. unfold py_range.
  replace (Z.to_nat (b - a)) with 0%nat by lia. reflexivity.
Qed.

Lemma in_py_range (a b i : Z) : In i (py_range a b) <-> (a <= i < b)%Z.
Proof.
  unfold py_range. rewrite in_map_iff. split.
  - intros [k [<- Hk]]. apply in_seq in Hk. lia.
  - intros Hi. exists (Z.to_nat (i - a)). split; [lia|].
    apply in_seq. lia.
Qed.

(* ====================================================================== *)
(** * Properties: structure engine *)
(* ====================================================================== *)

(** C8.  For all prices [A] and [B] and both directions,
    [fib_ext(A, B, direction, 1.0)] equals [B]. *)
Theorem fib_ext_identity (A B : Q) (d : Dir) : fib_ext A B d 1.0 == B.
Proof. destruct d; unfold fib_ext; ring. Qed.

(** A finite float is a zero or a finite number in the specification of
    binary64. *)
Lemma is_finite_cases (x : float) :
  is_finite x = true ->
  (exists s, Prim2SF x = S754_zero s)
  \/ (exists s m e, Prim2SF x = S754_finite s m e).
Proof.
  unfold is_finite, is_nan, is_infinity.
  rewrite !FloatAxioms.eqb_spec, FloatAxioms.abs_spec.
  destruct (Prim2SF x) as [s|s| |s m e]; cbn.
  - intros _. left. eauto.
  - destruct s; discriminate.
  - discriminate.
  - intros _. right. eauto.
Qed.

(** If the difference of two floats is finite, the minuend is. *)
Lemma minuend_finite (x y : float) :
  (exists s, Prim2SF (x - y) = S754_zero s)
  \/ (exists s m e, Prim2SF (x - y) = S754_finite s m e) ->
  (exists s, Prim2SF x = S754_zero s)
  \/ (exists s m e, Prim2SF x = S754_finite s m e).
Proof.
  rewrite FloatAxioms.sub_spec. intros Hd.
  destruct (Prim2SF x) as [sx|sx| |sx mx ex]; [left; eauto| | |right; eauto];
    exfalso;
    destruct (Prim2SF y) as [sy|sy| |sy my ey]; cbn in Hd;
    try destruct sx; try destruct sy; cbn in Hd;
    destruct Hd as [[s Hs]|[s [m [e Hs]]]]; discriminate.
Qed.

(** The identity of C8 on binary64 floats: whenever the leg is finite (as it
    is for two finite prices of the same sign), [fib_ext(A, B, d, 1.0) == B]
    holds with no rounding error. *)
Lemma fib_ext_ieee_identity (A B : float) (d : Dir) :
  is_finite (leg_ieee A B d) = true ->
  PrimFloat.eqb (fib_ext_ieee A B d 1.0) B = true.
Proof.
  intros Hleg. apply is_finite_cases in Hleg.
  assert (H0 : Prim2SF (1.0 - 1.0)%float = S754_zero false) by reflexivity.
  rewrite FloatAxioms.eqb_spec. unfold SFeqb.
  destruct d; cbn [fib_ext_ieee leg_ieee] in *.
  - rewrite FloatAxioms.add_spec, FloatAxioms.mul_spec, H0.
    pose proof (minuend_finite B A Hleg) as HB.
    destruct Hleg as [[sl ->]|[sl [ml [el ->]]]];
      destruct HB as [[sb ->]|[sb [mb [eb ->]]]]; cbn.
    + destruct sb, sl; reflexivity.
    + rewrite Z.compare_refl, Pos.compare_cont_refl. destruct sb; reflexivity.
    + destruct sb, sl; reflexivity.
    + rewrite Z.compare_refl, Pos.compare_cont_refl. destruct sb; reflexivity.
  - rewrite FloatAxioms.sub_spec, FloatAxioms.mul_spec, H0.
    assert (HB : (exists s, Prim2SF B = S754_zero s)
                 \/ (exists s m e, Prim2SF B = S754_finite s m e)).
    { rewrite FloatAxioms.sub_spec in Hleg.
      destruct (Prim2SF B) as [sb|sb| |sb mb eb]; [left; eauto| | |right; eauto];
        exfalso;
        destruct (Prim2SF A) as [sa|sa| |sa ma ea]; cbn in Hleg;
        try destruct sb; try destruct sa; cbn in Hleg;
        destruct Hleg as [[s Hs]|[s [m [e Hs]]]]; discriminate. }
    destruct Hleg as [[sl ->]|[sl [ml [el ->]]]];
      destruct HB as [[sb ->]|[sb [mb [eb ->]]]]; cbn.
    + destruct sb, sl; reflexivity.
    + rewrite Z.compare_refl, Pos.compare_cont_refl. destruct sb; reflexivity.
    + destruct sb, sl; reflexivity.
    + rewrite Z.compare_refl, Pos.compare_cont_refl. destruct sb; reflexivity.
Qed.

(** C5.  On the pivots (0,100,L) (1,110,H) (2,105,L) (3,115,H) (4,108,L)
    (5,120,H), with an ATR array that is 1.0 throughout and a minimum
    impulse-to-ATR ratio of 2.0, [detect_impulses] returns exactly one
    impulse: its direction is UP and its six points are those pivots. *)
Theorem detect_impulses_scenario
    (pct mult : Q) (closes : list Q) (n : nat) :
  (1 <= n)%nat ->
  detect_impulses (mkEngine pct mult 2.0) scenario_pivots closes
                  (repeat (Some 1.0) n)
  = Ok [mkImpulse UP scenario_pivots].
Proof.
  intros Hn.
  assert (Hl : len (repeat (Some 1.0) n) = Z.of_nat n)
    by (unfold len; now rewrite repeat_length).
  unfold detect_impulses, scenario_pivots.
  cbn [detect_impulses_from].
  unfold impulse_window. cbn [kind price idx min_imp].
  rewrite Hl, py_index_repeat by lia.
  reflexivity.
Qed.

Lemma detect_impulses_scenario_witness :
  (1 <= 6)%nat /\
  detect_impulses (mkEngine 0.003 0.8 2.0) scenario_pivots
                  [100; 110; 105; 115; 108; 120] (repeat (Some 1.0) 6)
  = Ok [mkImpulse UP scenario_pivots].
Proof.
  split; [lia|].
  apply (detect_impulses_scenario 0.003 0.8 [100; 110; 105; 115; 108; 120] 6).
  lia.
Defined.

Lemma alternates_cons (a b : Pivot) (t : list Pivot) :
  kind a <> kind b -> alternates (b :: t) -> alternates (a :: b :: t).
Proof. intros Hk Ht. cbn [alternates]. split; assumption. Qed.

Lemma alternates_tail (a : Pivot) (t : list Pivot) :
  alternates (a :: t) -> alternates t.
Proof. destruct t as [|b t]; cbn [alternates]; [trivial|intros [_ Ht]; exact Ht]. Qed.

Lemma alternates_snoc (l : list Pivot) (x : Pivot) :
  alternates l ->
  (forall q, hd_error (rev l) = Some q -> kind q <> kind x) ->
  alternates (l ++ [x]).
Proof.
  induction l as [|a t IH]; intros Hl Hq.
  - exact I.
  - destruct t as [|b t'].
    + cbn [app]. apply alternates_cons; [|exact I].
      apply Hq. reflexivity.
    + change ((a :: b :: t') ++ [x]) with (a :: b :: (t' ++ [x])).
      destruct Hl as [Hab Ht].
      apply alternates_cons; [exact Hab|].
      apply IH; [exact Ht|].
      intros q Hrev. apply Hq.
      cbn [rev] in *.
      destruct (rev t' ++ [b]) as [|y ys] eqn:E.
      * destruct (rev t'); discriminate E.
      * cbn [app hd_error] in *. exact Hrev.
Qed.

Lemma alternates_rev (l : list Pivot) : alternates l -> alternates (rev l).
Proof.
  induction l as [|a t IH]; intros Hl.
  - exact I.
  - cbn [rev]. apply alternates_snoc.
    + apply IH. eapply alternates_tail. exact Hl.
    + intros q Hq. rewrite rev_involutive in Hq.
      destruct t as [|b t']; [discriminate|].
      injection Hq as <-. destruct Hl as [Hab _]. congruence.
Qed.

Lemma Kind_eqb_eq (a b : Kind) : Kind_eqb a b = true <-> a = b.
Proof. destruct a, b; cbn; split; congruence. Qed.

(** The clean-up step keeps the accumulator alternating. *)
Lemma clean_step_alternates (acc : list Pivot) (p : Pivot) :
  alternates acc -> alternates (clean_step acc p).
Proof.
  intros Hacc. unfold clean_step.
  destruct acc as [|q rest]; [exact I|].
  destruct (Kind_eqb (kind q) (kind p)) eqn:Ek; cbn [negb].
  - apply Kind_eqb_eq in Ek.
    destruct (_ || _); [|exact Hacc].
    destruct rest as [|r rest']; [exact I|].
    destruct Hacc as [Hqr Hrest].
    apply alternates_cons; [congruence|exact Hrest].
  - apply alternates_cons; [|exact Hacc].
    intros E. rewrite E in Ek.
    assert (Kind_eqb (kind q) (kind q) = true) by (now apply Kind_eqb_eq).
    congruence.
Qed.

Lemma clean_fold_alternates (piv acc : list Pivot) :
  alternates acc -> alternates (fold_left clean_step piv acc).
Proof.
  revert acc. induction piv as [|p t IH]; intros acc Hacc.
  - exact Hacc.
  - cbn [fold_left]. apply IH, clean_step_alternates, Hacc.
Qed.

Lemma clean_alternates (piv : list Pivot) : alternates (clean piv).
Proof.
  unfold clean. apply alternates_rev, clean_fold_alternates. exact I.
Qed.

Lemma alternates_nth (l : list Pivot) (i : nat) (a b : Pivot) :
  alternates l ->
  nth_error l i = Some a -> nth_error l (S i) = Some b -> kind a <> kind b.
Proof.
  revert i. induction l as [|x t IH]; intros i Hl Ha Hb.
  - destruct i; discriminate.
  - destruct i as [|i].
    + cbn in Ha, Hb. injection Ha as <-.
      destruct t as [|y t']; [discriminate|].
      cbn in Hb. injection Hb as <-. now destruct Hl.
    + apply (IH i); [eapply alternates_tail; exact Hl| exact Ha | exact Hb].
Qed.

(** A run of [zigzag]: a 3% threshold on six closes, no ATR. *)
Example zigzag_scenario :
  zigzag (mkEngine 0.03 1 2) [100; 110; 105; 115; 108; 120] []
  = [ mkPivot 0 100 L; mkPivot 1 110 H; mkPivot 2 105 L;
      mkPivot 3 115 H; mkPivot 4 108 L ].
Proof. vm_compute. reflexivity. Qed.

(** C4.  For every close-price array and volatility array, the pivot list
    that [zigzag] returns has no two consecutive pivots of the same kind,
    and a series of fewer than 3 samples yields the empty list. *)
Theorem zigzag_alternates (e : ElliottEngine) (closes : list Q)
    (atr : list (option Q)) :
  (forall (i : nat) (a b : Pivot),
      nth_error (zigzag e closes atr) i = Some a ->
      nth_error (zigzag e closes atr) (S i) = Some b ->
      kind a <> kind b)
  /\ ((length closes < 3)%nat -> zigzag e closes atr = []).
Proof.
  split.
  - intros i a b. apply alternates_nth.
    unfold zigzag. destruct (len closes <? 3)%Z; [exact I|].
    destruct closes as [|c0 rest]; [exact I|].
    apply clean_alternates.
  - intros Hlen. unfold zigzag.
    destruct (len closes <? 3)%Z eqn:E; [reflexivity|].
    unfold len in E. lia.
Qed.

(* ====================================================================== *)
(** * Properties: trade simulator *)
(* ====================================================================== *)

Lemma promote_be_protects (d : Dir) (entry R : Q) (s : SimState) :
  Forall (protects d entry) (snd (promote_be d entry R s)).
Proof.
  unfold promote_be. destruct (_ && _); cbn [snd]; [|constructor].
  constructor; [|constructor].
  destruct d; cbn [protects written]; [apply pymax_r | apply pymin_r].
Qed.

Lemma take_tp1_protects (d : Dir) (entry tp1 : Q) (r : Bar) (s : SimState) :
  Forall (protects d entry) (snd (take_tp1 d entry tp1 r s)).
Proof.
  unfold take_tp1. destruct (_ && _); cbn [snd]; [|constructor].
  constructor; [|constructor].
  destruct d; cbn [protects written]; lra.
Qed.

(** Every value the loop writes to [stop] is on the safe side of entry. *)
Lemma sim_loop_protects (df : list Bar) (d : Dir) (entry R tp1 tp2 : Q)
    (ixs : list Z) (s : SimState) :
  Forall (protects d entry) (fst (sim_loop df d entry R tp1 tp2 ixs s)).
Proof.
  revert s. induction ixs as [|i rest IH]; intros s; cbn [sim_loop].
  - constructor.
  - destruct (py_index df i) as [r|]; [|constructor].
    destruct (R =? 0); [constructor|].
    pose proof (promote_be_protects d entry R (track d entry R r s)) as H2.
    destruct (promote_be d entry R (track d entry R r s)) as [s2 w2].
    pose proof (take_tp1_protects d entry tp1 r s2) as H3.
    destruct (take_tp1 d entry tp1 r s2) as [s3 w3].
    cbn [snd] in H2, H3.
    destruct (try_exit d entry tp2 i r s3) as [out|].
    + cbn [fst]. apply Forall_app. split; assumption.
    + specialize (IH s3).
      destruct (sim_loop df d entry R tp1 tp2 rest s3) as [ws o].
      cbn [fst] in *. rewrite !Forall_app. repeat split; assumption.
Qed.

Lemma stop_writes_protect (df : list Bar) (entry_i : Z) (entry : Q) (d : Dir)
    (stop0 tp1 tp2 : Q) (max_bars : Z) :
  Forall (protects d entry)
         (stop_writes df entry_i entry d stop0 tp1 tp2 max_bars).
Proof.
  unfold stop_writes, simulate_log.
  match goal with
  | |- context [sim_loop ?a ?b ?c ?e ?f ?g ?h ?k] =>
      pose proof (sim_loop_protects a b c e f g h k) as Hp;
      destruct (sim_loop a b c e f g h k) as [ws o]
  end.
  exact Hp.
Qed.

(** C3.  In one run of [simulate] for a long trade, once the break-even
    promotion has written the stop, neither that value nor any value the
    stop takes afterwards is below the entry price; for a short trade,
    none is above it. *)
Theorem break_even_monotone (df : list Bar) (entry_i : Z) (entry : Q)
    (d : Dir) (stop0 tp1 tp2 : Q) (max_bars : Z)
    (before after : list StopWrite) (v : Q) :
  stop_writes df entry_i entry d stop0 tp1 tp2 max_bars
    = before ++ BreakEven v :: after ->
  match d with
  | UP => entry <= v /\ Forall (fun w => entry <= written w) after
  | DOWN => v <= entry /\ Forall (fun w => written w <= entry) after
  end.
Proof.
  intros Hlog.
  pose proof (stop_writes_protect df entry_i entry d stop0 tp1 tp2 max_bars) as Hp.
  rewrite Hlog in Hp. apply Forall_app in Hp. destruct Hp as [_ Hp].
  inversion Hp as [|w ws Hv Hafter]; subst.
  destruct d; cbn [protects written] in *; split; assumption.
Qed.

Lemma break_even_monotone_witness :
  stop_writes be_bars 0 100 UP 95 110 115 10
    = [] ++ BreakEven 100 :: [BreakEven 100; RiskFree 100]
  /\ (100 <= 100 /\ Forall (fun w => 100 <= written w)
                           [BreakEven 100; RiskFree 100]).
Proof.
  assert (Hlog : stop_writes be_bars 0 100 UP 95 110 115 10
                 = [] ++ BreakEven 100 :: [BreakEven 100; RiskFree 100])
    by (vm_compute; reflexivity).
  split; [exact Hlog|].
  exact (break_even_monotone be_bars 0 100 UP 95 110 115 10 []
           [BreakEven 100; RiskFree 100] 100 Hlog).
Defined.

Lemma track_signed (d : Dir) (entry R : Q) (r : Bar) (s : SimState) :
  excursions_signed (mae s) (mfe s) ->
  excursions_signed (mae (track d entry R r s)) (mfe (track d entry R r s)).
Proof.
  intros [Hae Hfe]. unfold excursions_signed.
  destruct d; cbn [track mae mfe]; split.
  - eapply Qle_trans; [apply pymin_l|exact Hae].
  - eapply Qle_trans; [exact Hfe|apply pymax_l].
  - eapply Qle_trans; [apply pymin_l|exact Hae].
  - eapply Qle_trans; [exact Hfe|apply pymax_l].
Qed.

Lemma promote_be_excursions (d : Dir) (entry R : Q) (s : SimState) :
  mae (fst (promote_be d entry R s)) = mae s
  /\ mfe (fst (promote_be d entry R s)) = mfe s.
Proof. unfold promote_be. destruct (_ && _); cbn; split; reflexivity. Qed.

Lemma take_tp1_excursions (d : Dir) (entry tp1 : Q) (r : Bar) (s : SimState) :
  mae (fst (take_tp1 d entry tp1 r s)) = mae s
  /\ mfe (fst (take_tp1 d entry tp1 r s)) = mfe s.
Proof. unfold take_tp1. destruct (_ && _); cbn; split; reflexivity. Qed.

Lemma try_exit_excursions (d : Dir) (entry tp2 : Q) (i : Z) (r : Bar)
    (s : SimState) (out : SimResult) :
  try_exit d entry tp2 i r s = Some out ->
  x_idx out = i /\ mae_R out = mae s /\ mfe_R out = mfe s.
Proof.
  unfold try_exit. intros Hex.
  destruct d.
  - destruct (low r <=? stop s);
      [|destruct ((pos s =? 0.5) && (tp2 <=? high r)); [|discriminate]];
      injection Hex as <-; repeat split; reflexivity.
  - destruct (stop s <=? high r);
      [|destruct ((pos s =? 0.5) && (low r <=? tp2)); [|discriminate]];
      injection Hex as <-; repeat split; reflexivity.
Qed.

(** With a non-zero [R] and indices inside the frame the bar loop does not
    raise, it keeps MAE at or below zero and MFE at or above zero, and an
    exit inside the loop is at one of its indices. *)
Lemma sim_loop_signed (df : list Bar) (d : Dir) (entry R tp1 tp2 : Q)
    (ixs : list Z) (s : SimState) :
  (R =? 0) = false ->
  (forall i, In i ixs -> (0 <= i < len df)%Z) ->
  excursions_signed (mae s) (mfe s) ->
  exists e, snd (sim_loop df d entry R tp1 tp2 ixs s) = Ok e
            /\ match e with
               | Exhausted s' => excursions_signed (mae s') (mfe s')
               | Returned out =>
                   In (x_idx out) ixs
                   /\ excursions_signed (mae_R out) (mfe_R out)
               end.
Proof.
  intros HR. revert s.
  induction ixs as [|i rest IH]; intros s Hix Hs; cbn [sim_loop].
  - exists (Exhausted s). split; [reflexivity|exact Hs].
  - destruct (py_index_in_range df i) as [r Hr]; [apply Hix; now left|].
    rewrite Hr, HR.
    pose proof (track_signed d entry R r s Hs) as H1.
    pose proof (promote_be_excursions d entry R (track d entry R r s)) as [A2 F2].
    destruct (promote_be d entry R (track d entry R r s)) as [s2 w2].
    pose proof (take_tp1_excursions d entry tp1 r s2) as [A3 F3].
    destruct (take_tp1 d entry tp1 r s2) as [s3 w3].
    cbn [fst] in A2, F2, A3, F3.
    assert (H3 : excursions_signed (mae s3) (mfe s3))
      by (rewrite A3, F3, A2, F2; exact H1).
    destruct (try_exit d entry tp2 i r s3) as [out|] eqn:Ex.
    + exists (Returned out). split; [reflexivity|].
      apply try_exit_excursions in Ex. destruct Ex as [-> [-> ->]].
      split; [now left|exact H3].
    + destruct (IH s3) as [e [He Hsig]];
        [intros k Hk; apply Hix; now right|exact H3|].
      destruct (sim_loop df d entry R tp1 tp2 rest s3) as [ws o].
      exists e. split; [exact He|].
      destruct e as [s'|out]; [exact Hsig|].
      destruct Hsig as [Hin Hsig]. split; [now right|exact Hsig].
Qed.

Lemma Qabs_eqb_zero (x : Q) : ~ x == 0 -> (Qabs x =? 0) = false.
Proof.
  intros Hx. destruct (Qabs x =? 0) eqn:E; [|reflexivity].
  apply Qeqb_eq in E. exfalso. apply Hx.
  revert E. apply Qabs_case; intros; lra.
Qed.

(** When the entry price differs from the stop, the entry index lies
    inside the frame and the hold count is not negative, [simulate] returns
    a result: its exit index lies inside the frame, its MAE is at most zero
    and its MFE at least zero. *)
Lemma simulate_returns (df : list Bar) (entry_i : Z) (entry : Q)
    (d : Dir) (stop0 tp1 tp2 : Q) (max_bars : Z) :
  ~ entry == stop0 ->
  (0 <= entry_i < len df)%Z ->
  (0 <= max_bars)%Z ->
  exists out,
    simulate df entry_i entry d stop0 tp1 tp2 max_bars = Ok out
    /\ (0 <= x_idx out < len df)%Z
    /\ excursions_signed (mae_R out) (mfe_R out).
Proof.
  intros Hne Hi Hm.
  assert (HR : (Qabs (entry - stop0) =? 0) = false)
    by (apply Qabs_eqb_zero; lra).
  unfold simulate, simulate_log.
  set (end_ := Z.min (entry_i + max_bars) (len df - 1)).
  assert (Hend : (0 <= end_ < len df)%Z) by (unfold end_; lia).
  destruct (sim_loop_signed df d entry (Qabs (entry - stop0)) tp1 tp2
              (py_range (entry_i + 1) (end_ + 1))
              (mkSim 1.0 0.0 stop0 entry 0.0 0.0) HR)
    as [e [He Hsig]].
  - intros i Hin. apply in_py_range in Hin. lia.
  - split; cbn [mae mfe]; lra.
  - destruct (sim_loop df d entry (Qabs (entry - stop0)) tp1 tp2
                (py_range (entry_i + 1) (end_ + 1))
                (mkSim 1.0 0.0 stop0 entry 0.0 0.0)) as [ws o].
    cbn [snd] in He |- *. subst o. cbn [bind].
    destruct e as [s'|out].
    + unfold force_close.
      destruct (py_index_in_range df end_ Hend) as [rl Hrl].
      rewrite Hrl. cbn [lift_index bind]. rewrite HR.
      destruct Hsig as [Hae Hfe].
      destruct d; eexists; (split; [reflexivity|]); cbn [x_idx mae_R mfe_R];
        (split; [exact Hend|]);
        (split; [exact Hae|eapply Qle_trans; [exact Hfe|apply pymax_l]]).
    + exists out. destruct Hsig as [Hin Hsig].
      apply in_py_range in Hin.
      split; [reflexivity|]. split; [lia|exact Hsig].
Qed.

(** C9 (amended).  When the entry price differs from the stop, the entry
    index lies inside the frame and the hold count is not negative,
    [simulate] returns, and it returns MAE_R <= 0 and MFE_R >= 0. *)
Theorem simulate_excursions_signed (df : list Bar) (entry_i : Z) (entry : Q)
    (d : Dir) (stop0 tp1 tp2 : Q) (max_bars : Z) :
  ~ entry == stop0 ->
  (0 <= entry_i < len df)%Z ->
  (0 <= max_bars)%Z ->
  exists out,
    simulate df entry_i entry d stop0 tp1 tp2 max_bars = Ok out
    /\ mae_R out <= 0 /\ 0 <= mfe_R out.
Proof.
  intros Hne Hi Hm.
  destruct (simulate_returns df entry_i entry d stop0 tp1 tp2 max_bars
              Hne Hi Hm) as [out [Hout [_ [Hae Hfe]]]].
  exists out. repeat split; assumption.
Qed.

Lemma simulate_excursions_signed_witness :
  ~ 100 == 95 /\ (0 <= 0 < len be_bars)%Z /\ (0 <= 10)%Z
  /\ exists out,
       simulate be_bars 0 100 UP 95 110 115 10 = Ok out
       /\ mae_R out <= 0 /\ 0 <= mfe_R out.
Proof.
  assert (H1 : ~ 100 == 95) by (intros E; vm_compute in E; discriminate E).
  assert (H2 : (0 <= 0 < len be_bars)%Z) by (vm_compute; split; congruence).
  assert (H3 : (0 <= 10)%Z) by lia.
  split; [exact H1|]. split; [exact H2|]. split; [exact H3|].
  exact (simulate_excursions_signed be_bars 0 100 UP 95 110 115 10 H1 H2 H3).
Defined.

(** C9 as stated fails: with the stop at the entry price [R] is zero and
    the first excursion update divides by it, so [simulate] raises instead
    of returning. *)
Lemma simulate_zero_risk_raises :
  simulate be_bars 0 100 UP 100 110 115 10 = Raise ZeroDivisionError
  /\ ~ (exists out,
          simulate be_bars 0 100 UP 100 110 115 10 = Ok out
          /\ mae_R out <= 0 /\ 0 <= mfe_R out).
Proof.
  assert (Hraise : simulate be_bars 0 100 UP 100 110 115 10
                   = Raise ZeroDivisionError)
    by (vm_compute; reflexivity).
  split; [exact Hraise|].
  intros [out [Hout _]]. rewrite Hraise in Hout. discriminate Hout.
Qed.

(** The full-hold scenario of the specification: entry at 100, stop 95,
    targets 110 and 115, ten bars between 96 and 104 closing at 103. *)
Example full_hold_exit :
  exists out,
    simulate hold_bars 0 100 UP 95 110 115 10 = Ok out
    /\ x_idx out = 10%Z /\ x_price out == 103 /\ ps out == 3
    /\ mfe_R out == 0.8 /\ mae_R out == - 0.8.
Proof.
  eexists. split; [vm_compute; reflexivity|].
  cbn [x_idx x_price ps mfe_R mae_R].
  repeat split; reflexivity.
Qed.

(* ====================================================================== *)
(** * Properties: entry confirmation *)
(* ====================================================================== *)

(** The scan of the confirmation window returns the first candidate that
    passes the test against the given extremes; every candidate before it,
    and every candidate when it returns nothing, fails that same test. *)
Lemma confirm_scan_first (cfg : Config) (df : list Bar) (d : Dir) (pb : Bar)
    (b : Z) (n : nat) :
  forall (a : Z) (res : option Z),
    Z.to_nat (b - a) = n ->
    confirm_scan cfg df d (high pb) (low pb) (py_range a b) = Ok res ->
    match res with
    | Some i =>
        (a <= i < b)%Z
        /\ verdict_against cfg df d pb i true
        /\ forall j, (a <= j < i)%Z -> verdict_against cfg df d pb j false
    | None =>
        forall j, (a <= j < b)%Z -> verdict_against cfg df d pb j false
    end.
Proof.
  induction n as [|n IH]; intros a res Hn Hscan.
  - rewrite py_range_nil in Hscan by lia.
    cbn in Hscan. injection Hscan as <-. intros j Hj. lia.
  - rewrite py_range_cons in Hscan by lia.
    cbn [confirm_scan] in Hscan.
    destruct (py_index df a) as [r|] eqn:Hr; [|discriminate Hscan].
    cbn [lift_index bind] in Hscan.
    destruct (bar_confirms cfg d (high pb) (low pb) r) eqn:Hc.
    + injection Hscan as <-.
      split; [lia|]. split; [exists r; split; assumption|].
      intros j Hj. lia.
    + assert (Ha : verdict_against cfg df d pb a false)
        by (exists r; split; assumption).
      specialize (IH (a + 1)%Z res ltac:(lia) Hscan).
      destruct res as [i|].
      * destruct IH as [Hi [Hci Hbefore]].
        split; [lia|]. split; [exact Hci|].
        intros j Hj. destruct (Z.eq_dec j a) as [->|Hja]; [exact Ha|].
        apply Hbefore. lia.
      * intros j Hj. destruct (Z.eq_dec j a) as [->|Hja]; [exact Ha|].
        apply IH. lia.
Qed.

(** C10.  With confirmation required, [confirm_idx] tests every candidate
    bar of the window against the high and low of one bar, the bar at
    [max(0, touch_i - 1)]: the index it returns is the first candidate that
    passes the test against that bar and all candidates before it fail the
    test against that same bar; when it falls back to the end of the window
    or returns nothing, all candidates of the window fail it. *)
Theorem confirm_idx_fixed_reference (cfg : Config) (df : list Bar)
    (touch_i : Z) (d : Dir) (bars : Z) (allow_touch : bool)
    (pb : Bar) (res : option Z) :
  REQUIRE_CONFIRM cfg = true ->
  py_index df (Z.max 0 (touch_i - 1)) = Some pb ->
  confirm_idx cfg df touch_i d bars allow_touch = Ok res ->
  let end_ := Z.min (touch_i + bars) (len df - 1) in
  match res with
  | Some i =>
      ((touch_i <= i <= end_)%Z
       /\ verdict_against cfg df d pb i true
       /\ forall j, (touch_i <= j < i)%Z -> verdict_against cfg df d pb j false)
      \/ (allow_touch = true /\ i = end_
          /\ forall j, (touch_i <= j <= end_)%Z ->
                       verdict_against cfg df d pb j false)
  | None =>
      allow_touch = false
      /\ forall j, (touch_i <= j <= end_)%Z -> verdict_against cfg df d pb j false
  end.
Proof.
  intros Hreq Hpb Hres end_.
  unfold confirm_idx in Hres. rewrite Hreq, Hpb in Hres.
  cbn [negb lift_index bind] in Hres. fold end_ in Hres.
  destruct (confirm_scan cfg df d (high pb) (low pb)
              (py_range touch_i (end_ + 1))) as [found|e] eqn:Hscan;
    [|discriminate Hres].
  cbn [bind] in Hres.
  pose proof (confirm_scan_first cfg df d pb (end_ + 1) _ touch_i found
                eq_refl Hscan) as Hfirst.
  destruct found as [i|].
  - injection Hres as <-. left.
    destruct Hfirst as [Hi [Hc Hb]].
    split; [lia|]. split; assumption.
  - assert (Hall : forall j, (touch_i <= j <= end_)%Z ->
                             verdict_against cfg df d pb j false)
      by (intros j Hj; apply Hfirst; lia).
    destruct allow_touch; injection Hres as <-.
    + right. repeat split; [exact Hall].
    + split; [reflexivity|exact Hall].
Qed.

Lemma confirm_idx_fixed_reference_witness :
  REQUIRE_CONFIRM break_only = true
  /\ py_index confirm_bars (Z.max 0 (1 - 1)) = Some (mkBar 0 108 110 107 109 100 100 1 1)
  /\ confirm_idx break_only confirm_bars 1 UP 1 false = Ok None
  /\ (false = false
      /\ forall j, (1 <= j <= Z.min (1 + 1) (len confirm_bars - 1))%Z ->
                   verdict_against break_only confirm_bars UP
                     (mkBar 0 108 110 107 109 100 100 1 1) j false).
Proof.
  assert (H1 : REQUIRE_CONFIRM break_only = true) by reflexivity.
  assert (H2 : py_index confirm_bars (Z.max 0 (1 - 1))
               = Some (mkBar 0 108 110 107 109 100 100 1 1)) by reflexivity.
  assert (H3 : confirm_idx break_only confirm_bars 1 UP 1 false = Ok None)
    by (vm_compute; reflexivity).
  split; [exact H1|]. split; [exact H2|]. split; [exact H3|].
  exact (confirm_idx_fixed_reference break_only confirm_bars 1 UP 1 false
           (mkBar 0 108 110 107 109 100 100 1 1) None H1 H2 H3).
Defined.

Lemma bar_confirms_ignores_extremes (cfg : Config) (d : Dir) (ph pl : Q)
    (r r' : Bar) :
  same_but_extremes r r' ->
  bar_confirms cfg d ph pl r = bar_confirms cfg d ph pl r'.
Proof.
  intros [_ [_ [Hc [Hf [Hs _]]]]]. unfold bar_confirms.
  rewrite Hc, Hf, Hs. reflexivity.
Qed.

Lemma Forall2_py_index {A B} (P : A -> B -> Prop) (l : list A) (l' : list B)
    (i : Z) :
  Forall2 P l l' ->
  match py_index l i, py_index l' i with
  | Some x, Some y => P x y
  | None, None => True
  | _, _ => False
  end.
Proof.
  intros HF.
  assert (Hlen : len l = len l')
    by (unfold len; now rewrite (Forall2_length HF)).
  assert (Hnth : forall k, match nth_error l k, nth_error l' k with
                           | Some x, Some y => P x y
                           | None, None => True
                           | _, _ => False
                           end).
  { clear Hlen. induction HF as [|x y t t' Hxy Ht IH]; intros k.
    - destruct k; exact I.
    - destruct k as [|k]; cbn [nth_error]; [exact Hxy|apply IH]. }
  unfold py_index. rewrite <- Hlen.
  destruct ((0 <=? i)%Z && (i <? len l)%Z); [apply Hnth|].
  destruct ((- len l <=? i)%Z && (i <? 0)%Z); [apply Hnth|exact I].
Qed.

Lemma confirm_scan_ignores_extremes (cfg : Config) (df df' : list Bar)
    (d : Dir) (ph pl : Q) (ixs : list Z) :
  Forall2 same_but_extremes df df' ->
  confirm_scan cfg df d ph pl ixs = confirm_scan cfg df' d ph pl ixs.
Proof.
  intros HF. induction ixs as [|i rest IH]; cbn [confirm_scan]; [reflexivity|].
  pose proof (Forall2_py_index same_but_extremes df df' i HF) as Hi.
  destruct (py_index df i) as [r|], (py_index df' i) as [r'|];
    try contradiction; cbn [lift_index bind]; [|reflexivity].
  rewrite (bar_confirms_ignores_extremes cfg d ph pl r r' Hi), IH.
  reflexivity.
Qed.

(** The highs and lows of the frame reach [confirm_idx] through the
    reference bar only: two frames that differ in highs and lows alone, and
    agree on those of the bar at [max(0, touch_i - 1)], give the same
    answer. *)
Lemma confirm_idx_reads_one_bar (cfg : Config) (df df' : list Bar)
    (touch_i : Z) (d : Dir) (bars : Z) (allow_touch : bool) :
  Forall2 same_but_extremes df df' ->
  (forall pb pb',
      py_index df (Z.max 0 (touch_i - 1)) = Some pb ->
      py_index df' (Z.max 0 (touch_i - 1)) = Some pb' ->
      high pb = high pb' /\ low pb = low pb') ->
  confirm_idx cfg df touch_i d bars allow_touch
  = confirm_idx cfg df' touch_i d bars allow_touch.
Proof.
  intros HF Href. unfold confirm_idx.
  destruct (negb (REQUIRE_CONFIRM cfg)); [reflexivity|].
  assert (Hlen : len df = len df')
    by (unfold len; now rewrite (Forall2_length HF)).
  rewrite <- Hlen.
  pose proof (Forall2_py_index same_but_extremes df df'
                (Z.max 0 (touch_i - 1)) HF) as Hpb.
  destruct (py_index df (Z.max 0 (touch_i - 1))) as [pb|],
           (py_index df' (Z.max 0 (touch_i - 1))) as [pb'|];
    try contradiction; cbn [lift_index bind]; [|reflexivity].
  destruct (Href pb pb' eq_refl eq_refl) as [-> ->].
  rewrite (confirm_scan_ignores_extremes cfg df df' d (high pb') (low pb') _ HF).
  reflexivity.
Qed.

(* ====================================================================== *)
(** * Properties: candidate simulation *)
(* ====================================================================== *)

Lemma py_index_Some_lt {A} (l : list A) (i : Z) (x : A) :
  (0 <= i)%Z -> py_index l i = Some x -> (i < len l)%Z.
Proof.
  intros Hi. unfold py_index.
  destruct (0 <=? i)%Z eqn:E1; [|lia].
  destruct (i <? len l)%Z eqn:E2; [lia|].
  cbn [andb].
  destruct (- len l <=? i)%Z, (i <? 0)%Z eqn:E3; cbn [andb];
    try discriminate; lia.
Qed.

Lemma app_one_neq {A} (l : list A) (x : A) : l ++ [x] <> l.
Proof.
  intros E. apply (f_equal (@length A)) in E.
  rewrite length_app in E. cbn in E. lia.
Qed.

(** C6 (amended).  A confirmed entry (an index of the frame, under hold
    counts that are not negative) is discarded before simulation if and
    only if its risk per share |entry - stop| is at most 1e-9; the discard
    raises no exception, and an entry that is not discarded is simulated
    and appended to the candidates with that risk per share. *)
Theorem enter_discards_iff {X : External} (cfg : Config) (df : list Bar)
    (sp : Setup) (e_idx : Z) (st : Candidates) (r : Bar) :
  (0 <= MAX_HOLD_H1 cfg)%Z ->
  (0 <= MAX_HOLD_M30 cfg)%Z ->
  (0 <= e_idx)%Z ->
  py_index df e_idx = Some r ->
  exists st',
    enter cfg df sp e_idx st = Ok st'
    /\ (sim_trades st' = sim_trades st
        <-> Qabs (close r - entry_stop cfg sp r) <= 1e-9)
    /\ (1e-9 < Qabs (close r - entry_stop cfg sp r) ->
        exists t,
          sim_trades st' = sim_trades st ++ [t]
          /\ sim_entry_idx t = e_idx
          /\ risk_per_share t = Qabs (close r - entry_stop cfg sp r)).
Proof.
  intros Hh1 Hm30 Hi Hr.
  pose proof (py_index_Some_lt df e_idx r Hi Hr) as Hlt.
  unfold enter. rewrite Hr. cbn [lift_index bind].
  set (stop0 := entry_stop cfg sp r).
  set (rps := Qabs (close r - stop0)).
  destruct (rps <=? 1e-9) eqn:Erps.
  - apply Qleb_le in Erps.
    exists st. split; [reflexivity|]. split.
    + split; [intros _; exact Erps|reflexivity].
    + intros Hgt. lra.
  - apply Qleb_gt in Erps.
    assert (Hne : ~ close r == stop0).
    { intros E. unfold rps in Erps.
      assert (E0 : close r - stop0 == 0) by lra.
      rewrite E0 in Erps. vm_compute in Erps. discriminate Erps. }
    assert (Hhold : (0 <= match entry_tf sp with
                          | TF_30m => MAX_HOLD_M30 cfg
                          | TF_1h => MAX_HOLD_H1 cfg
                          end)%Z) by (destruct (entry_tf sp); assumption).
    destruct (simulate_returns df e_idx (close r) (sp_direction sp) stop0
                (sp_tp1 sp) (sp_tp2 sp) _ Hne (conj Hi Hlt) Hhold)
      as [out [Hout [Hx _]]].
    rewrite Hout. cbn [bind].
    destruct (py_index_in_range df (x_idx out) Hx) as [rx Hrx].
    rewrite Hrx. cbn [lift_index bind].
    eexists. split; [reflexivity|]. cbn [sim_trades]. split.
    + split.
      * intros E. exfalso. exact (app_one_neq _ _ E).
      * intros Hle. lra.
    + intros _. eexists. split; [reflexivity|].
      cbn [sim_entry_idx risk_per_share]. split; reflexivity.
Qed.

Lemma enter_discards_iff_witness :
  (0 <= MAX_HOLD_H1 balanced)%Z
  /\ (0 <= MAX_HOLD_M30 balanced)%Z
  /\ (0 <= 0)%Z
  /\ py_index be_bars 0 = Some (mkBar 0 100 100 100 100 100 100 1 1)
  /\ exists st',
       @enter no_learning balanced be_bars be_setup 0 fresh_candidates = Ok st'
       /\ (sim_trades st' = sim_trades fresh_candidates
           <-> Qabs (100 - (95 - 0.25 * 1)) <= 1e-9)
       /\ (1e-9 < Qabs (100 - (95 - 0.25 * 1)) ->
           exists t,
             sim_trades st' = sim_trades fresh_candidates ++ [t]
             /\ sim_entry_idx t = 0%Z
             /\ risk_per_share t = Qabs (100 - (95 - 0.25 * 1))).
Proof.
  assert (H1 : (0 <= MAX_HOLD_H1 balanced)%Z) by (cbn; lia).
  assert (H2 : (0 <= MAX_HOLD_M30 balanced)%Z) by (cbn; lia).
  assert (H3 : (0 <= 0)%Z) by lia.
  assert (H4 : py_index be_bars 0 = Some (mkBar 0 100 100 100 100 100 100 1 1))
    by reflexivity.
  split; [exact H1|]. split; [exact H2|]. split; [exact H3|].
  split; [exact H4|].
  exact (@enter_discards_iff no_learning balanced be_bars be_setup 0
           fresh_candidates (mkBar 0 100 100 100 100 100 100 1 1)
           H1 H2 H3 H4).
Defined.

(** C6 as stated fails: an entry whose risk per share is positive, but not
    above 1e-9, is discarded; and the discard leaves every telemetry
    counter as it was. *)
Lemma enter_discards_positive_risk :
  0 < Qabs (100 - entry_stop balanced tight_setup
                    (mkBar 0 100 100 100 100 100 100 0 1))
  /\ py_index tight_bars 0 = Some (mkBar 0 100 100 100 100 100 100 0 1)
  /\ @enter no_learning balanced tight_bars tight_setup 0 fresh_candidates
     = Ok fresh_candidates.
Proof.
  split; [vm_compute; reflexivity|].
  split; vm_compute; reflexivity.
Qed.

(* ====================================================================== *)
(** * Properties: classifier gate *)
(* ====================================================================== *)

Lemma fold_left_ext {A B} (f g : A -> B -> A) (l : list B) (a : A) :
  (forall x y, f x y = g x y) -> fold_left f l a = fold_left g l a.
Proof.
  intros Hfg. revert a. induction l as [|y t IH]; intros a; cbn.
  - reflexivity.
  - rewrite Hfg. apply IH.
Qed.

Section FailOpen.

Context {X : External}.

(** Below the minimum training size the classifier stage leaves no model. *)
Lemma train_gate_small (cfg : Config) (train_until : Z)
    (sims : list (SimTrade Features)) :
  (len (train_set train_until sims) < 20)%Z ->
  train_gate cfg train_until sims = mkGate None 0.5.
Proof.
  intros Hsmall. unfold train_gate.
  destruct (USE_ML cfg); [|reflexivity].
  destruct (20 <=? len (train_set train_until sims))%Z eqn:E; [lia|reflexivity].
Qed.

(** Without a model every candidate goes to [add], with no probability. *)
Lemma gate_verdict_no_model (thr : Q) (train_until : Z)
    (sim : SimTrade Features) :
  gate_verdict (mkGate None thr) train_until sim = Some None.
Proof.
  unfold gate_verdict. cbn [model].
  destruct (time_in sim <=? train_until)%Z; reflexivity.
Qed.

Lemma account_all_no_model (cfg : Config) (h1 : list Bar) (thr : Q)
    (train_until : Z) (sims : list (SimTrade Features)) (a0 : Account) :
  account_all cfg h1 (mkGate None thr) train_until sims a0
  = account_ungated cfg h1 thr sims a0.
Proof.
  unfold account_all, account_ungated. apply fold_left_ext.
  intros acc sim. destruct acc as [a|e]; cbn [bind]; [|reflexivity].
  unfold account_one. rewrite gate_verdict_no_model. reflexivity.
Qed.

(** C7.  If the training set of the chronological split holds fewer than 20
    candidates, no classifier is trained, and every candidate, of the
    training period and out of sample alike, goes to equity accounting
    without a probability gate: the run is the ungated accounting of all
    candidates in order. *)
Theorem fail_open (cfg : Config) (h1 : list Bar)
    (sims : list (SimTrade Features)) (train_until : Z) :
  sims <> [] ->
  split_time cfg sims = Ok train_until ->
  (len (train_set train_until sims) < 20)%Z ->
  model (train_gate cfg train_until sims) = None
  /\ (forall sim,
         gate_verdict (train_gate cfg train_until sims) train_until sim
         = Some None)
  /\ run cfg h1 sims
     = (a <- account_ungated cfg h1 0.5 sims (initial_account cfg) ;;
        Ok (Some (mkLedger (mkGate None 0.5) a
                           (equity_curve cfg h1 (eq_map a))))).
Proof.
  intros Hne Hsplit Hsmall.
  rewrite (train_gate_small cfg train_until sims Hsmall).
  split; [reflexivity|]. split; [intros sim; apply gate_verdict_no_model|].
  unfold run. destruct sims as [|s0 rest]; [congruence|].
  rewrite Hsplit. cbn [bind].
  rewrite (train_gate_small cfg train_until (s0 :: rest) Hsmall).
  unfold build_equity, relax_gate. cbn [model bind].
  rewrite account_all_no_model.
  destruct (account_ungated cfg h1 0.5 (s0 :: rest) (initial_account cfg));
    reflexivity.
Qed.

End FailOpen.

Lemma fail_open_witness :
  seventeen <> []
  /\ @split_time no_learning balanced seventeen = Ok 10%Z
  /\ (len (@train_set no_learning 10 seventeen) < 20)%Z
  /\ (model (@train_gate no_learning balanced 10 seventeen) = None
      /\ (forall sim,
             @gate_verdict no_learning
               (@train_gate no_learning balanced 10 seventeen) 10 sim
             = Some None)
      /\ @run no_learning balanced be_bars seventeen
         = (a <- @account_ungated no_learning balanced be_bars 0.5 seventeen
                   (initial_account balanced) ;;
            Ok (Some (@mkLedger no_learning (@mkGate no_learning None 0.5) a
                                (equity_curve balanced be_bars (eq_map a)))))).
Proof.
  assert (H1 : seventeen <> []) by (vm_compute; discriminate).
  assert (H2 : @split_time no_learning balanced seventeen = Ok 10%Z)
    by (vm_compute; reflexivity).
  assert (H3 : (len (@train_set no_learning 10 seventeen) < 20)%Z)
    by (vm_compute; reflexivity).
  split; [exact H1|]. split; [exact H2|]. split; [exact H3|].
  exact (@fail_open no_learning balanced be_bars seventeen 10 H1 H2 H3).
Defined.

(* ====================================================================== *)
(** * Properties: risk sizing *)
(* ====================================================================== *)

(** The clamp of [add] keeps [eff_risk] inside a configured band. *)
Lemma eff_risk_clamped {X : External} (cfg : Config) (a : Account) (lo hi : Q) :
  RISK_PER_TRADE_MIN cfg = Some lo ->
  RISK_PER_TRADE_MAX cfg = Some hi ->
  lo <= hi ->
  lo <= eff_risk cfg a <= hi.
Proof.
  intros Hlo Hhi Hband. unfold eff_risk. rewrite Hlo, Hhi. cbn [get].
  split.
  - apply pymax_l.
  - apply pymax_lub; [exact Hband|apply pymin_r].
Qed.

(** C1 (amended).  With both bounds configured and MIN <= MAX, every trade
    that [add] books is sized from a risk fraction [eff] inside
    [[RISK_PER_TRADE_MIN, RISK_PER_TRADE_MAX]]: the clamp applies to the base
    risk times the drawdown and volatility multipliers, and the size is
    [int(max(1, eff * cap / max(risk_per_share, 1e-9) * short factor *
    probability scale))]; a trade the hard drawdown stop refuses is not
    booked. *)
Theorem add_sizes_from_clamped_risk {X : External} (cfg : Config)
    (h1 : list Bar) (thr : Q) (a a' : Account) (sim : SimTrade Features)
    (p : option Q) (lo hi : Q) :
  RISK_PER_TRADE_MIN cfg = Some lo ->
  RISK_PER_TRADE_MAX cfg = Some hi ->
  lo <= hi ->
  add cfg h1 thr a sim p = Ok a' ->
  trades a' = trades a
  \/ exists (eff : Q) (t : Trade),
       lo <= eff <= hi
       /\ trades a' = trades a ++ [t]
       /\ size t
          = py_int (pymax 1 (eff * cap a / pymax (risk_per_share sim) 1e-9
                             * short_factor cfg (sim_direction sim)
                             * prob_scale cfg thr p)).
Proof.
  intros Hlo Hhi Hband Hadd. unfold add in Hadd.
  destruct (hard_stopped cfg a).
  - injection Hadd as <-. left. reflexivity.
  - destruct (map_time h1 (time_out sim)) as [mt|e]; [|discriminate Hadd].
    cbn [bind] in Hadd. injection Hadd as <-. right.
    exists (eff_risk cfg a). eexists.
    split; [apply (eff_risk_clamped cfg a lo hi Hlo Hhi Hband)|].
    cbn [trades]. split; reflexivity.
Qed.

Lemma add_sizes_from_clamped_risk_witness :
  RISK_PER_TRADE_MIN balanced_x15 = Some 0.002
  /\ RISK_PER_TRADE_MAX balanced_x15 = Some 0.02
  /\ 0.002 <= 0.02
  /\ exists a',
       @add no_learning balanced_x15 be_bars 0.5
            (initial_account balanced_x15) unit_risk_candidate (Some 1)
       = Ok a'
       /\ (trades a' = trades (initial_account balanced_x15)
           \/ exists (eff : Q) (t : Trade),
                0.002 <= eff <= 0.02
                /\ trades a' = trades (initial_account balanced_x15) ++ [t]
                /\ size t
                   = py_int
                       (pymax 1
                          (eff * cap (initial_account balanced_x15)
                           / pymax (risk_per_share unit_risk_candidate) 1e-9
                           * short_factor balanced_x15
                               (sim_direction unit_risk_candidate)
                           * @prob_scale balanced_x15 0.5 (Some 1)))).
Proof.
  assert (H1 : RISK_PER_TRADE_MIN balanced_x15 = Some 0.002) by reflexivity.
  assert (H2 : RISK_PER_TRADE_MAX balanced_x15 = Some 0.02) by reflexivity.
  assert (H3 : 0.002 <= 0.02) by (vm_compute; discriminate).
  split; [exact H1|]. split; [exact H2|]. split; [exact H3|].
  eexists. split; [vm_compute; reflexivity|].
  eapply (@add_sizes_from_clamped_risk no_learning balanced_x15 be_bars 0.5
            (initial_account balanced_x15) _ unit_risk_candidate (Some 1)
            0.002 0.02 H1 H2 H3).
  vm_compute. reflexivity.
Defined.

(** C1 as stated fails: with the base risk at 0.015 and the band at
    [[0.002, 0.02]], an out-of-sample long with probability 1 at threshold
    0.5 is sized at 2100 shares of risk 1 on a capital of 100000: a sized
    risk of 0.021 of capital, above the band. *)
Lemma sized_risk_leaves_band :
  RISK_PER_TRADE_MAX balanced_x15 = Some 0.02
  /\ (a' <- @add no_learning balanced_x15 be_bars 0.5
              (initial_account balanced_x15) unit_risk_candidate (Some 1) ;;
      Ok (map size (trades a'))) = Ok [2100%Z]
  /\ 0.02 < inject_Z 2100 * risk_per_share unit_risk_candidate
            / cap (initial_account balanced_x15).
Proof.
  split; [reflexivity|]. split; vm_compute; reflexivity.
Qed.

(* ====================================================================== *)
(** * Properties: pass-rate guard *)
(* ====================================================================== *)

Lemma pass_count_cons (x : Q) (l : list Q) (v : Q) :
  pass_count (x :: l) v
  = ((if Qleb v x then 1 else 0) + pass_count l v)%Z.
Proof.
  unfold pass_count, len. cbn [filter].
  destruct (v <=? x); cbn [length]; lia.
Qed.

Lemma pass_count_bounds (l : list Q) (v : Q) :
  (0 <= pass_count l v <= len l)%Z.
Proof.
  induction l as [|x t IH].
  - unfold pass_count, len. cbn. lia.
  - rewrite pass_count_cons. unfold len in *. cbn [length].
    destruct (v <=? x); lia.
Qed.

Lemma pass_count_antitone (l : list Q) (v w : Q) :
  v <= w -> (pass_count l w <= pass_count l v)%Z.
Proof.
  intros Hvw. induction l as [|x t IH].
  - unfold pass_count. cbn. lia.
  - rewrite !pass_count_cons.
    destruct (w <=? x) eqn:Ew; destruct (v <=? x) eqn:Ev; try lia.
    apply Qleb_le in Ew. apply Qleb_gt in Ev. lra.
Qed.

Lemma pass_count_insert (x : Q) (l : list Q) (v : Q) :
  pass_count (insert_by Qleb x l) v = pass_count (x :: l) v.
Proof.
  induction l as [|y t IH]; cbn [insert_by]; [reflexivity|].
  destruct (Qleb x y); [reflexivity|].
  rewrite pass_count_cons, IH, !pass_count_cons. lia.
Qed.

Lemma pass_count_sort (l : list Q) (v : Q) :
  pass_count (sort_by Qleb l) v = pass_count l v.
Proof.
  induction l as [|x t IH]; cbn [sort_by]; [reflexivity|].
  rewrite pass_count_insert, !pass_count_cons, IH. reflexivity.
Qed.

Lemma len_insert {A} (leb : A -> A -> bool) (x : A) (l : list A) :
  len (insert_by leb x l) = (len l + 1)%Z.
Proof.
  unfold len. induction l as [|y t IH]; cbn [insert_by].
  - cbn. lia.
  - destruct (leb x y); cbn [length] in *; lia.
Qed.

Lemma len_sort {A} (leb : A -> A -> bool) (l : list A) :
  len (sort_by leb l) = len l.
Proof.
  induction l as [|x t IH]; cbn [sort_by]; [reflexivity|].
  rewrite len_insert, IH. unfold len. cbn [length]. lia.
Qed.

Lemma insert_sorted (x : Q) (l : list Q) :
  StronglySorted Qle l -> StronglySorted Qle (insert_by Qleb x l).
Proof.
  induction 1 as [|y t Ht IH Hy]; cbn [insert_by].
  - constructor; constructor.
  - destruct (Qleb x y) eqn:E.
    + apply Qleb_le in E. constructor.
      * constructor; assumption.
      * constructor; [exact E|].
        eapply Forall_impl; [|exact Hy]. intros z Hz. lra.
    + apply Qleb_gt in E. constructor; [exact IH|].
      assert (Hin : forall z, In z (insert_by Qleb x t) -> z = x \/ In z t).
      { clear. induction t as [|a t IH]; cbn [insert_by]; intros z Hz.
        - destruct Hz as [<-|[]]. now left.
        - destruct (Qleb x a).
          + destruct Hz as [<-|Hz]; [now left|now right].
          + destruct Hz as [<-|Hz]; [right; now left|].
            destruct (IH z Hz) as [->|Hin]; [now left|right; now right]. }
      apply Forall_forall. intros z Hz.
      destruct (Hin z Hz) as [->|Hzt]; [lra|].
      rewrite Forall_forall in Hy. apply Hy, Hzt.
Qed.

Lemma sort_sorted (l : list Q) : StronglySorted Qle (sort_by Qleb l).
Proof.
  induction l as [|x t IH]; cbn [sort_by]; [constructor|].
  apply insert_sorted, IH.
Qed.

Lemma pass_count_all (l : list Q) (v : Q) :
  Forall (fun y => v <= y) l -> pass_count l v = len l.
Proof.
  induction 1 as [|y t Hy Ht IH].
  - reflexivity.
  - rewrite pass_count_cons, IH.
    apply Qleb_le in Hy. rewrite Hy. unfold len. cbn [length]. lia.
Qed.

(** In a sorted list, everything from position k on passes a cut-off that
    the element at k passes. *)
Lemma pass_count_from (l : list Q) (k : nat) (x v : Q) :
  StronglySorted Qle l ->
  nth_error l k = Some x -> v <= x ->
  (len l - Z.of_nat k <= pass_count l v)%Z.
Proof.
  intros Hs. revert k. induction Hs as [|a t Ht IH Ha]; intros k Hk Hv.
  - destruct k; discriminate.
  - destruct k as [|k].
    + cbn in Hk. injection Hk as <-.
      rewrite pass_count_all; [lia|].
      constructor; [exact Hv|].
      eapply Forall_impl; [|exact Ha]. intros z Hz. lra.
    + cbn in Hk. specialize (IH k Hk Hv).
      rewrite pass_count_cons. unfold len in *. cbn [length].
      destruct (v <=? a); lia.
Qed.

Lemma sorted_nth_le (l : list Q) (i k : nat) (x y : Q) :
  StronglySorted Qle l -> (i <= k)%nat ->
  nth_error l i = Some x -> nth_error l k = Some y -> x <= y.
Proof.
  intros Hs. revert i k. induction Hs as [|a t Ht IH Ha]; intros i k Hik Hi Hk.
  - destruct i; discriminate.
  - destruct i as [|i], k as [|k]; cbn in Hi, Hk.
    + injection Hi as <-. injection Hk as <-. lra.
    + injection Hi as <-. rewrite Forall_forall in Ha.
      apply Ha. eapply nth_error_In. exact Hk.
    + lia.
    + apply (IH i k); [lia|assumption|assumption].
Qed.

Lemma inject_Z_le_4 (a b : Z) : inject_Z a * 4 <= 3 * inject_Z b -> (4 * a <= 3 * b)%Z.
Proof.
  intros Hq. rewrite Zle_Qle, !inject_Z_mult.
  change (inject_Z 4) with 4. change (inject_Z 3) with 3. lra.
Qed.

Lemma inject_Z_lt_4 (a b : Z) : inject_Z a * 4 < 3 * inject_Z b -> (4 * a < 3 * b)%Z.
Proof.
  intros Hq. rewrite Zlt_Qlt, !inject_Z_mult.
  change (inject_Z 4) with 4. change (inject_Z 3) with 3. lra.
Qed.

Lemma inject_Z_eq_4 (a b : Z) : inject_Z a * 4 == 3 * inject_Z b -> (4 * a = 3 * b)%Z.
Proof.
  intros Hq. apply Z.le_antisymm.
  - apply inject_Z_le_4. lra.
  - rewrite Zle_Qle, !inject_Z_mult.
    change (inject_Z 4) with 4. change (inject_Z 3) with 3. lra.
Qed.

(** At the 0.75 quantile of a sample at least a quarter of it passes. *)
Lemma quantile_three_quarters (probs : list Q) (q v : Q) :
  q == 3 # 4 ->
  np_quantile probs q = Ok v ->
  (len probs <= 4 * pass_count probs v)%Z.
Proof.
  intros Hq. unfold np_quantile.
  destruct ((q <? 0) || (1 <? q)); [discriminate|].
  rewrite len_sort.
  pose proof (sort_sorted probs) as Hs.
  pose proof (len_sort Qleb probs) as Hlen.
  rewrite <- (pass_count_sort probs v).
  set (s := sort_by Qleb probs) in *.
  set (n := len probs) in *.
  destruct (n =? 0)%Z eqn:En; [discriminate|].
  assert (Hn : (1 <= n)%Z)
    by (pose proof (len_nonneg probs) as Hnn; fold n in Hnn; lia).
  set (h := q * inject_Z (n - 1)).
  set (j := Qfloor h).
  pose proof (Qfloor_le h) as Hfl. fold j in Hfl.
  pose proof (Qlt_floor h) as Hfu. fold j in Hfu.
  assert (Hh : h == (3 # 4) * inject_Z (n - 1)) by (unfold h; rewrite Hq; reflexivity).
  assert (Hj4 : (4 * j <= 3 * (n - 1))%Z) by (apply inject_Z_le_4; lra).
  assert (Hj0 : (0 <= j)%Z).
  { assert (H0 : 0 <= h).
    { rewrite Hh. assert (Hn1 : inject_Z 0 <= inject_Z (n - 1)) by (rewrite <- Zle_Qle; lia).
      change (inject_Z 0) with 0 in Hn1. lra. }
    assert (Hlt : inject_Z 0 < inject_Z (j + 1)) by (change (inject_Z 0) with 0; lra).
    rewrite <- Zlt_Qlt in Hlt. lia. }
  destruct (py_index s j) as [xj|] eqn:Exj; [|discriminate].
  destruct (py_index s (Z.min (j + 1) (n - 1))) as [xk|] eqn:Exk; [|discriminate].
  cbn [lift_index bind]. intros Hv. injection Hv as <-.
  rewrite py_index_nat in Exj by lia.
  rewrite py_index_nat in Exk by lia.
  assert (Hjk : xj <= xk)
    by (apply (sorted_nth_le s (Z.to_nat j) (Z.to_nat (Z.min (j + 1) (n - 1))) xj xk Hs);
        [lia|assumption|assumption]).
  destruct (Qlt_le_dec 0 (h - inject_Z j)) as [Hg|Hg].
  - (* strictly between two order statistics *)
    assert (Hlt4 : (4 * j < 3 * (n - 1))%Z) by (apply inject_Z_lt_4; lra).
    assert (Hmin : Z.min (j + 1) (n - 1) = (j + 1)%Z) by lia.
    rewrite Hmin in Exk.
    assert (Hle : xj + (xk - xj) * (h - inject_Z j) <= xk).
    { assert (Hg1 : h - inject_Z j <= 1).
      { rewrite inject_Z_plus in Hfu. change (inject_Z 1) with 1 in Hfu. lra. }
      nra. }
    pose proof (pass_count_from s _ xk _ Hs Exk Hle) as Hc.
    fold n in Hlen. lia.
  - (* exactly on an order statistic *)
    assert (Heq4 : (4 * j = 3 * (n - 1))%Z) by (apply inject_Z_eq_4; lra).
    assert (Hle : xj + (xk - xj) * (h - inject_Z j) <= xj).
    { assert (Hg0 : h - inject_Z j == 0) by lra. rewrite Hg0. lra. }
    pose proof (pass_count_from s _ xj _ Hs Exj Hle) as Hc.
    fold n in Hlen. lia.
Qed.

(** X30.  With the minimum out-of-sample pass rate at 0.25, the value of
    the shipped profiles, the threshold the pass-rate guard leaves lets at
    least that fraction of the out-of-sample candidates pass. *)
Lemma relax_meets_quarter (cfg : Config) (thr thr' : Q) (probs : list Q) :
  ML_MIN_PASS_RATE_TEST cfg == 1 # 4 ->
  probs <> [] ->
  relax cfg thr probs = Ok thr' ->
  ML_MIN_PASS_RATE_TEST cfg <= pass_rate probs thr'.
Proof.
  intros Hm Hne. unfold relax.
  destruct (pass_rate probs thr <? ML_MIN_PASS_RATE_TEST cfg) eqn:E.
  - destruct (np_quantile probs (1 - ML_MIN_PASS_RATE_TEST cfg)) as [v|e] eqn:Eq;
      [|discriminate].
    cbn [bind]. intros Hthr. injection Hthr as <-.
    assert (Hq : 1 - ML_MIN_PASS_RATE_TEST cfg == 3 # 4) by lra.
    pose proof (quantile_three_quarters probs _ v Hq Eq) as H4.
    pose proof (pass_count_antitone probs (pymin thr v) v (pymin_r thr v)) as Ha.
    assert (Hn : (0 < len probs)%Z).
    { destruct probs; [congruence|]. unfold len. cbn [length]. lia. }
    rewrite Hm. unfold pass_rate.
    apply Qle_shift_div_l.
    + change 0 with (inject_Z 0). rewrite <- Zlt_Qlt. exact Hn.
    + assert (Hz : inject_Z (len probs) <= inject_Z (4 * pass_count probs (pymin thr v)))
        by (rewrite <- Zle_Qle; lia).
      rewrite inject_Z_mult in Hz. change (inject_Z 4) with 4 in Hz. lra.
  - apply Qltb_ge in E. intros Hthr. injection Hthr as <-. exact E.
Qed.

(** The guard never raises the threshold. *)
Lemma relax_never_raises (cfg : Config) (thr thr' : Q) (probs : list Q) :
  relax cfg thr probs = Ok thr' -> thr' <= thr.
Proof.
  unfold relax. destruct (_ <? _).
  - destruct (np_quantile probs (1 - ML_MIN_PASS_RATE_TEST cfg)) as [q|e];
      [|discriminate].
    cbn [bind]. intros Hthr. injection Hthr as <-. apply pymin_l.
  - intros Hthr. injection Hthr as <-. lra.
Qed.

(** C2 (evaluation at the failing input).  With a minimum pass rate of 0.30,
    a fitted classifier, the threshold at 0.5 and four out-of-sample
    candidates of predicted probabilities 0.1, 0.2, 0.3, 0.4, the guard of
    [build_equity] relaxes the threshold to the interpolated quantile 0.31,
    at which one candidate in four passes: a pass rate of 0.25, below the
    configured minimum. *)
Theorem relax_misses_min_pass_rate :
  exists g,
    @relax_gate fitted balanced_pass30 (@mkGate fitted (Some tt) 0.5) 0 four_oos
    = Ok g
    /\ threshold g == 0.31
    /\ @probs_of fitted tt four_oos = [0.1; 0.2; 0.3; 0.4]
    /\ pass_rate (@probs_of fitted tt four_oos) (threshold g) == 0.25
    /\ pass_rate (@probs_of fitted tt four_oos) (threshold g)
       < ML_MIN_PASS_RATE_TEST balanced_pass30.
Proof.
  eexists. split; [vm_compute; reflexivity|].
  split; [|split; [|split]]; vm_compute; reflexivity.
Qed.

(* ====================================================================== *)
(** * Further properties: zones and patterns *)
(* ====================================================================== *)

(** X1.  [fib_zone] returns its pair in ascending order, whatever the leg,
    the direction and the order of the two ratios. *)
Theorem fib_zone_ordered (A B : Q) (d : Dir) (zone : Q * Q) :
  fst (fib_zone A B d zone) <= snd (fib_zone A B d zone).
Proof.
  unfold fib_zone. destruct (sorted_pair zone) as [lo hi].
  destruct d; cbn [fst snd];
    (eapply Qle_trans; [apply pymin_l|apply pymax_l]).
Qed.

Lemma sorted_pair_spec (z : Q * Q) :
  fst (sorted_pair z) <= snd (sorted_pair z)
  /\ ((fst (sorted_pair z) = fst z /\ snd (sorted_pair z) = snd z)
      \/ (fst (sorted_pair z) = snd z /\ snd (sorted_pair z) = fst z)).
Proof.
  unfold sorted_pair. destruct (snd z <? fst z) eqn:E; cbn [fst snd].
  - apply Qltb_lt in E. split; [lra|right; split; reflexivity].
  - apply Qltb_ge in E. split; [exact E|left; destruct z; split; reflexivity].
Qed.

(** X2.  With both ratios between 0 and 1, the zone of an upward leg
    [A <= B] lies inside [[A, B]], and the zone of a downward leg [B <= A]
    inside [[B, A]]: an entry zone is a retracement of its leg. *)
Theorem fib_zone_within_leg (A B : Q) (d : Dir) (zone : Q * Q) :
  0 <= fst zone <= 1 ->
  0 <= snd zone <= 1 ->
  match d with UP => A <= B | DOWN => B <= A end ->
  match d with
  | UP => A <= fst (fib_zone A B d zone) /\ snd (fib_zone A B d zone) <= B
  | DOWN => B <= fst (fib_zone A B d zone) /\ snd (fib_zone A B d zone) <= A
  end.
Proof.
  intros H1 H2 Hleg.
  pose proof (sorted_pair_spec zone) as [Hord Hperm].
  unfold fib_zone. destruct (sorted_pair zone) as [lo hi].
  cbn [fst snd] in Hord, Hperm.
  assert (Hlo : 0 <= lo <= 1) by (destruct Hperm as [[-> _]|[-> _]]; assumption).
  assert (Hhi : 0 <= hi <= 1) by (destruct Hperm as [[_ ->]|[_ ->]]; assumption).
  destruct d; cbn [fst snd]; split.
  - apply pymin_glb; nra.
  - apply pymax_lub; nra.
  - apply pymin_glb; nra.
  - apply pymax_lub; nra.
Qed.

Lemma fib_zone_within_leg_witness :
  0 <= fst (0.5, 0.786) <= 1
  /\ 0 <= snd (0.5, 0.786) <= 1
  /\ 100 <= 110
  /\ (100 <= fst (fib_zone 100 110 UP (0.5, 0.786))
      /\ snd (fib_zone 100 110 UP (0.5, 0.786)) <= 110).
Proof.
  assert (H1 : 0 <= fst (0.5, 0.786) <= 1) by (cbn; lra).
  assert (H2 : 0 <= snd (0.5, 0.786) <= 1) by (cbn; lra).
  assert (H3 : 100 <= 110) by lra.
  split; [exact H1|]. split; [exact H2|]. split; [exact H3|].
  exact (fib_zone_within_leg 100 110 UP (0.5, 0.786) H1 H2 H3).
Defined.

(** The W3 zone of the specification: leg 100 -> 110, ratios 0.5 and 0.786. *)
Example fib_zone_scenario :
  fst (fib_zone 100 110 UP (0.5, 0.786)) == 102.14
  /\ snd (fib_zone 100 110 UP (0.5, 0.786)) == 105.
Proof. split; vm_compute; reflexivity. Qed.

Lemma ratio_bounds (a b lo hi : Q) :
  0 < a ->
  ((lo <=? b / a) && (b / a <=? hi)) = true ->
  lo * a <= b /\ b <= hi * a.
Proof.
  intros Ha Hb. apply andb_true_iff in Hb. destruct Hb as [Hl Hh].
  apply Qleb_le in Hl. apply Qleb_le in Hh.
  assert (Hba : b / a * a == b) by (field; lra).
  split.
  - rewrite <- Hba. apply Qmult_le_compat_r; lra.
  - rewrite <- Hba. apply Qmult_le_compat_r; lra.
Qed.

Lemma abc_window_shape (q0 q1 q2 q3 : Pivot) (d : Dir) :
  abc_window q0 q1 q2 q3 = Some d -> abc_shape (mkABC d [q0; q1; q2; q3]).
Proof.
  unfold abc_window. intros Hw.
  exists q0, q1, q2, q3. split; [reflexivity|]. cbn [abc_direction].
  destruct (kind q0) eqn:K0, (kind q1) eqn:K1, (kind q2) eqn:K2,
           (kind q3) eqn:K3; try discriminate Hw.
  - (* H L H L *)
    destruct (price q0 - price q1 <=? 0) eqn:EA; [discriminate Hw|].
    destruct ((0.3 <=? (price q2 - price q1) / (price q0 - price q1))
              && ((price q2 - price q1) / (price q0 - price q1) <=? 0.86)) eqn:ER;
      [|discriminate Hw].
    destruct (price q3 <? price q1) eqn:EC; [|discriminate Hw].
    cbn in Hw. injection Hw as <-.
    apply Qleb_gt in EA. apply Qltb_lt in EC.
    destruct (ratio_bounds _ _ _ _ EA ER) as [Hlo Hhi].
    repeat split; assumption.
  - (* L H L H *)
    destruct (price q1 - price q0 <=? 0) eqn:EA; [discriminate Hw|].
    destruct ((0.3 <=? (price q1 - price q2) / (price q1 - price q0))
              && ((price q1 - price q2) / (price q1 - price q0) <=? 0.86)) eqn:ER;
      [|discriminate Hw].
    destruct (price q1 <? price q3) eqn:EC; [|discriminate Hw].
    cbn in Hw. injection Hw as <-.
    apply Qleb_gt in EA. apply Qltb_lt in EC.
    destruct (ratio_bounds _ _ _ _ EA ER) as [Hlo Hhi].
    repeat split; assumption.
Qed.

Lemma window_of_cons {A} (x : A) (w l : list A) :
  window_of w l -> window_of w (x :: l).
Proof. intros [pre [post ->]]. exists (x :: pre), post. reflexivity. Qed.

Lemma detect_abcs_from_shape (n : nat) :
  forall s, (length s <= n)%nat ->
    Forall (fun a => abc_shape a /\ window_of (abc_points a) s)
           (detect_abcs_from s).
Proof.
  induction n as [|n IH]; intros s Hn.
  - destruct s; [constructor|cbn in Hn; lia].
  - destruct s as [|q0 [|q1 [|q2 [|q3 rest]]]]; try constructor.
    cbn [detect_abcs_from].
    destruct (abc_window q0 q1 q2 q3) as [d|] eqn:Ew.
    + constructor.
      * split; [apply abc_window_shape, Ew|].
        exists [], rest. reflexivity.
      * eapply Forall_impl; [|apply (IH (q2 :: q3 :: rest)); cbn in *; lia].
        intros a [Hs Hw]. split; [exact Hs|].
        apply window_of_cons, window_of_cons, Hw.
    + eapply Forall_impl; [|apply (IH (q1 :: q2 :: q3 :: rest)); cbn in *; lia].
      intros a [Hs Hw]. split; [exact Hs|apply window_of_cons, Hw].
Qed.

(** X3.  Every correction [detect_abcs] returns is made of four consecutive
    pivots of its input, of kinds H,L,H,L (DOWN) or L,H,L,H (UP), with a
    positive A leg, a B leg between 0.30 and 0.86 of the A leg, and a C
    pivot beyond the end of the A leg; fewer than four pivots give none. *)
Theorem detect_abcs_shape (e : ElliottEngine) (piv : list Pivot) :
  Forall (fun a => abc_shape a /\ window_of (abc_points a) piv)
         (detect_abcs e piv)
  /\ ((length piv < 4)%nat -> detect_abcs e piv = []).
Proof.
  split.
  - apply (detect_abcs_from_shape (length piv)). lia.
  - intros Hlen. unfold detect_abcs.
    destruct piv as [|q0 [|q1 [|q2 [|q3 rest]]]]; try reflexivity.
    cbn in Hlen. lia.
Qed.

Lemma impulse_window_shape (e : ElliottEngine) (atr : list (option Q))
    (p0 p1 p2 p3 p4 p5 : Pivot) (d : Dir) :
  impulse_window e atr p0 p1 p2 p3 p4 p5 = Ok (Some d) ->
  impulse_shape (mkImpulse d [p0; p1; p2; p3; p4; p5]).
Proof.
  unfold impulse_window. intros Hw.
  exists p0, p1, p2, p3, p4, p5. split; [reflexivity|]. cbn [direction].
  destruct (kind p0) eqn:K0, (kind p1) eqn:K1, (kind p2) eqn:K2,
           (kind p3) eqn:K3, (kind p4) eqn:K4, (kind p5) eqn:K5;
    try discriminate Hw.
  - (* H L H L H L *)
    destruct (price p0 <=? price p2) eqn:E2; [discriminate Hw|].
    destruct (price p0 - price p1 <=? 0) eqn:E1; [discriminate Hw|].
    destruct (price p2 - price p3 <? 0.6 * (price p0 - price p1)) eqn:E3;
      [discriminate Hw|].
    cbn [orb] in Hw.
    destruct (price p1 * 1.02 <=? price p4) eqn:E4; [discriminate Hw|].
    destruct (lift_index _) as [atr_b|ex]; [|discriminate Hw].
    cbn [bind] in Hw.
    destruct (atr_positive atr_b && _); [discriminate Hw|].
    injection Hw as <-.
    apply Qleb_gt in E2. apply Qleb_gt in E1.
    apply Qltb_ge in E3. apply Qleb_gt in E4.
    repeat split; assumption.
  - (* L H L H L H *)
    destruct (price p2 <=? price p0) eqn:E2; [discriminate Hw|].
    destruct (price p1 - price p0 <=? 0) eqn:E1; [discriminate Hw|].
    destruct (price p3 - price p2 <? 0.6 * (price p1 - price p0)) eqn:E3;
      [discriminate Hw|].
    cbn [orb] in Hw.
    destruct (price p4 <=? price p1 * 0.98) eqn:E4; [discriminate Hw|].
    destruct (lift_index _) as [atr_b|ex]; [|discriminate Hw].
    cbn [bind] in Hw.
    destruct (atr_positive atr_b && _); [discriminate Hw|].
    injection Hw as <-.
    apply Qleb_gt in E2. apply Qleb_gt in E1.
    apply Qltb_ge in E3. apply Qleb_gt in E4.
    repeat split; assumption.
Qed.

Lemma detect_impulses_from_six (e : ElliottEngine) (atr : list (option Q))
    (p0 p1 p2 p3 p4 p5 : Pivot) (rest : list Pivot) :
  detect_impulses_from e atr (p0 :: p1 :: p2 :: p3 :: p4 :: p5 :: rest)
  = (v <- impulse_window e atr p0 p1 p2 p3 p4 p5 ;;
     match v with
     | Some d =>
         res <- detect_impulses_from e atr (p3 :: p4 :: p5 :: rest) ;;
         Ok (mkImpulse d [p0; p1; p2; p3; p4; p5] :: res)
     | None => detect_impulses_from e atr (p1 :: p2 :: p3 :: p4 :: p5 :: rest)
     end).
Proof. reflexivity. Qed.

Lemma detect_impulses_from_shape (e : ElliottEngine) (atr : list (option Q))
    (n : nat) :
  forall s res, (length s <= n)%nat ->
    detect_impulses_from e atr s = Ok res ->
    Forall (fun im => impulse_shape im /\ window_of (points im) s) res.
Proof.
  induction n as [|n IH]; intros s res Hn Hd.
  - destruct s; [|cbn in Hn; lia]. cbn in Hd. injection Hd as <-. constructor.
  - destruct s as [|p0 [|p1 [|p2 [|p3 [|p4 [|p5 rest]]]]]];
      try (cbn in Hd; injection Hd as <-; constructor).
    rewrite detect_impulses_from_six in Hd.
    destruct (impulse_window e atr p0 p1 p2 p3 p4 p5) as [[d|]|ex] eqn:Ew;
      cbn [bind] in Hd; [| |discriminate Hd].
    + destruct (detect_impulses_from e atr (p3 :: p4 :: p5 :: rest))
        as [res'|ex] eqn:Er; cbn [bind] in Hd; [|discriminate Hd].
      injection Hd as <-.
      constructor.
      * split; [eapply impulse_window_shape, Ew|].
        exists [], rest. reflexivity.
      * eapply Forall_impl;
          [|apply (IH (p3 :: p4 :: p5 :: rest) res'); [cbn in *; lia|exact Er]].
        intros im [Hs Hw]. split; [exact Hs|].
        apply window_of_cons, window_of_cons, window_of_cons, Hw.
    + eapply Forall_impl;
        [|apply (IH (p1 :: p2 :: p3 :: p4 :: p5 :: rest) res);
          [cbn in *; lia|exact Hd]].
      intros im [Hs Hw]. split; [exact Hs|apply window_of_cons, Hw].
Qed.

(** X4.  Every impulse [detect_impulses] returns is made of six consecutive
    pivots of its input whose kinds alternate as its direction asks
    (L,H,L,H,L,H for UP, the mirror image for DOWN); wave 2 does not reach
    back to the origin, wave 3 is at least 0.6 of wave 1 and wave 4 stays
    clear of the end of wave 1 by the 2% tolerance. *)
Theorem detect_impulses_shape (e : ElliottEngine) (piv : list Pivot)
    (closes : list Q) (atr : list (option Q)) (res : list Impulse) :
  detect_impulses e piv closes atr = Ok res ->
  Forall (fun im => impulse_shape im /\ window_of (points im) piv) res.
Proof.
  intros Hd. apply (detect_impulses_from_shape e atr (length piv) piv res);
    [lia|exact Hd].
Qed.

Lemma detect_impulses_shape_witness :
  detect_impulses (mkEngine 0.003 0.8 2.0) scenario_pivots [] [Some 1.0]
  = Ok [mkImpulse UP scenario_pivots]
  /\ Forall (fun im => impulse_shape im /\ window_of (points im) scenario_pivots)
            [mkImpulse UP scenario_pivots].
Proof.
  assert (Hd : detect_impulses (mkEngine 0.003 0.8 2.0) scenario_pivots []
                 [Some 1.0] = Ok [mkImpulse UP scenario_pivots])
    by (vm_compute; reflexivity).
  split; [exact Hd|].
  exact (detect_impulses_shape (mkEngine 0.003 0.8 2.0) scenario_pivots []
           [Some 1.0] [mkImpulse UP scenario_pivots] Hd).
Defined.

(* ====================================================================== *)
(** * Further properties: pivots *)
(* ====================================================================== *)

Lemma fold_left_invariant {A B} (P : A -> Prop) (f : A -> B -> A)
    (l : list B) (a : A) :
  (forall s x, In x l -> P s -> P (f s x)) -> P a -> P (fold_left f l a).
Proof.
  revert a. induction l as [|x t IH]; intros a Hstep Ha; cbn [fold_left].
  - exact Ha.
  - apply IH.
    + intros s y Hy. apply Hstep. now right.
    + apply Hstep; [now left|exact Ha].
Qed.

Lemma len_app {A} (l1 l2 : list A) : len (l1 ++ l2) = (len l1 + len l2)%Z.
Proof. unfold len. rewrite length_app. lia. Qed.

Lemma len_nil {A} : len (@nil A) = 0%Z.
Proof. reflexivity. Qed.

Lemma len_cons {A} (x : A) (l : list A) : len (x :: l) = (len l + 1)%Z.
Proof. unfold len. cbn [length]. lia. Qed.

Lemma enumerate_from_samples (t pre : list Q) :
  Forall (fun ip => sample_at (pre ++ t) (fst ip) (snd ip))
         (enumerate_from (len pre) t).
Proof.
  revert pre. induction t as [|x t IH]; intros pre; cbn [enumerate_from].
  - constructor.
  - constructor.
    + cbn [fst snd]. unfold sample_at.
      pose proof (len_nonneg pre) as Hp. pose proof (len_nonneg t) as Ht.
      rewrite len_app, len_cons. split; [lia|].
      rewrite py_index_nat by (rewrite len_app, len_cons; lia).
      unfold len. rewrite Nat2Z.id, nth_error_app2 by lia.
      rewrite Nat.sub_diag. reflexivity.
    + specialize (IH (pre ++ [x])).
      rewrite <- app_assoc in IH. cbn [app] in IH.
      replace (len (pre ++ [x])) with (len pre + 1)%Z in IH
        by (rewrite len_app, len_cons; unfold len; cbn; lia).
      exact IH.
Qed.

Lemma zz_up_on_samples (closes : list Q) (thr p : Q) (i : Z) (s : ZigZag) :
  sample_at closes i p -> zz_on_samples closes s ->
  zz_on_samples closes (zz_up thr p i s).
Proof.
  intros Hp [Hhi [Hlo Hpiv]]. unfold zz_up.
  destruct (dir_is_none_or UP (zz_direction s));
    [|exact (conj Hhi (conj Hlo Hpiv))].
  assert (Hhi' : sample_at closes (if zz_hi s <? p then i else zz_hi_i s)
                           (if zz_hi s <? p then p else zz_hi s))
    by (destruct (zz_hi s <? p); assumption).
  destruct (thr <=? _); unfold zz_on_samples; cbn [zz_hi zz_hi_i zz_lo zz_lo_i zz_piv].
  - split; [exact Hhi'|]. split; [exact Hp|].
    apply Forall_app. split; [exact Hpiv|].
    constructor; [exact Hhi'|constructor].
  - exact (conj Hhi' (conj Hlo Hpiv)).
Qed.

Lemma zz_down_on_samples (closes : list Q) (thr p : Q) (i : Z) (s : ZigZag) :
  sample_at closes i p -> zz_on_samples closes s ->
  zz_on_samples closes (zz_down thr p i s).
Proof.
  intros Hp [Hhi [Hlo Hpiv]]. unfold zz_down.
  destruct (dir_is_none_or DOWN (zz_direction s));
    [|exact (conj Hhi (conj Hlo Hpiv))].
  assert (Hlo' : sample_at closes (if p <? zz_lo s then i else zz_lo_i s)
                           (if p <? zz_lo s then p else zz_lo s))
    by (destruct (p <? zz_lo s); assumption).
  destruct (thr <=? _); unfold zz_on_samples; cbn [zz_hi zz_hi_i zz_lo zz_lo_i zz_piv].
  - split; [exact Hp|]. split; [exact Hlo'|].
    apply Forall_app. split; [exact Hpiv|].
    constructor; [exact Hlo'|constructor].
  - exact (conj Hhi (conj Hlo' Hpiv)).
Qed.

Lemma In_insert_by {A} (leb : A -> A -> bool) (x z : A) (l : list A) :
  In z (insert_by leb x l) <-> z = x \/ In z l.
Proof.
  induction l as [|y t IH]; cbn [insert_by].
  - cbn. intuition congruence.
  - destruct (leb x y); cbn [In] in *; [intuition congruence|].
    rewrite IH. intuition congruence.
Qed.

Lemma In_sort_by {A} (leb : A -> A -> bool) (z : A) (l : list A) :
  In z (sort_by leb l) <-> In z l.
Proof.
  induction l as [|x t IH]; cbn [sort_by]; [reflexivity|].
  rewrite In_insert_by, IH. cbn [In]. intuition congruence.
Qed.

Lemma In_clean_step (acc : list Pivot) (p z : Pivot) :
  In z (clean_step acc p) -> z = p \/ In z acc.
Proof.
  unfold clean_step. destruct acc as [|q rest].
  - intros [<-|[]]. now left.
  - destruct (negb _).
    + intros [<-|Hz]; [now left|now right].
    + destruct (_ || _).
      * intros [<-|Hz]; [now left|right; now right].
      * intros Hz. now right.
Qed.

Lemma In_clean (l : list Pivot) (z : Pivot) : In z (clean l) -> In z l.
Proof.
  unfold clean. rewrite <- In_rev.
  assert (Hgen : forall acc, In z (fold_left clean_step l acc) ->
                             In z acc \/ In z l).
  { induction l as [|p t IH]; intros acc Hz; cbn [fold_left] in Hz.
    - now left.
    - destruct (IH _ Hz) as [Hin|Hin]; [|right; now right].
      destruct (In_clean_step acc p z Hin) as [->|Hacc];
        [right; now left|now left]. }
  intros Hz. destruct (Hgen [] Hz) as [[]|Hin]. exact Hin.
Qed.

(** The pivots of [zigzag] sit on samples of the series. *)
Lemma zigzag_on_samples (e : ElliottEngine) (closes : list Q)
    (atr : list (option Q)) :
  Forall (is_sample closes) (zigzag e closes atr).
Proof.
  unfold zigzag. destruct (len closes <? 3)%Z eqn:E3; [constructor|].
  destruct closes as [|c0 rest]; [constructor|].
  set (s0 := mkZigZag [] c0 c0 c0 0%Z 0%Z None).
  assert (Hfold : zz_on_samples (c0 :: rest)
                    (fold_left (zz_step e atr) (enumerate_from 1 rest) s0)).
  { apply fold_left_invariant.
    - intros s [i p] Hin Hs.
      pose proof (enumerate_from_samples rest [c0]) as Hen.
      rewrite Forall_forall in Hen. specialize (Hen (i, p) Hin).
      cbn [fst snd app] in Hen.
      unfold zz_step. apply zz_down_on_samples, zz_up_on_samples; assumption.
    - assert (H0 : sample_at (c0 :: rest) 0 c0).
      { split; [rewrite len_cons; pose proof (len_nonneg rest); lia|].
        rewrite py_index_nat
          by (rewrite len_cons; pose proof (len_nonneg rest); lia).
        reflexivity. }
      exact (conj H0 (conj H0 (Forall_nil _))). }
  destruct Hfold as [_ [_ Hpiv]].
  rewrite Forall_forall in *. intros z Hz.
  apply Hpiv. apply (In_sort_by idx_leb). apply In_clean. exact Hz.
Qed.

(** X5.  Every pivot [zigzag] returns sits on a sample of the series: its
    index is an index of the close array and its price is the close at that
    index. *)
Theorem zigzag_pivots_are_samples (e : ElliottEngine) (closes : list Q)
    (atr : list (option Q)) (p : Pivot) :
  In p (zigzag e closes atr) ->
  (0 <= idx p < len closes)%Z /\ py_index closes (idx p) = Some (price p).
Proof.
  intros Hin.
  pose proof (zigzag_on_samples e closes atr) as Hall.
  rewrite Forall_forall in Hall. exact (Hall p Hin).
Qed.

Lemma zigzag_pivots_are_samples_witness :
  In (mkPivot 3 115 H)
     (zigzag (mkEngine 0.03 1 2) [100; 110; 105; 115; 108; 120] [])
  /\ ((0 <= 3 < len [100; 110; 105; 115; 108; 120])%Z
      /\ py_index [100; 110; 105; 115; 108; 120] 3 = Some 115).
Proof.
  assert (Hin : In (mkPivot 3 115 H)
                   (zigzag (mkEngine 0.03 1 2) [100; 110; 105; 115; 108; 120] []))
    by (vm_compute; tauto).
  split; [exact Hin|].
  exact (zigzag_pivots_are_samples (mkEngine 0.03 1 2)
           [100; 110; 105; 115; 108; 120] [] (mkPivot 3 115 H) Hin).
Defined.

Lemma StronglySorted_snoc {A} (R : A -> A -> Prop) (l : list A) (x : A) :
  StronglySorted R l -> Forall (fun y => R y x) l ->
  StronglySorted R (l ++ [x]).
Proof.
  induction 1 as [|a t Ht IH Ha]; intros Hx; cbn [app].
  - constructor; constructor.
  - inversion Hx as [|? ? Hax Htx]; subst.
    constructor; [apply IH, Htx|].
    apply Forall_app. split; [exact Ha|constructor; [exact Hax|constructor]].
Qed.

Lemma StronglySorted_rev {A} (R : A -> A -> Prop) (l : list A) :
  StronglySorted (fun a b => R b a) l -> StronglySorted R (rev l).
Proof.
  induction 1 as [|a t Ht IH Ha]; cbn [rev]; [constructor|].
  apply StronglySorted_snoc; [exact IH|].
  apply Forall_forall. intros y Hy. rewrite <- In_rev in Hy.
  rewrite Forall_forall in Ha. apply Ha, Hy.
Qed.

Lemma insert_by_sorted {A} (leb : A -> A -> bool) (x : A) (l : list A) :
  (forall a b, leb a b = false -> leb b a = true) ->
  (forall a b c, leb a b = true -> leb b c = true -> leb a c = true) ->
  StronglySorted (fun a b => leb a b = true) l ->
  StronglySorted (fun a b => leb a b = true) (insert_by leb x l).
Proof.
  intros Htot Htrans. induction 1 as [|y t Ht IH Hy]; cbn [insert_by].
  - constructor; constructor.
  - destruct (leb x y) eqn:E.
    + constructor; [constructor; assumption|].
      constructor; [exact E|].
      eapply Forall_impl; [|exact Hy]. intros z Hz. eapply Htrans; eassumption.
    + constructor; [exact IH|].
      apply Forall_forall. intros z Hz. apply In_insert_by in Hz.
      destruct Hz as [->|Hz]; [apply Htot, E|].
      rewrite Forall_forall in Hy. apply Hy, Hz.
Qed.

Lemma sort_by_sorted {A} (leb : A -> A -> bool) (l : list A) :
  (forall a b, leb a b = false -> leb b a = true) ->
  (forall a b c, leb a b = true -> leb b c = true -> leb a c = true) ->
  StronglySorted (fun a b => leb a b = true) (sort_by leb l).
Proof.
  intros Htot Htrans. induction l as [|x t IH]; cbn [sort_by]; [constructor|].
  apply insert_by_sorted; assumption.
Qed.

Lemma StronglySorted_impl {A} (R S : A -> A -> Prop) (l : list A) :
  (forall a b, R a b -> S a b) -> StronglySorted R l -> StronglySorted S l.
Proof.
  intros HRS. induction 1 as [|a t Ht IH Ha]; constructor; [exact IH|].
  eapply Forall_impl; [|exact Ha]. intros b. apply HRS.
Qed.

Lemma clean_fold_sorted (R : Pivot -> Pivot -> Prop) (l acc : list Pivot) :
  StronglySorted R l ->
  StronglySorted (fun a b => R b a) acc ->
  (forall a x, In a acc -> In x l -> R a x) ->
  StronglySorted (fun a b => R b a) (fold_left clean_step l acc).
Proof.
  intros Hl. revert acc.
  induction Hl as [|p t Ht IH Hp]; intros acc Hacc Hlow; cbn [fold_left].
  - exact Hacc.
  - rewrite Forall_forall in Hp.
    assert (Hpacc : Forall (fun a => R a p) acc)
      by (apply Forall_forall; intros a Ha; apply Hlow; [exact Ha|now left]).
    apply IH.
    + unfold clean_step. destruct acc as [|q rest].
      * constructor; constructor.
      * destruct (negb _); [constructor; assumption|].
        destruct (_ || _); [|exact Hacc].
        inversion Hacc; subst. inversion Hpacc; subst.
        constructor; assumption.
    + intros a x Ha Hx. apply In_clean_step in Ha.
      destruct Ha as [->|Ha]; [apply Hp, Hx|].
      apply Hlow; [exact Ha|now right].
Qed.

Lemma clean_sorted (R : Pivot -> Pivot -> Prop) (l : list Pivot) :
  StronglySorted R l -> StronglySorted R (clean l).
Proof.
  intros Hl. unfold clean. apply (StronglySorted_rev R).
  apply clean_fold_sorted; [exact Hl|constructor|intros a x []].
Qed.

(** X6.  The pivots [zigzag] returns are in time order: their indices never
    decrease along the list. *)
Theorem zigzag_in_time_order (e : ElliottEngine) (closes : list Q)
    (atr : list (option Q)) :
  StronglySorted (fun a b => (idx a <= idx b)%Z) (zigzag e closes atr).
Proof.
  unfold zigzag. destruct (len closes <? 3)%Z; [constructor|].
  destruct closes as [|c0 rest]; [constructor|].
  apply (clean_sorted idx_le).
  apply (StronglySorted_impl (fun a b => idx_leb a b = true)).
  - intros a b Hab. unfold idx_le. unfold idx_leb in Hab. lia.
  - apply sort_by_sorted.
    + intros a b Hab. unfold idx_leb in *. lia.
    + intros a b c Hab Hbc. unfold idx_leb in *. lia.
Qed.

(* ====================================================================== *)
(** * Further properties: structure analysis *)
(* ====================================================================== *)

Lemma impulse_window_total (e : ElliottEngine) (atr : list (option Q))
    (p0 p1 p2 p3 p4 p5 : Pivot) :
  atr <> [] -> (0 <= idx p3)%Z ->
  exists v, impulse_window e atr p0 p1 p2 p3 p4 p5 = Ok v.
Proof.
  intros Hatr Hidx.
  assert (Hlen : (1 <= len atr)%Z)
    by (destruct atr; [congruence|rewrite len_cons; pose proof (len_nonneg atr); lia]).
  destruct (py_index_in_range atr (Z.min (idx p3) (len atr - 1)))
    as [atr_b Hb]; [lia|].
  unfold impulse_window. rewrite Hb. cbn [lift_index bind].
  destruct (kind p0), (kind p1), (kind p2), (kind p3), (kind p4), (kind p5);
    try (eexists; reflexivity).
  - destruct (_ || _); [eexists; reflexivity|].
    destruct (_ <=? _); [eexists; reflexivity|].
    destruct (_ && _); eexists; reflexivity.
  - destruct (_ || _); [eexists; reflexivity|].
    destruct (_ <=? _); [eexists; reflexivity|].
    destruct (_ && _); eexists; reflexivity.
Qed.

Lemma detect_impulses_from_total (e : ElliottEngine) (atr : list (option Q))
    (n : nat) :
  forall s, (length s <= n)%nat -> atr <> [] ->
    Forall (fun p => (0 <= idx p)%Z) s ->
    exists res, detect_impulses_from e atr s = Ok res.
Proof.
  induction n as [|n IH]; intros s Hn Hatr Hs.
  - destruct s; [|cbn in Hn; lia]. eexists. reflexivity.
  - destruct s as [|p0 [|p1 [|p2 [|p3 [|p4 [|p5 rest]]]]]];
      try (eexists; reflexivity).
    rewrite detect_impulses_from_six.
    inversion Hs as [|? ? _ Hs1]; subst.
    inversion Hs1 as [|? ? _ Hs2]; subst.
    inversion Hs2 as [|? ? _ Hs3]; subst.
    inversion Hs3 as [|? ? H3 _]; subst.
    destruct (impulse_window_total e atr p0 p1 p2 p3 p4 p5 Hatr H3) as [v ->].
    cbn [bind].
    destruct v as [d|].
    + destruct (IH (p3 :: p4 :: p5 :: rest)) as [res ->];
        [cbn in *; lia|exact Hatr|exact Hs3|].
      eexists. reflexivity.
    + apply IH; [cbn in *; lia|exact Hatr|exact Hs1].
Qed.

Lemma detect_on_zigzag (e : ElliottEngine) (closes : list Q)
    (atr : list (option Q)) :
  len atr = len closes ->
  exists res, detect_impulses e (zigzag e closes atr) closes atr = Ok res.
Proof.
  intros Hlen. unfold detect_impulses.
  destruct atr as [|a0 atr'].
  - destruct closes as [|c0 rest]; [|rewrite len_cons in Hlen;
      pose proof (len_nonneg rest); unfold len in Hlen at 1; cbn in Hlen; lia].
    eexists. reflexivity.
  - apply (detect_impulses_from_total e (a0 :: atr') (length (zigzag e closes (a0 :: atr'))));
      [lia|discriminate|].
    eapply Forall_impl; [|apply zigzag_on_samples].
    intros p [[Hp _] _]. exact Hp.
Qed.

(** X7.  On frames whose ATR column is as long as their close column,
    [analyze_structure] never raises: every pivot the zigzag hands to the
    impulse detector has an index at which the ATR can be read. *)
Theorem analyze_structure_returns (pe he : ElliottEngine)
    (daily_close : list Q) (daily_atr : list (option Q))
    (h1_close : list Q) (h1_atr : list (option Q)) :
  len daily_atr = len daily_close ->
  len h1_atr = len h1_close ->
  exists st,
    analyze_structure pe he daily_close daily_atr h1_close h1_atr = Ok st.
Proof.
  intros Hd Hh. unfold analyze_structure.
  destruct (detect_on_zigzag pe daily_close daily_atr Hd) as [pi ->].
  destruct (detect_on_zigzag he h1_close h1_atr Hh) as [im ->].
  cbn [bind]. eexists. reflexivity.
Qed.

Lemma analyze_structure_returns_witness :
  len wave_atr = len wave_closes
  /\ len wave_atr = len wave_closes
  /\ exists st,
       analyze_structure wave_engine wave_engine
                         wave_closes wave_atr wave_closes wave_atr = Ok st.
Proof.
  assert (Hl : len wave_atr = len wave_closes) by reflexivity.
  split; [exact Hl|]. split; [exact Hl|].
  exact (analyze_structure_returns wave_engine wave_engine
           wave_closes wave_atr wave_closes wave_atr Hl Hl).
Defined.

(* ====================================================================== *)
(** * Further properties: touch and confirmation *)
(* ====================================================================== *)

Lemma first_index_from_spec (f : Bar -> bool) (df : list Bar) :
  forall (k i : Z),
    first_index_from k f df = Some i ->
    (k <= i < k + len df)%Z
    /\ (exists r, nth_error df (Z.to_nat (i - k)) = Some r /\ f r = true)
    /\ (forall j r, (k <= j < i)%Z ->
                    nth_error df (Z.to_nat (j - k)) = Some r -> f r = false).
Proof.
  induction df as [|r t IH]; intros k i Hf; cbn [first_index_from] in Hf.
  - discriminate.
  - rewrite len_cons. pose proof (len_nonneg t) as Ht.
    destruct (f r) eqn:Er.
    + injection Hf as <-. split; [lia|]. split.
      * exists r. rewrite Z.sub_diag. split; [reflexivity|exact Er].
      * intros j r' Hj. lia.
    + destruct (IH _ _ Hf) as [Hi [[r' [Hr' Hfr']] Hbefore]].
      split; [lia|]. split.
      * exists r'. split; [|exact Hfr'].
        replace (Z.to_nat (i - k)) with (S (Z.to_nat (i - (k + 1)))) by lia.
        exact Hr'.
      * intros j r'' Hj Hnth.
        destruct (Z.eq_dec j k) as [->|Hjk].
        -- rewrite Z.sub_diag in Hnth. cbn in Hnth. injection Hnth as <-.
           exact Er.
        -- apply (Hbefore j r''); [lia|].
           replace (Z.to_nat (j - k)) with (S (Z.to_nat (j - (k + 1)))) in Hnth
             by lia.
           exact Hnth.
Qed.

Lemma first_index_from_none (f : Bar -> bool) (df : list Bar) (k : Z) :
  first_index_from k f df = None -> Forall (fun r => f r = false) df.
Proof.
  revert k. induction df as [|r t IH]; intros k Hf; cbn [first_index_from] in Hf.
  - constructor.
  - destruct (f r) eqn:Er; [discriminate|].
    constructor; [exact Er|apply (IH _ Hf)].
Qed.

Lemma idx_from_time_start (df : list Bar) (ts : Z) :
  match idx_from_time df ts with
  | Some i => (0 <= i < len df)%Z
  | None => True
  end.
Proof.
  unfold idx_from_time.
  destruct (first_index_from 0 (fun r => (ts <=? date r)%Z) df) as [i|] eqn:Ef;
    [|exact I].
  destruct (first_index_from_spec _ _ _ _ Ef) as [Hi _]. lia.
Qed.

(** X8.  [idx_from_time] returns the first bar dated at or after the
    timestamp: the index it returns is an index of the frame, that bar is
    not earlier than the timestamp and every bar before it is; it returns
    nothing exactly when every bar of the frame is earlier. *)
Theorem idx_from_time_first (df : list Bar) (ts : Z) :
  match idx_from_time df ts with
  | Some i =>
      (0 <= i < len df)%Z
      /\ (exists r, py_index df i = Some r /\ (ts <= date r)%Z)
      /\ (forall j r, (0 <= j < i)%Z -> py_index df j = Some r ->
                      (date r < ts)%Z)
  | None => Forall (fun r => (date r < ts)%Z) df
  end.
Proof.
  unfold idx_from_time.
  destruct (first_index_from 0 (fun r => (ts <=? date r)%Z) df) as [i|] eqn:Ef.
  - destruct (first_index_from_spec _ _ _ _ Ef) as [Hi [[r [Hr Hfr]] Hb]].
    rewrite Z.sub_0_r in Hr. split; [lia|]. split.
    + exists r. rewrite py_index_nat by lia. split; [exact Hr|lia].
    + intros j r' Hj Hpj. rewrite py_index_nat in Hpj by lia.
      specialize (Hb j r' Hj). rewrite Z.sub_0_r in Hb.
      specialize (Hb Hpj). lia.
  - eapply Forall_impl; [|apply (first_index_from_none _ _ _ Ef)].
    intros r Hr. cbn in Hr. lia.
Qed.

Lemma touch_scan_range (df : list Bar) (zone : Q * Q) (b : Z) (n : nat) :
  forall a,
    Z.to_nat (b - a) = n -> (0 <= a)%Z -> (b <= len df)%Z ->
    exists res,
      touch_scan df zone (py_range a b) = Ok res
      /\ match res with
         | Some i =>
             (a <= i < b)%Z
             /\ touch_verdict df zone i true
             /\ forall j, (a <= j < i)%Z -> touch_verdict df zone j false
         | None => forall j, (a <= j < b)%Z -> touch_verdict df zone j false
         end.
Proof.
  induction n as [|n IH]; intros a Hn Ha Hb.
  - rewrite py_range_nil by lia. exists None. split; [reflexivity|].
    intros j Hj. lia.
  - rewrite py_range_cons by lia. cbn [touch_scan].
    destruct (py_index_in_range df a) as [r Hr]; [lia|].
    rewrite Hr. cbn [lift_index bind].
    destruct (touches zone r) eqn:Et.
    + exists (Some a). split; [reflexivity|].
      split; [lia|]. split; [exists r; split; assumption|].
      intros j Hj. lia.
    + assert (Hva : touch_verdict df zone a false)
        by (exists r; split; assumption).
      destruct (IH (a + 1)%Z) as [res [Hres Hspec]]; [lia|lia|lia|].
      exists res. split; [exact Hres|].
      destruct res as [i|].
      * destruct Hspec as [Hi [Hti Hbefore]].
        split; [lia|]. split; [exact Hti|].
        intros j Hj. destruct (Z.eq_dec j a) as [->|Hja]; [exact Hva|].
        apply Hbefore. lia.
      * intros j Hj. destruct (Z.eq_dec j a) as [->|Hja]; [exact Hva|].
        apply Hspec. lia.
Qed.

(** X9.  [first_touch] never raises.  When it returns an index, that bar
    touches the entry zone, lies in the frame and at most [window] bars
    after the start bar, and no bar of the window before it touches the
    zone. *)
Theorem first_touch_first (df : list Bar) (start_ts : Z) (zone : Q * Q)
    (window : Z) :
  exists res,
    first_touch df start_ts zone window = Ok res
    /\ match res with
       | Some i =>
           exists start_i,
             idx_from_time df start_ts = Some start_i
             /\ (start_i <= i <= start_i + window)%Z
             /\ (i < len df)%Z
             /\ touch_verdict df zone i true
             /\ forall j, (start_i <= j < i)%Z -> touch_verdict df zone j false
       | None => True
       end.
Proof.
  unfold first_touch.
  pose proof (idx_from_time_start df start_ts) as Hstart.
  destruct (idx_from_time df start_ts) as [start_i|]; [|exists None; split; [reflexivity|exact I]].
  set (end_i := Z.min (start_i + window) (len df - 1)).
  destruct (touch_scan_range df zone (end_i + 1) _ start_i eq_refl)
    as [res [Hres Hspec]]; [lia|unfold end_i; lia|].
  exists res. split; [exact Hres|].
  destruct res as [i|]; [|exact I].
  destruct Hspec as [Hi [Hti Hbefore]].
  exists start_i. split; [reflexivity|].
  unfold end_i in Hi. repeat split; try lia; assumption.
Qed.

Lemma confirm_scan_total (cfg : Config) (df : list Bar) (d : Dir)
    (prev_hi prev_lo : Q) (ixs : list Z) :
  (forall i, In i ixs -> (0 <= i < len df)%Z) ->
  exists res, confirm_scan cfg df d prev_hi prev_lo ixs = Ok res.
Proof.
  induction ixs as [|i rest IH]; intros Hix; cbn [confirm_scan].
  - eexists. reflexivity.
  - destruct (py_index_in_range df i) as [r Hr]; [apply Hix; now left|].
    rewrite Hr. cbn [lift_index bind].
    destruct (bar_confirms cfg d prev_hi prev_lo r); [eexists; reflexivity|].
    apply IH. intros k Hk. apply Hix. now right.
Qed.

(** X10.  From a touch bar inside the frame and with a non-negative bar
    count, [confirm_idx] never raises; an entry index it returns is at or
    after the touch bar, at most [bars] bars after it and inside the frame;
    and it returns no index only when the fallback to the touch window is
    switched off. *)
Theorem confirm_idx_within_window (cfg : Config) (df : list Bar) (touch_i : Z)
    (d : Dir) (bars : Z) (allow_touch : bool) :
  (0 <= touch_i < len df)%Z ->
  (0 <= bars)%Z ->
  exists res,
    confirm_idx cfg df touch_i d bars allow_touch = Ok res
    /\ match res with
       | Some i => (touch_i <= i <= touch_i + bars)%Z /\ (i < len df)%Z
       | None => allow_touch = false
       end.
Proof.
  intros Ht Hb. unfold confirm_idx.
  destruct (negb (REQUIRE_CONFIRM cfg)).
  - exists (Some touch_i). split; [reflexivity|lia].
  - destruct (py_index_in_range df (Z.max 0 (touch_i - 1))) as [pb Hpb]; [lia|].
    rewrite Hpb. cbn [lift_index bind].
    set (end_ := Z.min (touch_i + bars) (len df - 1)).
    destruct (confirm_scan_total cfg df d (high pb) (low pb)
                (py_range touch_i (end_ + 1))) as [found Hfound].
    { intros i Hi. apply in_py_range in Hi. unfold end_ in Hi. lia. }
    rewrite Hfound. cbn [bind].
    pose proof (confirm_scan_first cfg df d pb (end_ + 1) _ touch_i found
                  eq_refl Hfound) as Hspec.
    destruct found as [i|].
    + exists (Some i). split; [reflexivity|].
      destruct Hspec as [Hi _]. unfold end_ in Hi. lia.
    + destruct allow_touch.
      * exists (Some end_). split; [reflexivity|]. unfold end_. lia.
      * exists None. split; reflexivity.
Qed.

Lemma confirm_idx_within_window_witness :
  (0 <= 1 < len confirm_bars)%Z /\ (0 <= 5)%Z
  /\ exists res,
       confirm_idx balanced confirm_bars 1 UP 5 true = Ok res
       /\ match res with
          | Some i => (1 <= i <= 1 + 5)%Z /\ (i < len confirm_bars)%Z
          | None => true = false
          end.
Proof.
  assert (H1 : (0 <= 1 < len confirm_bars)%Z) by (vm_compute; split; congruence).
  assert (H2 : (0 <= 5)%Z) by lia.
  split; [exact H1|]. split; [exact H2|].
  exact (confirm_idx_within_window balanced confirm_bars 1 UP 5 true H1 H2).
Defined.

(* ====================================================================== *)
(** * Further properties: trade simulator *)
(* ====================================================================== *)

(** With a non-zero risk, an entry index inside the frame and a hold count
    that is not negative, [simulate] returns; the exit lies in the hold
    window and inside the frame, and the excursions have the right signs. *)
Lemma simulate_in_window (df : list Bar) (entry_i : Z) (entry : Q)
    (d : Dir) (stop0 tp1 tp2 : Q) (max_bars : Z) :
  ~ entry == stop0 ->
  (0 <= entry_i < len df)%Z ->
  (0 <= max_bars)%Z ->
  exists out,
    simulate df entry_i entry d stop0 tp1 tp2 max_bars = Ok out
    /\ (entry_i <= x_idx out <= entry_i + max_bars)%Z
    /\ (x_idx out < len df)%Z
    /\ excursions_signed (mae_R out) (mfe_R out).
Proof.
  intros Hne Hi Hm.
  assert (HR : (Qabs (entry - stop0) =? 0) = false)
    by (apply Qabs_eqb_zero; lra).
  unfold simulate, simulate_log.
  set (end_ := Z.min (entry_i + max_bars) (len df - 1)).
  assert (Hend : (0 <= end_ < len df)%Z) by (unfold end_; lia).
  destruct (sim_loop_signed df d entry (Qabs (entry - stop0)) tp1 tp2
              (py_range (entry_i + 1) (end_ + 1))
              (mkSim 1.0 0.0 stop0 entry 0.0 0.0) HR)
    as [e [He Hsig]].
  - intros i Hin. apply in_py_range in Hin. lia.
  - split; cbn [mae mfe]; lra.
  - destruct (sim_loop df d entry (Qabs (entry - stop0)) tp1 tp2
                (py_range (entry_i + 1) (end_ + 1))
                (mkSim 1.0 0.0 stop0 entry 0.0 0.0)) as [ws o].
    cbn [snd] in He |- *. subst o. cbn [bind].
    destruct e as [s'|out].
    + unfold force_close.
      destruct (py_index_in_range df end_ Hend) as [rl Hrl].
      rewrite Hrl. cbn [lift_index bind]. rewrite HR.
      destruct Hsig as [Hae Hfe].
      destruct d; eexists; (split; [reflexivity|]);
        cbn [x_idx mae_R mfe_R];
        (split; [unfold end_; lia|]); (split; [unfold end_; lia|]);
        (split; [exact Hae|eapply Qle_trans; [exact Hfe|apply pymax_l]]).
    + exists out. destruct Hsig as [Hin Hsig].
      apply in_py_range in Hin.
      split; [reflexivity|]. unfold end_ in Hin.
      split; [lia|]. split; [lia|exact Hsig].
Qed.

(** X11.  The exit index [simulate] returns is never before the entry bar
    and never more than [max_bars] bars after it. *)
Theorem simulate_exit_in_hold_window (df : list Bar) (entry_i : Z) (entry : Q)
    (d : Dir) (stop0 tp1 tp2 : Q) (max_bars : Z) :
  ~ entry == stop0 ->
  (0 <= entry_i < len df)%Z ->
  (0 <= max_bars)%Z ->
  exists out,
    simulate df entry_i entry d stop0 tp1 tp2 max_bars = Ok out
    /\ (entry_i <= x_idx out <= entry_i + max_bars)%Z
    /\ (x_idx out < len df)%Z.
Proof.
  intros Hne Hi Hm.
  destruct (simulate_in_window df entry_i entry d stop0 tp1 tp2 max_bars
              Hne Hi Hm) as [out [Hout [Hwin [Hlen _]]]].
  exists out. split; [exact Hout|]. split; [exact Hwin|exact Hlen].
Qed.

Lemma simulate_exit_in_hold_window_witness :
  ~ 100 == 95 /\ (0 <= 0 < len hold_bars)%Z /\ (0 <= 10)%Z
  /\ exists out,
       simulate hold_bars 0 100 UP 95 110 115 10 = Ok out
       /\ (0 <= x_idx out <= 0 + 10)%Z
       /\ (x_idx out < len hold_bars)%Z.
Proof.
  assert (H1 : ~ 100 == 95) by (intros E; vm_compute in E; discriminate E).
  assert (H2 : (0 <= 0 < len hold_bars)%Z) by (vm_compute; split; congruence).
  assert (H3 : (0 <= 10)%Z) by lia.
  split; [exact H1|]. split; [exact H2|]. split; [exact H3|].
  exact (simulate_exit_in_hold_window hold_bars 0 100 UP 95 110 115 10 H1 H2 H3).
Defined.

Lemma track_capped (d : Dir) (entry stop0 R : Q) (r : Bar) (s : SimState) :
  risk_capped d entry stop0 s -> risk_capped d entry stop0 (track d entry R r s).
Proof. unfold risk_capped. destruct d; cbn [track pos realized stop]; tauto. Qed.

Lemma promote_be_capped (d : Dir) (entry stop0 R : Q) (s : SimState) :
  risk_capped d entry stop0 s ->
  risk_capped d entry stop0 (fst (promote_be d entry R s)).
Proof.
  intros Hs. unfold promote_be.
  destruct ((pos s =? 1.0) && _) eqn:E; cbn [fst]; [|exact Hs].
  destruct Hs as [[Hp [Hr Hst]]|[Hp _]].
  - left. cbn [pos realized stop]. split; [exact Hp|]. split; [exact Hr|].
    destruct d.
    + eapply Qle_trans; [exact Hst|apply pymax_l].
    + eapply Qle_trans; [apply pymin_l|exact Hst].
  - rewrite Hp in E. cbn in E. discriminate E.
Qed.

Lemma take_tp1_capped (d : Dir) (entry stop0 tp1 tp2 : Q) (r : Bar)
    (s : SimState) :
  brackets_entry d entry stop0 tp1 tp2 ->
  risk_capped d entry stop0 s ->
  risk_capped d entry stop0 (fst (take_tp1 d entry tp1 r s)).
Proof.
  intros Hb Hs. unfold take_tp1.
  destruct ((pos s =? 1.0) && _) eqn:E; cbn [fst]; [|exact Hs].
  destruct Hs as [[Hp [Hr Hst]]|[Hp _]].
  - right. cbn [pos realized stop]. split; [reflexivity|].
    split; [|reflexivity].
    destruct d; cbn [brackets_entry] in Hb; nra.
  - rewrite Hp in E. cbn in E. discriminate E.
Qed.

Lemma try_exit_capped (d : Dir) (entry stop0 tp1 tp2 : Q) (i : Z) (r : Bar)
    (s : SimState) :
  brackets_entry d entry stop0 tp1 tp2 ->
  risk_capped d entry stop0 s ->
  match try_exit d entry tp2 i r s with
  | Some out => full_stop_loss d entry stop0 <= ps out
  | None => clear_of_stop d r s
  end.
Proof.
  intros Hb Hs. unfold try_exit, full_stop_loss, clear_of_stop.
  destruct d; cbn [brackets_entry] in Hb.
  - destruct (low r <=? stop s) eqn:E1.
    + cbn [ps]. destruct Hs as [[Hp [Hr Hst]]|[Hp [Hr Hst]]]; rewrite Hp; nra.
    + apply Qleb_gt in E1.
      destruct ((pos s =? 0.5) && (tp2 <=? high r)) eqn:E2; [|exact E1].
      cbn [ps]. destruct Hs as [[Hp _]|[Hp [Hr Hst]]].
      * rewrite Hp in E2. cbn in E2. discriminate E2.
      * nra.
  - destruct (stop s <=? high r) eqn:E1.
    + cbn [ps]. destruct Hs as [[Hp [Hr Hst]]|[Hp [Hr Hst]]]; rewrite Hp; nra.
    + apply Qleb_gt in E1.
      destruct ((pos s =? 0.5) && (low r <=? tp2)) eqn:E2; [|exact E1].
      cbn [ps]. destruct Hs as [[Hp _]|[Hp [Hr Hst]]].
      * rewrite Hp in E2. cbn in E2. discriminate E2.
      * nra.
Qed.

Lemma last_cons_cons {A} (a b : A) (t : list A) (dflt : A) :
  last (a :: b :: t) dflt = last (b :: t) dflt.
Proof. reflexivity. Qed.

Lemma sim_loop_capped (df : list Bar) (d : Dir) (entry R stop0 tp1 tp2 : Q) :
  brackets_entry d entry stop0 tp1 tp2 ->
  forall (ixs : list Z) (s : SimState) (e : LoopEnd),
    risk_capped d entry stop0 s ->
    snd (sim_loop df d entry R tp1 tp2 ixs s) = Ok e ->
    match e with
    | Exhausted s' =>
        risk_capped d entry stop0 s'
        /\ (ixs <> [] ->
            exists r, py_index df (last ixs 0%Z) = Some r
                      /\ clear_of_stop d r s')
    | Returned out => full_stop_loss d entry stop0 <= ps out
    end.
Proof.
  intros Hb. induction ixs as [|i rest IH]; intros s e Hs He;
    cbn [sim_loop] in He.
  - cbn [snd] in He. injection He as <-. split; [exact Hs|]. congruence.
  - destruct (py_index df i) as [r|] eqn:Hr; [|discriminate He].
    destruct (R =? 0); [discriminate He|].
    pose proof (promote_be_capped d entry stop0 R _
                  (track_capped d entry stop0 R r s Hs)) as H2.
    destruct (promote_be d entry R (track d entry R r s)) as [s2 w2].
    cbn [fst] in H2.
    pose proof (take_tp1_capped d entry stop0 tp1 tp2 r s2 Hb H2) as H3.
    destruct (take_tp1 d entry tp1 r s2) as [s3 w3].
    cbn [fst] in H3.
    pose proof (try_exit_capped d entry stop0 tp1 tp2 i r s3 Hb H3) as Hx.
    destruct (try_exit d entry tp2 i r s3) as [out|].
    + cbn [snd] in He. injection He as <-. exact Hx.
    + specialize (IH s3 e H3).
      destruct (sim_loop df d entry R tp1 tp2 rest s3) as [ws o] eqn:El.
      cbn [snd] in He, IH. specialize (IH He).
      destruct e as [s'|out]; [|exact IH].
      destruct IH as [Hcap Hlast]. split; [exact Hcap|].
      intros _. destruct rest as [|j rest'].
      * cbn [sim_loop] in El. injection El as _ Ho. subst o.
        injection He as <-. exists r. split; [exact Hr|exact Hx].
      * rewrite last_cons_cons. apply Hlast. discriminate.
Qed.

Lemma last_py_range (a b : Z) :
  (a < b)%Z -> last (py_range a b) 0%Z = (b - 1)%Z.
Proof.
  intros Hab. unfold py_range.
  replace (Z.to_nat (b - a)) with (S (Z.to_nat (b - a - 1))) by lia.
  rewrite seq_S, map_app. cbn [map]. rewrite last_last. lia.
Qed.

(** X12.  A trade whose stop lies on the losing side of the entry price and
    whose targets lie on the winning side, entered at the close of its
    entry bar over bars whose closes lie between their lows and highs,
    never loses more per share than the distance between entry and stop:
    stops fill at the stop price and the forced close follows a bar that
    stayed clear of the stop. *)
Theorem simulate_loss_capped (df : list Bar) (entry_i : Z) (entry : Q)
    (d : Dir) (stop0 tp1 tp2 : Q) (max_bars : Z) (r0 : Bar) :
  brackets_entry d entry stop0 tp1 tp2 ->
  Forall bar_sane df ->
  (0 <= entry_i)%Z ->
  py_index df entry_i = Some r0 ->
  close r0 == entry ->
  (0 <= max_bars)%Z ->
  exists out,
    simulate df entry_i entry d stop0 tp1 tp2 max_bars = Ok out
    /\ - Qabs (entry - stop0) <= ps out.
Proof.
  intros Hb Hsane Hi0 Hr0 Hclose Hm.
  assert (Hi : (0 <= entry_i < len df)%Z)
    by (split; [exact Hi0|apply (py_index_Some_lt df entry_i r0 Hi0 Hr0)]).
  assert (Hne : ~ entry == stop0)
    by (destruct d; cbn [brackets_entry] in Hb; lra).
  assert (Hfloor : - Qabs (entry - stop0) == full_stop_loss d entry stop0).
  { unfold full_stop_loss.
    destruct d; cbn [brackets_entry] in Hb; apply Qabs_case; intros; lra. }
  destruct (simulate_returns df entry_i entry d stop0 tp1 tp2 max_bars
              Hne Hi Hm) as [out [Hout _]].
  exists out. split; [exact Hout|]. rewrite Hfloor.
  unfold simulate, simulate_log in Hout.
  set (end_ := Z.min (entry_i + max_bars) (len df - 1)) in Hout.
  set (s0 := mkSim 1.0 0.0 stop0 entry 0.0 0.0) in Hout.
  assert (Hs0 : risk_capped d entry stop0 s0).
  { left. cbn [s0 pos realized stop]. split; [reflexivity|].
    split; [reflexivity|]. destruct d; lra. }
  pose proof (sim_loop_capped df d entry (Qabs (entry - stop0)) stop0 tp1 tp2
                Hb (py_range (entry_i + 1) (end_ + 1)) s0) as Hloop.
  destruct (sim_loop df d entry (Qabs (entry - stop0)) tp1 tp2
              (py_range (entry_i + 1) (end_ + 1)) s0) as [ws o].
  cbn [snd] in Hout, Hloop.
  destruct o as [e|ex]; [|discriminate Hout].
  specialize (Hloop e Hs0 eq_refl). cbn [bind] in Hout.
  destruct e as [s'|out'].
  - destruct Hloop as [Hcap Hlast].
    unfold force_close in Hout.
    destruct (py_index df end_) as [rl|] eqn:Hrl; [|discriminate Hout].
    cbn [lift_index bind] in Hout.
    destruct (Qabs (entry - stop0) =? 0); [discriminate Hout|].
    assert (Hps : ps out
                  = realized s' + full_stop_loss d entry (close rl) * pos s').
    { destruct d; injection Hout as <-; reflexivity. }
    rewrite Hps. clear Hout Hps.
    assert (Hrl_sane : bar_sane rl).
    { rewrite Forall_forall in Hsane. apply Hsane.
      assert (Hend : (0 <= end_ < len df)%Z) by (unfold end_; lia).
      rewrite py_index_nat in Hrl by exact Hend.
      eapply nth_error_In. exact Hrl. }
    destruct (Z_lt_le_dec entry_i end_) as [Hlt|Hge].
    + destruct Hlast as [r [Hr Hclear]].
      { rewrite py_range_cons by lia. discriminate. }
      rewrite last_py_range in Hr by lia.
      replace (end_ + 1 - 1)%Z with end_ in Hr by lia.
      rewrite Hrl in Hr. injection Hr as <-.
      destruct Hrl_sane as [Hlo Hhi].
      unfold full_stop_loss, clear_of_stop in *.
      destruct d; cbn [brackets_entry] in Hb;
        destruct Hcap as [[Hp [Hre Hst]]|[Hp [Hre Hst]]]; rewrite Hp; nra.
    + assert (Heq : end_ = entry_i) by (unfold end_ in *; lia).
      rewrite Heq in Hrl. rewrite Hr0 in Hrl. injection Hrl as <-.
      clear Hlast. unfold full_stop_loss.
      destruct d; cbn [brackets_entry] in Hb;
        destruct Hcap as [[Hp [Hre Hst]]|[Hp [Hre Hst]]]; rewrite Hp; nra.
  - injection Hout as <-. exact Hloop.
Qed.

Lemma simulate_loss_capped_witness :
  brackets_entry UP 100 95 110 115
  /\ Forall bar_sane be_bars
  /\ (0 <= 0)%Z
  /\ py_index be_bars 0 = Some (mkBar 0 100 100 100 100 100 100 1 1)
  /\ close (mkBar 0 100 100 100 100 100 100 1 1) == 100
  /\ (0 <= 10)%Z
  /\ exists out,
       simulate be_bars 0 100 UP 95 110 115 10 = Ok out
       /\ - Qabs (100 - 95) <= ps out.
Proof.
  assert (H1 : brackets_entry UP 100 95 110 115)
    by (cbn; repeat split; vm_compute; congruence).
  assert (H2 : Forall bar_sane be_bars)
    by (repeat constructor; vm_compute; congruence).
  assert (H3 : (0 <= 0)%Z) by lia.
  assert (H4 : py_index be_bars 0 = Some (mkBar 0 100 100 100 100 100 100 1 1))
    by reflexivity.
  assert (H5 : close (mkBar 0 100 100 100 100 100 100 1 1) == 100)
    by reflexivity.
  assert (H6 : (0 <= 10)%Z) by lia.
  split; [exact H1|]. split; [exact H2|]. split; [exact H3|].
  split; [exact H4|]. split; [exact H5|]. split; [exact H6|].
  exact (simulate_loss_capped be_bars 0 100 UP 95 110 115 10 _ H1 H2 H3 H4 H5 H6).
Defined.

(* ====================================================================== *)
(** * Further properties: risk sizing and equity accounting *)
(* ====================================================================== *)

Lemma py_int_ge_1 (x : Q) : 1 <= x -> (1 <= py_int x)%Z.
Proof.
  destruct x as [n d]. unfold Qle, py_int. cbn [Qnum Qden]. intros Hx.
  apply Z.quot_le_lower_bound; lia.
Qed.

Lemma py_int_le (x : Q) (n : Z) :
  x <= inject_Z n -> (py_int x <= n)%Z.
Proof.
  destruct x as [a d]. unfold Qle, py_int, inject_Z. cbn [Qnum Qden].
  intros Hx. apply Z.quot_le_upper_bound; lia.
Qed.

Section Accounting.

Context {X : External}.

(** X13.  The volatility multiplier of the risk is never below 0.4 and
    never above 1.6, whatever the trade returns and numpy's deviation. *)
Theorem vol_adjustment_bounded (cfg : Config) (rets : list Q) :
  0.4 <= _vol_adjustment cfg rets <= 1.6.
Proof.
  unfold _vol_adjustment.
  destruct (negb (get (USE_VOL_TARGET cfg) false)); [lra|].
  destruct (len rets <? 5)%Z; [lra|].
  destruct (np_std _) as [s|].
  - destruct (s <=? 1e-9); [lra|].
    split; [apply pymax_l|].
    apply pymax_lub; [lra|apply pymin_l].
  - split; [apply pymax_l|apply pymax_lub; lra].
Qed.

Lemma sized_ge_1 (cfg : Config) (thr : Q) (a : Account)
    (sim : SimTrade Features) (p : option Q) :
  (1 <= sized cfg thr a sim p)%Z.
Proof. unfold sized. apply py_int_ge_1, pymax_l. Qed.

(** What a call of [add] that returns has done: nothing, under the hard
    stop, or one trade booked. *)
Lemma add_cases (cfg : Config) (h1 : list Bar) (thr : Q) (a a' : Account)
    (sim : SimTrade Features) (p : option Q) :
  add cfg h1 thr a sim p = Ok a' ->
  a' = a
  \/ exists t,
       trades a' = trades a ++ [t]
       /\ prob t = p /\ tr_time_in t = time_in sim
       /\ size t = sized cfg thr a sim p
       /\ pnl t = per_share sim * inject_Z (size t)
       /\ cap a' = cap a + pnl t
       /\ highest_global a' = pymax (highest_global a) (cap a').
Proof.
  unfold add. destruct (hard_stopped cfg a).
  - intros E. injection E as <-. now left.
  - destruct (map_time h1 (time_out sim)) as [mt|e]; [|discriminate].
    cbn [bind]. intros E. injection E as <-. right.
    eexists. cbn [trades cap highest_global].
    split; [reflexivity|]. cbn [prob tr_time_in size pnl].
    repeat split; reflexivity.
Qed.

Lemma account_fold_raise (cfg : Config) (h1 : list Bar) (g : Gate)
    (train_until : Z) (sims : list (SimTrade Features)) (e : Exn) :
  fold_left (fun acc sim => a <- acc ;; account_one cfg h1 g train_until a sim)
            sims (Raise e)
  = Raise e.
Proof. induction sims as [|s t IH]; cbn [fold_left bind]; [reflexivity|exact IH]. Qed.

(** An invariant of [account_one] is an invariant of the accounting loop. *)
Lemma account_all_invariant (P : Account -> Prop) (cfg : Config)
    (h1 : list Bar) (g : Gate) (train_until : Z) :
  (forall a sim a',
      P a -> account_one cfg h1 g train_until a sim = Ok a' -> P a') ->
  forall sims a0 a,
    P a0 -> account_all cfg h1 g train_until sims a0 = Ok a -> P a.
Proof.
  intros Hstep. unfold account_all.
  induction sims as [|s t IH]; intros a0 a H0 Hall; cbn [fold_left] in Hall.
  - injection Hall as <-. exact H0.
  - cbn [bind] in Hall.
    destruct (account_one cfg h1 g train_until a0 s) as [a1|e] eqn:E1.
    + apply (IH a1 a); [apply (Hstep a0 s a1 H0 E1)|exact Hall].
    + rewrite account_fold_raise in Hall. discriminate Hall.
Qed.

Lemma account_one_cases (cfg : Config) (h1 : list Bar) (g : Gate)
    (train_until : Z) (a a' : Account) (sim : SimTrade Features) :
  account_one cfg h1 g train_until a sim = Ok a' ->
  a' = a
  \/ exists p, gate_verdict g train_until sim = Some p
               /\ add cfg h1 (threshold g) a sim p = Ok a'.
Proof.
  unfold account_one.
  destruct (gate_verdict g train_until sim) as [p|].
  - intros E. right. exists p. split; [reflexivity|exact E].
  - intros E. injection E as <-. now left.
Qed.

(** X14.  Every trade the accounting loop books has a size of at least one
    share, however small the risk budget and however large the risk per
    share. *)
Theorem booked_sizes_at_least_one (cfg : Config) (h1 : list Bar) (g : Gate)
    (train_until : Z) (sims : list (SimTrade Features)) (a : Account) :
  account_all cfg h1 g train_until sims (initial_account cfg) = Ok a ->
  Forall (fun t => (1 <= size t)%Z) (trades a).
Proof.
  apply (account_all_invariant
           (fun a => Forall (fun t => (1 <= size t)%Z) (trades a))).
  - intros a0 sim a' H0 E.
    destruct (account_one_cases _ _ _ _ _ _ _ E) as [->|[p [_ Eadd]]];
      [exact H0|].
    destruct (add_cases _ _ _ _ _ _ _ Eadd)
      as [->|[t [Ht [_ [_ [Hsz _]]]]]]; [exact H0|].
    rewrite Ht. apply Forall_app. split; [exact H0|].
    constructor; [|constructor]. rewrite Hsz. apply sized_ge_1.
  - constructor.
Qed.

(** X15.  After the accounting loop the running peak is at or above both
    the capital and the starting capital. *)
Theorem peak_dominates_capital (cfg : Config) (h1 : list Bar) (g : Gate)
    (train_until : Z) (sims : list (SimTrade Features)) (a : Account) :
  account_all cfg h1 g train_until sims (initial_account cfg) = Ok a ->
  cap a <= highest_global a /\ START_CAPITAL cfg <= highest_global a.
Proof.
  apply (account_all_invariant
           (fun a => cap a <= highest_global a
                     /\ START_CAPITAL cfg <= highest_global a)).
  - intros a0 sim a' [H0 H1] E.
    destruct (account_one_cases _ _ _ _ _ _ _ E) as [->|[p [_ Eadd]]];
      [split; assumption|].
    destruct (add_cases _ _ _ _ _ _ _ Eadd)
      as [->|[t [_ [_ [_ [_ [_ [_ Hhi]]]]]]]]; [split; assumption|].
    rewrite Hhi. split; [apply pymax_r|].
    eapply Qle_trans; [exact H1|apply pymax_l].
  - cbn [initial_account cap highest_global]. split; lra.
Qed.

Lemma total_pnl_snoc (l : list Trade) (t : Trade) :
  total_pnl (l ++ [t]) == total_pnl l + pnl t.
Proof.
  unfold total_pnl. induction l as [|x r IH]; cbn [app map fold_right].
  - lra.
  - rewrite IH. lra.
Qed.

(** X16.  The capital the accounting loop ends with is the starting capital
    plus the sum of the results of the booked trades, and each booked
    result is the per-share result times the size. *)
Theorem capital_is_start_plus_pnl (cfg : Config) (h1 : list Bar) (g : Gate)
    (train_until : Z) (sims : list (SimTrade Features)) (a : Account) :
  account_all cfg h1 g train_until sims (initial_account cfg) = Ok a ->
  cap a == START_CAPITAL cfg + total_pnl (trades a).
Proof.
  apply (account_all_invariant
           (fun a => cap a == START_CAPITAL cfg + total_pnl (trades a))).
  - intros a0 sim a' H0 E.
    destruct (account_one_cases _ _ _ _ _ _ _ E) as [->|[p [_ Eadd]]];
      [exact H0|].
    destruct (add_cases _ _ _ _ _ _ _ Eadd)
      as [->|[t [Ht [_ [_ [_ [_ [Hcap _]]]]]]]]; [exact H0|].
    rewrite Ht, Hcap, total_pnl_snoc, H0. lra.
  - cbn [initial_account cap trades]. unfold total_pnl. cbn. lra.
Qed.

Lemma gate_verdict_cases (g : Gate) (train_until : Z)
    (sim : SimTrade Features) (p : option Q) :
  gate_verdict g train_until sim = Some p ->
  match p with
  | Some pr =>
      model g <> None /\ threshold g <= pr /\ (train_until < time_in sim)%Z
  | None => (time_in sim <= train_until)%Z \/ model g = None
  end.
Proof.
  unfold gate_verdict.
  destruct (time_in sim <=? train_until)%Z eqn:Et.
  - intros E. injection E as <-. left. lia.
  - destruct (model g) as [m|] eqn:Em.
    + destruct (threshold g <=? predict_proba m (features sim)) eqn:Ep;
        [|discriminate].
      intros E. injection E as <-.
      split; [discriminate|]. split; [apply Qleb_le, Ep|lia].
    + intros E. injection E as <-. now right.
Qed.

(** X17.  Every trade of the book respects the probability gate: a trade
    booked with a probability was entered after the split and its
    probability is at or above the threshold; a trade booked without one
    was entered up to the split, or no classifier exists. *)
Theorem book_respects_gate (cfg : Config) (h1 : list Bar) (g : Gate)
    (train_until : Z) (sims : list (SimTrade Features)) (a : Account) :
  account_all cfg h1 g train_until sims (initial_account cfg) = Ok a ->
  Forall (booked_by_gate g train_until) (trades a).
Proof.
  apply (account_all_invariant
           (fun a => Forall (booked_by_gate g train_until) (trades a))).
  - intros a0 sim a' H0 E.
    destruct (account_one_cases _ _ _ _ _ _ _ E) as [->|[p [Hv Eadd]]];
      [exact H0|].
    destruct (add_cases _ _ _ _ _ _ _ Eadd)
      as [->|[t [Ht [Hp [Htime _]]]]]; [exact H0|].
    rewrite Ht. apply Forall_app. split; [exact H0|].
    constructor; [|constructor].
    unfold booked_by_gate. rewrite Hp, Htime.
    apply gate_verdict_cases, Hv.
  - constructor.
Qed.

(** X18.  The hard stop latches: from an account whose drawdown has
    reached the configured stop, no candidate changes anything, for the
    capital and the peak that would lift the stop only move in [add]. *)
Theorem hard_stop_latches (cfg : Config) (h1 : list Bar) (g : Gate)
    (train_until : Z) (sims : list (SimTrade Features)) (a : Account) :
  hard_stopped cfg a = true ->
  account_all cfg h1 g train_until sims a = Ok a.
Proof.
  intros Hstop. unfold account_all.
  induction sims as [|s t IH]; cbn [fold_left bind]; [reflexivity|].
  assert (E : account_one cfg h1 g train_until a s = Ok a).
  { unfold account_one. destruct (gate_verdict g train_until s); [|reflexivity].
    unfold add. rewrite Hstop. reflexivity. }
  rewrite E. exact IH.
Qed.

End Accounting.

Lemma booked_sizes_at_least_one_witness :
  exists a,
    @account_all no_learning balanced be_bars (@mkGate no_learning None 0.5) 10 seventeen
                 (initial_account balanced) = Ok a
    /\ Forall (fun t => (1 <= size t)%Z) (trades a).
Proof.
  eexists. split; [vm_compute; reflexivity|].
  apply (@booked_sizes_at_least_one no_learning balanced be_bars
           (@mkGate no_learning None 0.5) 10 seventeen).
  vm_compute. reflexivity.
Defined.

Lemma peak_dominates_capital_witness :
  exists a,
    @account_all no_learning balanced be_bars (@mkGate no_learning None 0.5) 10 seventeen
                 (initial_account balanced) = Ok a
    /\ cap a <= highest_global a /\ START_CAPITAL balanced <= highest_global a.
Proof.
  eexists. split; [vm_compute; reflexivity|].
  apply (@peak_dominates_capital no_learning balanced be_bars
           (@mkGate no_learning None 0.5) 10 seventeen).
  vm_compute. reflexivity.
Defined.

Lemma capital_is_start_plus_pnl_witness :
  exists a,
    @account_all no_learning balanced be_bars (@mkGate no_learning None 0.5) 10 seventeen
                 (initial_account balanced) = Ok a
    /\ cap a == START_CAPITAL balanced + total_pnl (trades a).
Proof.
  eexists. split; [vm_compute; reflexivity|].
  apply (@capital_is_start_plus_pnl no_learning balanced be_bars
           (@mkGate no_learning None 0.5) 10 seventeen).
  vm_compute. reflexivity.
Defined.

Lemma book_respects_gate_witness :
  exists a,
    @account_all fitted balanced be_bars (@mkGate fitted (Some tt) 0.25) 0 four_oos
                 (initial_account balanced) = Ok a
    /\ Forall (@booked_by_gate fitted (@mkGate fitted (Some tt) 0.25) 0) (trades a).
Proof.
  eexists. split; [vm_compute; reflexivity|].
  apply (@book_respects_gate fitted balanced be_bars
           (@mkGate fitted (Some tt) 0.25) 0 four_oos).
  vm_compute. reflexivity.
Defined.

Lemma hard_stop_latches_witness :
  hard_stopped balanced stopped_account = true
  /\ @account_all no_learning balanced be_bars (@mkGate no_learning None 0.5) 10 seventeen
                  stopped_account = Ok stopped_account.
Proof.
  assert (Hs : hard_stopped balanced stopped_account = true)
    by (vm_compute; reflexivity).
  split; [exact Hs|].
  exact (@hard_stop_latches no_learning balanced be_bars (@mkGate no_learning None 0.5) 10
           seventeen stopped_account Hs).
Defined.

Lemma find_app_split {A} (p : A -> bool) (l1 l2 : list A) :
  find p (l1 ++ l2)
  = match find p l1 with
    | Some x => Some x
    | None => find p l2
    end.
Proof.
  induction l1 as [|x t IH]; cbn [app find]; [reflexivity|].
  destruct (p x); [reflexivity|exact IH].
Qed.

(** A loop that overwrites its result at every element that passes a test
    ends with the value of the last such element. *)
Lemma fold_overwrite_last {A B} (p : A -> bool) (f : A -> B) (l : list A) :
  forall acc,
    fold_left (fun m x => if p x then f x else m) l acc
    = match find p (rev l) with
      | Some x => f x
      | None => acc
      end.
Proof.
  induction l as [|x t IH]; intros acc; cbn [fold_left rev]; [reflexivity|].
  rewrite IH, find_app_split.
  destruct (find p (rev t)); [reflexivity|].
  cbn [find]. destruct (p x); reflexivity.
Qed.

Lemma find_rev_split {A} (p : A -> bool) (l : list A) (x : A) :
  find p (rev l) = Some x ->
  exists l1 l2, l = l1 ++ x :: l2 /\ p x = true
                /\ Forall (fun y => p y = false) l2.
Proof.
  induction l as [|y t IH] using rev_ind; [discriminate|].
  rewrite rev_app_distr. cbn [rev app find].
  destruct (p y) eqn:Ey.
  - intros E. injection E as <-. exists t, []. repeat split; [exact Ey|constructor].
  - intros E. destruct (IH E) as [l1 [l2 [-> [Hx Hl2]]]].
    exists l1, (l2 ++ [y]). split; [rewrite <- app_assoc; reflexivity|].
    split; [exact Hx|].
    apply Forall_app. split; [exact Hl2|constructor; [exact Ey|constructor]].
Qed.

Lemma find_none_all {A} (p : A -> bool) (l : list A) :
  find p l = None -> Forall (fun y => p y = false) l.
Proof.
  induction l as [|y t IH]; cbn [find]; [constructor|].
  destruct (p y) eqn:Ey; [discriminate|].
  intros E. constructor; [exact Ey|apply IH, E].
Qed.

Lemma sorted_app_before {A} (R : A -> A -> Prop) (l1 l2 : list A) (x : A) :
  StronglySorted R (l1 ++ x :: l2) -> Forall (fun y => R y x) l1.
Proof.
  induction l1 as [|y t IH]; cbn [app]; intros Hs; [constructor|].
  inversion Hs as [|? ? Ht Hy]; subst.
  constructor; [|apply IH, Ht].
  rewrite Forall_forall in Hy. apply Hy, in_elt.
Qed.

(** X19.  With the dynamic drawdown table switched on, the risk multiplier
    is the one of the breached step with the largest threshold, that is of
    the shallowest breached drawdown tier: the loop walks the table by
    ascending threshold and overwrites the multiplier at every breached
    step.  With no step breached it is 1. *)
Theorem risk_multiplier_shallowest_step (cfg : Config) (steps : list (Q * Q))
    (cur_dd : Q) :
  DYNAMIC_DD_RISK cfg = Some true ->
  DD_RISK_STEPS cfg = Some steps ->
  (forall tm, shallowest_breached steps cur_dd tm ->
              _risk_multiplier_for_dd cfg cur_dd = snd tm)
  /\ ((forall tm, In tm steps -> fst tm < cur_dd) ->
      _risk_multiplier_for_dd cfg cur_dd = 1.0).
Proof.
  intros Hdyn Hsteps. unfold _risk_multiplier_for_dd.
  rewrite Hdyn, Hsteps. cbn [get negb].
  rewrite (fold_overwrite_last (fun tm => cur_dd <=? fst tm) snd).
  split.
  - intros tm [Hin [Hbr Hmax]].
    destruct (find _ (rev (sort_by step_leb steps))) as [x|] eqn:Ef.
    + destruct (find_rev_split _ _ _ Ef) as [l1 [l2 [Hl [Hx Hl2]]]].
      apply Qleb_le in Hx.
      assert (Hxin : In x steps).
      { apply (In_sort_by step_leb). rewrite Hl. apply in_elt. }
      destruct (Hmax x Hxin Hx) as [Hlt | ->]; [|reflexivity].
      exfalso.
      assert (Htm : In tm (l1 ++ x :: l2))
        by (rewrite <- Hl; apply In_sort_by, Hin).
      apply in_app_or in Htm. destruct Htm as [H1|[->|H2]].
      * assert (Hs : StronglySorted (fun a b => step_leb a b = true)
                                    (l1 ++ x :: l2)).
        { rewrite <- Hl. apply sort_by_sorted.
          - intros a b Hab. unfold step_leb in *.
            apply Qleb_gt in Hab. apply Qleb_le. lra.
          - intros a b c Hab Hbc. unfold step_leb in *.
            apply Qleb_le in Hab, Hbc. apply Qleb_le. lra. }
        apply sorted_app_before in Hs. rewrite Forall_forall in Hs.
        specialize (Hs tm H1). unfold step_leb in Hs.
        apply Qleb_le in Hs. lra.
      * lra.
      * rewrite Forall_forall in Hl2. specialize (Hl2 tm H2).
        apply Qleb_gt in Hl2. lra.
    + exfalso. apply find_none_all in Ef. rewrite Forall_forall in Ef.
      assert (Htm : In tm (rev (sort_by step_leb steps)))
        by (rewrite <- In_rev; apply In_sort_by, Hin).
      specialize (Ef tm Htm). apply Qleb_gt in Ef. lra.
  - intros Hnone.
    destruct (find _ (rev (sort_by step_leb steps))) as [x|] eqn:Ef;
      [|reflexivity].
    exfalso. apply find_some in Ef. destruct Ef as [Hin Hx].
    rewrite <- In_rev in Hin. apply In_sort_by in Hin.
    apply Qleb_le in Hx. specialize (Hnone x Hin). lra.
Qed.

Lemma risk_multiplier_shallowest_step_witness :
  DYNAMIC_DD_RISK balanced = Some true
  /\ DD_RISK_STEPS balanced
     = Some [(-10, 0.75); (-20, 0.5); (-30, 0.35); (-40, 0.25)]
  /\ shallowest_breached [(-10, 0.75); (-20, 0.5); (-30, 0.35); (-40, 0.25)]
                         (-45) (-10, 0.75)
  /\ _risk_multiplier_for_dd balanced (-45) = 0.75.
Proof.
  assert (H1 : DYNAMIC_DD_RISK balanced = Some true) by reflexivity.
  assert (H2 : DD_RISK_STEPS balanced
               = Some [(-10, 0.75); (-20, 0.5); (-30, 0.35); (-40, 0.25)])
    by reflexivity.
  assert (H3 : shallowest_breached
                 [(-10, 0.75); (-20, 0.5); (-30, 0.35); (-40, 0.25)]
                 (-45) (-10, 0.75)).
  { split; [now left|]. split; [vm_compute; discriminate|].
    intros tm' [ <- | [ <- | [ <- | [ <- | [] ] ] ] ] _;
      [right; reflexivity|left; reflexivity..]. }
  split; [exact H1|]. split; [exact H2|]. split; [exact H3|].
  exact (proj1 (risk_multiplier_shallowest_step balanced _ (-45) H1 H2)
               (-10, 0.75) H3).
Defined.

(** X20.  With sizing by probability switched on, the scale applied to the
    size of a trade booked with a probability of at most 1 lies between
    [PROB_SIZE_MIN] and [PROB_SIZE_MAX]. *)
Theorem prob_scale_bounded (cfg : Config) (thr pr : Q) :
  PROB_SIZE_MIN cfg <= PROB_SIZE_MAX cfg ->
  pr <= 1 ->
  SIZE_BY_PROB cfg = true ->
  PROB_SIZE_MIN cfg <= prob_scale cfg thr (Some pr) <= PROB_SIZE_MAX cfg.
Proof.
  intros Hband Hpr Hby. unfold prob_scale. rewrite Hby.
  set (D := pymax 1e-6 (1 - thr)).
  assert (HD : 0 < D)
    by (apply Qlt_le_trans with 1e-6; [reflexivity|apply pymax_l]).
  assert (HD1 : 1 - thr <= D) by apply pymax_r.
  set (frac := pymax 0.0 ((pr - thr) / D)).
  assert (Hf0 : 0 <= frac)
    by (apply Qle_trans with 0.0; [lra|apply pymax_l]).
  assert (Hf1 : frac <= 1).
  { apply pymax_lub; [lra|].
    apply Qle_shift_div_r; [exact HD|]. lra. }
  split; nra.
Qed.

Lemma prob_scale_bounded_witness :
  PROB_SIZE_MIN balanced <= PROB_SIZE_MAX balanced
  /\ 0.8 <= 1
  /\ SIZE_BY_PROB balanced = true
  /\ PROB_SIZE_MIN balanced <= prob_scale balanced 0.5 (Some 0.8)
     <= PROB_SIZE_MAX balanced.
Proof.
  assert (H1 : PROB_SIZE_MIN balanced <= PROB_SIZE_MAX balanced)
    by (vm_compute; discriminate).
  assert (H2 : 0.8 <= 1) by (vm_compute; discriminate).
  assert (H3 : SIZE_BY_PROB balanced = true) by reflexivity.
  split; [exact H1|]. split; [exact H2|]. split; [exact H3|].
  exact (prob_scale_bounded balanced 0.5 0.8 H1 H2 H3).
Defined.

(** X21.  The equity series has one snapshot per 1H bar, in the order and
    with the timestamps of the bars, and no snapshot shows a positive
    drawdown. *)
Theorem equity_curve_follows_bars (cfg : Config) (h1 : list Bar)
    (m : list (Z * Q)) :
  map snap_date (equity_curve cfg h1 m) = map date h1
  /\ Forall (fun s => dd s <= 0) (equity_curve cfg h1 m).
Proof.
  unfold equity_curve.
  assert (Hgen : forall l st,
             Forall (fun s => dd s <= 0) (snd st) ->
             map snap_date (snd (fold_left (equity_step m) l st))
             = map snap_date (snd st) ++ l
             /\ Forall (fun s => dd s <= 0)
                       (snd (fold_left (equity_step m) l st))).
  { induction l as [|ts t IH]; intros st Hst; cbn [fold_left].
    - rewrite app_nil_r. split; [reflexivity|exact Hst].
    - destruct st as [[highest cur] eq]. cbn [snd] in Hst.
      set (cur' := get (eq_map_get m ts) cur).
      set (highest' := pymax highest cur').
      assert (Hdd : (cur' - highest') / pymax highest' 1e-9 * 100 <= 0).
      { assert (Hden : 0 < pymax highest' 1e-9)
          by (apply Qlt_le_trans with 1e-9; [reflexivity|apply pymax_r]).
        assert (Hnum : cur' <= highest') by apply pymax_r.
        assert (Hq : (cur' - highest') / pymax highest' 1e-9 <= 0)
          by (apply Qle_shift_div_r; [exact Hden|lra]).
        lra. }
      destruct (IH (equity_step m (highest, cur, eq) ts)) as [Hd Hf].
      + cbn [equity_step snd]. apply Forall_app. split; [exact Hst|].
        constructor; [exact Hdd|constructor].
      + split; [|exact Hf].
        rewrite Hd. cbn [equity_step snd]. rewrite map_app.
        cbn [map snap_date]. rewrite <- app_assoc. reflexivity. }
  destruct (Hgen (map date h1) (START_CAPITAL cfg, START_CAPITAL cfg, []))
    as [Hd Hf]; [constructor|].
  split; [exact Hd|exact Hf].
Qed.

(* ====================================================================== *)
(** * Further properties: chronological split and the run *)
(* ====================================================================== *)

Section Running.

Context {X : External}.

Lemma split_time_total (cfg : Config) (sims : list (SimTrade Features)) :
  sims <> [] ->
  TRAIN_FRAC cfg <= 1 ->
  exists tu, split_time cfg sims = Ok tu
             /\ In tu (sort_by Z.leb (map time_in sims)).
Proof.
  intros Hne Hfrac. unfold split_time.
  set (times := sort_by Z.leb (map time_in sims)).
  assert (Hn : (1 <= len times)%Z).
  { unfold times. rewrite len_sort. unfold len. rewrite length_map.
    destruct sims; [congruence|cbn [length]; lia]. }
  set (k := py_int (inject_Z (len times) * TRAIN_FRAC cfg)).
  assert (Hk : (k <= len times)%Z).
  { apply py_int_le.
    assert (H0 : 0 <= inject_Z (len times))
      by (change 0 with (inject_Z 0); rewrite <- Zle_Qle; lia).
    nra. }
  destruct (py_index_in_range times (Z.max 1 k - 1)) as [tu Htu]; [lia|].
  exists tu. rewrite Htu. split; [reflexivity|].
  rewrite py_index_nat in Htu by lia.
  eapply nth_error_In. exact Htu.
Qed.

(** X22.  For a training fraction of at most 1 the chronological split of
    a non-empty candidate list never raises; the split time is the entry
    time of one of the candidates, so the training set is not empty. *)
Theorem split_time_in_sample (cfg : Config) (sims : list (SimTrade Features)) :
  sims <> [] ->
  TRAIN_FRAC cfg <= 1 ->
  exists tu,
    split_time cfg sims = Ok tu
    /\ (exists s, In s sims /\ time_in s = tu)
    /\ train_set tu sims <> [].
Proof.
  intros Hne Hfrac.
  destruct (split_time_total cfg sims Hne Hfrac) as [tu [Htu Hin]].
  apply In_sort_by in Hin. apply in_map_iff in Hin.
  destruct Hin as [s [Hs Hsin]].
  exists tu. split; [exact Htu|]. split; [exists s; split; assumption|].
  intros Hempty.
  assert (Hin : In s (train_set tu sims)).
  { unfold train_set. apply filter_In. split; [exact Hsin|]. lia. }
  rewrite Hempty in Hin. exact Hin.
Qed.







End Running.

Lemma split_time_in_sample_witness :
  seventeen <> []
  /\ TRAIN_FRAC balanced <= 1
  /\ exists tu,
       @split_time no_learning balanced seventeen = Ok tu
       /\ (exists s, In s seventeen /\ time_in s = tu)
       /\ @train_set no_learning tu seventeen <> [].
Proof.
  assert (H1 : seventeen <> []) by (vm_compute; discriminate).
  assert (H2 : TRAIN_FRAC balanced <= 1) by (vm_compute; discriminate).
  split; [exact H1|]. split; [exact H2|].
  exact (@split_time_in_sample no_learning balanced seventeen H1 H2).
Defined.


(* ====================================================================== *)
(** * Further properties: candidate simulation *)
(* ====================================================================== *)

Lemma first_touch_in_frame (df : list Bar) (start_ts : Z) (zone : Q * Q)
    (window : Z) :
  exists res,
    first_touch df start_ts zone window = Ok res
    /\ forall i, res = Some i -> (0 <= i < len df)%Z.
Proof.
  unfold first_touch.
  pose proof (idx_from_time_start df start_ts) as Hstart.
  destruct (idx_from_time df start_ts) as [start_i|];
    [|exists None; split; [reflexivity|discriminate]].
  set (end_i := Z.min (start_i + window) (len df - 1)).
  destruct (touch_scan_range df zone (end_i + 1) _ start_i eq_refl)
    as [res [Hres Hspec]]; [lia|unfold end_i; lia|].
  exists res. split; [exact Hres|].
  intros i ->. destruct Hspec as [Hi _]. unfold end_i in Hi. lia.
Qed.

Lemma confirm_idx_in_frame (cfg : Config) (df : list Bar) (touch_i : Z)
    (d : Dir) (bars : Z) (allow_touch : bool) :
  (0 <= touch_i < len df)%Z ->
  (0 <= bars)%Z ->
  exists res,
    confirm_idx cfg df touch_i d bars allow_touch = Ok res
    /\ forall i, res = Some i -> (0 <= i < len df)%Z.
Proof.
  intros Ht Hb. unfold confirm_idx.
  destruct (negb (REQUIRE_CONFIRM cfg)).
  - exists (Some touch_i). split; [reflexivity|].
    intros i E. injection E as <-. exact Ht.
  - destruct (py_index_in_range df (Z.max 0 (touch_i - 1))) as [pb Hpb]; [lia|].
    rewrite Hpb. cbn [lift_index bind].
    set (end_ := Z.min (touch_i + bars) (len df - 1)).
    destruct (confirm_scan_total cfg df d (high pb) (low pb)
                (py_range touch_i (end_ + 1))) as [found Hfound].
    { intros i Hi. apply in_py_range in Hi. unfold end_ in Hi. lia. }
    rewrite Hfound. cbn [bind].
    pose proof (confirm_scan_first cfg df d pb (end_ + 1) _ touch_i found
                  eq_refl Hfound) as Hspec.
    destruct found as [i|].
    + exists (Some i). split; [reflexivity|].
      intros k E. injection E as <-.
      destruct Hspec as [Hi _]. unfold end_ in Hi. lia.
    + eexists. split; [reflexivity|].
      intros k E. destruct allow_touch; [|discriminate E].
      injection E as <-. unfold end_. lia.
Qed.

Section CandidateSimulation.

Context {X : External}.

Lemma enter_spec (cfg : Config) (df : list Bar) (sp : Setup) (e_idx : Z)
    (st : Candidates) :
  (0 <= e_idx < len df)%Z ->
  (0 <= max_hold_of cfg (entry_tf sp))%Z ->
  exists st', enter cfg df sp e_idx st = Ok st' /\ setup_step cfg st st'.
Proof.
  intros He Hhold. unfold enter.
  destruct (py_index_in_range df e_idx He) as [r Hr].
  rewrite Hr. cbn [lift_index bind].
  destruct (Qabs (close r - entry_stop cfg sp r) <=? 1e-9) eqn:Erps.
  - exists st. split; [reflexivity|].
    left. repeat split; lia.
  - apply Qleb_gt in Erps.
    assert (Hne : ~ close r == entry_stop cfg sp r).
    { assert (H9 : 0 < 1e-9) by reflexivity.
      intros E. revert Erps. apply Qabs_case; intros; lra. }
    destruct (simulate_in_window df e_idx (close r) (sp_direction sp)
                (entry_stop cfg sp r) (sp_tp1 sp) (sp_tp2 sp)
                (max_hold_of cfg (entry_tf sp)) Hne He Hhold)
      as [out [Hout [Hwin [Hlen [Hae Hfe]]]]].
    unfold max_hold_of in Hout. rewrite Hout. cbn [bind].
    destruct (py_index_in_range df (x_idx out)) as [rx Hrx]; [lia|].
    rewrite Hrx. cbn [lift_index bind].
    eexists. split; [reflexivity|].
    right. eexists. split; [reflexivity|].
    unfold candidate_ok.
    cbn [risk_per_share sim_entry sim_stop label per_share sim_entry_idx
         sim_exit_idx sim_entry_tf sim_mae_r sim_mfe_r].
    split; [exact Erps|]. split; [reflexivity|].
    split; [|split; [|split; [exact Hwin|split; assumption]]].
    + destruct (0 <? ps out) eqn:Eps.
      * apply Qltb_lt in Eps. tauto.
      * apply Qltb_ge in Eps. split; [discriminate|]. intros Hpos. lra.
    + destruct (0 <? ps out); [now right|now left].
Qed.

Lemma simulate_setup_spec (cfg : Config) (daily : DailyFrame)
    (h1 m30 : list Bar) (st : Candidates) (sp : Setup) :
  counts_nonneg cfg ->
  exists st',
    simulate_setup cfg daily h1 m30 st sp = Ok st' /\ setup_step cfg st st'.
Proof.
  intros [Hc1 [Hc30 [Hh1 Hh30]]].
  assert (Hskip : forall bump,
             (forall t, accepted (bump t) = accepted t
                        /\ setups (bump t) = setups t
                        /\ (outcomes t <= outcomes (bump t) <= outcomes t + 1)%Z) ->
             setup_step cfg st (mkCandidates (bump (telemetry st)) (sim_trades st))).
  { intros bump Hb. left. cbn [sim_trades telemetry].
    destruct (Hb (telemetry st)) as [Ha [Hs Ho]].
    split; [reflexivity|]. split; [exact Ha|]. split; [exact Hs|exact Ho]. }
  assert (Hsame : setup_step cfg st st) by (left; repeat split; lia).
  unfold simulate_setup.
  destruct (adx_filtered cfg daily (start_time sp)).
  { eexists. split; [reflexivity|]. apply Hskip.
    intros t. unfold outcomes. cbn. repeat split; lia. }
  set (df := df_for_tf h1 m30 (entry_tf sp)).
  destruct df as [|b0 df'] eqn:Edf; [exists st; split; [reflexivity|exact Hsame]|].
  rewrite <- Edf. clear Edf b0 df'.
  pose proof (idx_from_time_start df (start_time sp)) as Hstart.
  destruct (idx_from_time df (start_time sp)) as [start_i|].
  2:{ eexists. split; [reflexivity|]. apply Hskip.
      intros t. unfold outcomes. cbn. repeat split; lia. }
  destruct (py_index_in_range df start_i Hstart) as [r0 Hr0].
  rewrite Hr0. cbn [lift_index bind].
  destruct (negb (ema_trend_ok cfg r0 (sp_direction sp))).
  { eexists. split; [reflexivity|]. apply Hskip.
    intros t. unfold outcomes. cbn. repeat split; lia. }
  destruct (negb (vol_ok cfg r0)).
  { eexists. split; [reflexivity|]. apply Hskip.
    intros t. unfold outcomes. cbn. repeat split; lia. }
  destruct (first_touch_in_frame df (start_time sp) (zone sp)
              match entry_tf sp with
              | TF_30m => ENTRY_WINDOW_M30 cfg
              | TF_1h => ENTRY_WINDOW_H1 cfg
              end) as [t [Ht Htin]].
  rewrite Ht. cbn [bind].
  destruct t as [t_idx|].
  2:{ eexists. split; [reflexivity|]. apply Hskip.
      intros t. unfold outcomes. cbn. repeat split; lia. }
  specialize (Htin t_idx eq_refl).
  destruct (confirm_idx_in_frame cfg df t_idx (sp_direction sp)
              match entry_tf sp with
              | TF_30m => CONFIRM_BARS_M30 cfg
              | TF_1h => CONFIRM_BARS_H1 cfg
              end (ALLOW_TOUCH_IF_NO_CONFIRM cfg) Htin)
    as [c [Hc Hcin]]; [destruct (entry_tf sp); assumption|].
  rewrite Hc. cbn [bind].
  destruct c as [e_idx|].
  2:{ eexists. split; [reflexivity|]. apply Hskip.
      intros t. unfold outcomes. cbn. repeat split; lia. }
  apply enter_spec; [apply Hcin; reflexivity|].
  unfold max_hold_of. destruct (entry_tf sp); assumption.
Qed.

(** The state of [simulate_all] after [n] setups. *)
Lemma simulate_fold_spec (cfg : Config) (daily : DailyFrame)
    (h1 m30 : list Bar) (tel : Telemetry) :
  counts_nonneg cfg ->
  forall (sps : list Setup) (st : Candidates) (n : Z),
    setups (telemetry st) = setups tel ->
    accepted (telemetry st) = (accepted tel + len (sim_trades st))%Z ->
    (outcomes tel <= outcomes (telemetry st) <= outcomes tel + n)%Z ->
    (len (sim_trades st) <= n)%Z ->
    Forall (candidate_ok cfg) (sim_trades st) ->
    exists st',
      fold_left (fun acc sp => s <- acc ;; simulate_setup cfg daily h1 m30 s sp)
                sps (Ok st) = Ok st'
      /\ setups (telemetry st') = setups tel
      /\ accepted (telemetry st') = (accepted tel + len (sim_trades st'))%Z
      /\ (outcomes tel <= outcomes (telemetry st')
          <= outcomes tel + (n + len sps))%Z
      /\ (len (sim_trades st') <= n + len sps)%Z
      /\ Forall (candidate_ok cfg) (sim_trades st').
Proof.
  intros Hcfg. induction sps as [|sp rest IH]; intros st n Hs Ha Ho Hl Hok;
    cbn [fold_left].
  - exists st. split; [reflexivity|]. rewrite !len_nil.
    repeat split; try assumption; lia.
  - cbn [bind].
    destruct (simulate_setup_spec cfg daily h1 m30 st sp Hcfg)
      as [st1 [Hst1 Hstep]].
    rewrite Hst1. rewrite len_cons.
    destruct (IH st1 (n + 1)%Z) as [st' [Hfold [Hs' [Ha' [Ho' [Hl' Hok']]]]]].
    + destruct Hstep as [[_ [_ [Hset _]]]|[t [-> _]]];
        [congruence|exact Hs].
    + destruct Hstep as [[Htr [Hacc _]]|[t [-> _]]].
      * rewrite Htr, Hacc. exact Ha.
      * cbn [telemetry sim_trades bump_accepted accepted].
        rewrite len_app, len_cons, len_nil. lia.
    + destruct Hstep as [[_ [_ [_ Hout]]]|[t [-> _]]]; [lia|].
      cbn [telemetry]. revert Ho. unfold outcomes. cbn. lia.
    + destruct Hstep as [[Htr _]|[t [-> _]]].
      * rewrite Htr. lia.
      * cbn [sim_trades]. rewrite len_app, len_cons, len_nil. lia.
    + destruct Hstep as [[Htr _]|[t [-> Ht]]].
      * rewrite Htr. exact Hok.
      * cbn [sim_trades]. apply Forall_app. split; [exact Hok|].
        constructor; [exact Ht|constructor].
    + exists st'. split; [exact Hfold|].
      split; [exact Hs'|]. split; [exact Ha'|].
      split; [lia|]. split; [lia|exact Hok'].
Qed.

(** X24.  With hold and confirmation counts that are not negative,
    [simulate_all] never raises, whatever the frames and the setups.  It
    leaves the setup counter alone, counts in [accepted] exactly the
    candidates it appends, and its outcome counters together grow by at
    most the number of setups. *)
Theorem simulate_all_returns (cfg : Config) (daily : DailyFrame)
    (h1 m30 : list Bar) (tel : Telemetry) (sps : list Setup) :
  counts_nonneg cfg ->
  exists st,
    simulate_all cfg daily h1 m30 tel sps = Ok st
    /\ setups (telemetry st) = setups tel
    /\ accepted (telemetry st) = (accepted tel + len (sim_trades st))%Z
    /\ (outcomes tel <= outcomes (telemetry st) <= outcomes tel + len sps)%Z
    /\ (len (sim_trades st) <= len sps)%Z.
Proof.
  intros Hcfg. unfold simulate_all.
  destruct (simulate_fold_spec cfg daily h1 m30 tel Hcfg sps
              (mkCandidates tel []) 0)
    as [st [Hfold [Hs [Ha [Ho [Hl _]]]]]];
    cbn [telemetry sim_trades]; try reflexivity;
    try (rewrite ?len_nil; lia); [constructor|].
  exists st. split; [exact Hfold|]. split; [exact Hs|]. split; [exact Ha|].
  split; [lia|lia].
Qed.

(** X25.  With hold and confirmation counts that are not negative, every
    candidate of [simulate_all] is well formed: its risk per share is the
    distance between entry and stop and exceeds 1e-9, its label is 1
    exactly when its result per share is positive, its exit bar lies in
    the hold window that starts at its entry bar, its MAE is at most zero
    and its MFE at least zero. *)
Theorem candidates_well_formed (cfg : Config) (daily : DailyFrame)
    (h1 m30 : list Bar) (tel : Telemetry) (sps : list Setup)
    (st : Candidates) :
  counts_nonneg cfg ->
  simulate_all cfg daily h1 m30 tel sps = Ok st ->
  Forall (candidate_ok cfg) (sim_trades st).
Proof.
  intros Hcfg Hall. unfold simulate_all in Hall.
  destruct (simulate_fold_spec cfg daily h1 m30 tel Hcfg sps
              (mkCandidates tel []) 0)
    as [st' [Hfold [_ [_ [_ [_ Hok]]]]]];
    cbn [telemetry sim_trades]; try reflexivity;
    try (rewrite ?len_nil; lia); [constructor|].
  rewrite Hfold in Hall. injection Hall as <-. exact Hok.
Qed.

End CandidateSimulation.

Lemma simulate_all_returns_witness :
  counts_nonneg balanced
  /\ exists st,
       @simulate_all no_learning balanced no_adx be_bars []
                     (mkTelemetry 1 0 0 0 0 0 0 0 0) [be_setup] = Ok st
       /\ setups (telemetry st) = 1%Z
       /\ accepted (telemetry st) = (0 + len (sim_trades st))%Z
       /\ (0 <= outcomes (telemetry st) <= 0 + len [be_setup])%Z
       /\ (len (sim_trades st) <= len [be_setup])%Z.
Proof.
  assert (H1 : counts_nonneg balanced) by (repeat split; discriminate).
  split; [exact H1|].
  exact (@simulate_all_returns no_learning balanced no_adx be_bars []
           (mkTelemetry 1 0 0 0 0 0 0 0 0) [be_setup] H1).
Defined.

Lemma candidates_well_formed_witness :
  exists st,
    @simulate_all no_learning balanced no_adx be_bars []
                  (mkTelemetry 1 0 0 0 0 0 0 0 0) [be_setup] = Ok st
    /\ sim_trades st <> []
    /\ Forall (@candidate_ok no_learning balanced) (sim_trades st).
Proof.
  assert (H1 : counts_nonneg balanced) by (repeat split; discriminate).
  eexists. split; [vm_compute; reflexivity|].
  split; [discriminate|].
  apply (@candidates_well_formed no_learning balanced no_adx be_bars []
           (mkTelemetry 1 0 0 0 0 0 0 0 0) [be_setup] _ H1).
  vm_compute. reflexivity.
Defined.

(* ====================================================================== *)
(** * Further properties: pivots on distinct bars, setups *)
(* ====================================================================== *)

Lemma thr_positive (last : Q) (a : option Q) (pct mult : Q) :
  0 < last -> 0 < pct -> 0 < _thr last a pct mult.
Proof.
  intros Hl Hp. unfold _thr.
  assert (Hlp : 0 < last * pct) by nra.
  destruct a as [v|]; [|exact Hlp].
  eapply Qlt_le_trans; [exact Hlp|apply pymax_l].
Qed.

Lemma Forall_idx_lt_weaken (l : list Pivot) (a b : Z) :
  (a <= b)%Z ->
  Forall (fun q => (idx q < a)%Z) l -> Forall (fun q => (idx q < b)%Z) l.
Proof.
  intros Hab. apply Forall_impl. intros q Hq. lia.
Qed.

Lemma sorted_snoc_pivot (l : list Pivot) (i : Z) (v : Q) (k : Kind) :
  StronglySorted idx_lt l ->
  Forall (fun q => (idx q < i)%Z) l ->
  StronglySorted idx_lt (l ++ [mkPivot i v k]).
Proof.
  intros Hs Hl. apply StronglySorted_snoc; [exact Hs|].
  eapply Forall_impl; [|exact Hl]. intros q Hq. exact Hq.
Qed.

Lemma Forall_snoc_pivot (l : list Pivot) (i b : Z) (v : Q) (k : Kind) :
  (i < b)%Z ->
  Forall (fun q => (idx q < i)%Z) l ->
  Forall (fun q => (idx q < b)%Z) (l ++ [mkPivot i v k]).
Proof.
  intros Hib Hl. apply Forall_app. split.
  - apply (Forall_idx_lt_weaken l i b); [lia|exact Hl].
  - constructor; [exact Hib|constructor].
Qed.

Ltac zz_close :=
  repeat first
    [ assumption | lia | split | now left | now right
    | apply sorted_snoc_pivot | apply Forall_snoc_pivot
    | match goal with
      | Hb : Forall (fun q => (idx q < ?a)%Z) ?l
        |- Forall (fun q => (idx q < ?b)%Z) ?l =>
          apply (Forall_idx_lt_weaken l a b); [lia|exact Hb]
      end
    | constructor ].

Lemma zz_up_mid (thr p : Q) (k : Z) (s : ZigZag) :
  0 < thr -> 0 < p -> zz_strict k s -> zz_mid k p (zz_up thr p k s).
Proof.
  intros Hthr Hp [Hlast [Hhi [Hlo [Hhi_i [Hlo_i [Hsorted Hdir]]]]]].
  unfold zz_up, zz_mid.
  destruct (zz_direction s) as [[|]|] eqn:Ed; cbn [dir_is_none_or].
  - (* rising leg *)
    destruct (zz_hi s <? p) eqn:Eu.
    + destruct (thr <=? p - p) eqn:Ef; [apply Qleb_le in Ef; lra|].
      cbn [zz_piv zz_last zz_hi zz_lo zz_hi_i zz_lo_i zz_direction].
      zz_close.
    + destruct (thr <=? zz_hi s - p) eqn:Ef;
        cbn [zz_piv zz_last zz_hi zz_lo zz_hi_i zz_lo_i zz_direction];
        zz_close.
  - (* falling leg: the block is skipped *)
    rewrite Ed. zz_close.
  - (* no leg yet *)
    destruct (zz_hi s <? p) eqn:Eu.
    + destruct (thr <=? p - p) eqn:Ef; [apply Qleb_le in Ef; lra|].
      cbn [zz_piv zz_last zz_hi zz_lo zz_hi_i zz_lo_i zz_direction].
      zz_close.
    + destruct (thr <=? zz_hi s - p) eqn:Ef;
        cbn [zz_piv zz_last zz_hi zz_lo zz_hi_i zz_lo_i zz_direction];
        rewrite ?Hdir; cbn [app]; zz_close.
Qed.

Lemma zz_down_strict (thr p : Q) (k : Z) (s : ZigZag) :
  0 < thr -> 0 < p -> zz_mid k p s -> zz_strict (k + 1) (zz_down thr p k s).
Proof.
  intros Hthr Hp [Hlast [Hhi [Hlo [Hhi_i [Hlo_i [Hsorted Hdir]]]]]].
  unfold zz_down, zz_strict.
  destruct (zz_direction s) as [[|]|] eqn:Ed; cbn [dir_is_none_or].
  - (* rising leg: the block is skipped *)
    rewrite Ed. zz_close.
  - (* falling leg *)
    destruct Hdir as [Hbefore Hfresh].
    destruct (p <? zz_lo s) eqn:Eu.
    + destruct (thr <=? p - p) eqn:Ef; [apply Qleb_le in Ef; lra|].
      cbn [zz_piv zz_last zz_hi zz_lo zz_hi_i zz_lo_i zz_direction].
      zz_close.
    + destruct (thr <=? p - zz_lo s) eqn:Ef;
        cbn [zz_piv zz_last zz_hi zz_lo zz_hi_i zz_lo_i zz_direction];
        [|zz_close].
      apply Qleb_le in Ef.
      assert (Hlt : (zz_lo_i s < k)%Z).
      { destruct Hfresh as [Hlt|Heq]; [exact Hlt|].
        rewrite Heq in Ef. lra. }
      zz_close.
  - (* no leg yet *)
    destruct Hdir as [Hnil Hlt].
    destruct (p <? zz_lo s) eqn:Eu.
    + destruct (thr <=? p - p) eqn:Ef; [apply Qleb_le in Ef; lra|].
      cbn [zz_piv zz_last zz_hi zz_lo zz_hi_i zz_lo_i zz_direction].
      zz_close.
    + destruct (thr <=? p - zz_lo s) eqn:Ef;
        cbn [zz_piv zz_last zz_hi zz_lo zz_hi_i zz_lo_i zz_direction];
        rewrite ?Hnil; cbn [app]; zz_close.
Qed.

Lemma zz_scan_strict (e : ElliottEngine) (atr : list (option Q)) :
  0 < zz_pct e ->
  forall (rest : list Q) (k : Z) (s : ZigZag),
    Forall (fun c => 0 < c) rest ->
    zz_strict k s ->
    zz_strict (k + len rest)
              (fold_left (zz_step e atr) (enumerate_from k rest) s).
Proof.
  intros Hpct. induction rest as [|p t IH]; intros k s Hpos Hs;
    cbn [enumerate_from fold_left].
  - rewrite len_nil, Z.add_0_r. exact Hs.
  - inversion Hpos as [|? ? Hp Ht]; subst.
    rewrite len_cons.
    replace (k + (len t + 1))%Z with (k + 1 + len t)%Z by lia.
    apply IH; [exact Ht|].
    unfold zz_step.
    assert (Hthr : 0 < _thr (zz_last s) (atr_at atr k) (zz_pct e)
                            (zz_atr_mult e)).
    { apply thr_positive; [|exact Hpct]. destruct Hs as [Hl _]. exact Hl. }
    apply zz_down_strict; [exact Hthr|exact Hp|].
    apply zz_up_mid; assumption.
Qed.

Lemma sort_by_sorted_id (l : list Pivot) :
  StronglySorted idx_lt l -> sort_by idx_leb l = l.
Proof.
  induction 1 as [|x t Ht IH Hx]; cbn [sort_by]; [reflexivity|].
  rewrite IH. destruct t as [|y t']; [reflexivity|].
  cbn [insert_by]. inversion Hx as [|? ? Hxy _]; subst.
  unfold idx_lt in Hxy. unfold idx_leb.
  destruct (idx x <=? idx y)%Z eqn:E; [reflexivity|lia].
Qed.

Lemma zigzag_strict (e : ElliottEngine) (closes : list Q)
    (atr : list (option Q)) :
  0 < zz_pct e ->
  Forall (fun c => 0 < c) closes ->
  StronglySorted idx_lt (zigzag e closes atr).
Proof.
  intros Hpct Hpos. unfold zigzag.
  destruct (len closes <? 3)%Z; [constructor|].
  destruct closes as [|c0 rest]; [constructor|].
  inversion Hpos as [|? ? Hc0 Hrest]; subst.
  set (s0 := mkZigZag [] c0 c0 c0 0%Z 0%Z None).
  assert (Hs0 : zz_strict 1 s0).
  { unfold zz_strict, s0.
    cbn [zz_piv zz_last zz_hi zz_lo zz_hi_i zz_lo_i zz_direction].
    repeat (split; [first [assumption | lia]|]).
    split; [constructor|reflexivity]. }
  pose proof (zz_scan_strict e atr Hpct rest 1 s0 Hrest Hs0)
    as [_ [_ [_ [_ [_ [Hsorted _]]]]]].
  rewrite sort_by_sorted_id by exact Hsorted.
  apply clean_sorted. exact Hsorted.
Qed.

(** X26.  On positive closes and with a positive zigzag percentage no two
    pivots of [zigzag] share a bar: the indices of the pivots strictly
    increase along the list. *)
Theorem zigzag_pivots_on_distinct_bars (e : ElliottEngine) (closes : list Q)
    (atr : list (option Q)) :
  0 < zz_pct e ->
  Forall (fun c => 0 < c) closes ->
  StronglySorted (fun a b => (idx a < idx b)%Z) (zigzag e closes atr).
Proof. intros Hpct Hpos. exact (zigzag_strict e closes atr Hpct Hpos). Qed.

Lemma zigzag_pivots_on_distinct_bars_witness :
  0 < zz_pct wave_engine
  /\ Forall (fun c => 0 < c) wave_closes
  /\ StronglySorted (fun a b => (idx a < idx b)%Z)
                    (zigzag wave_engine wave_closes wave_atr).
Proof.
  assert (H1 : 0 < zz_pct wave_engine) by reflexivity.
  assert (H2 : Forall (fun c => 0 < c) wave_closes)
    by (repeat constructor).
  split; [exact H1|]. split; [exact H2|].
  exact (zigzag_pivots_on_distinct_bars wave_engine wave_closes wave_atr H1 H2).
Defined.

Lemma StronglySorted_app_r {A} (R : A -> A -> Prop) (l1 l2 : list A) :
  StronglySorted R (l1 ++ l2) -> StronglySorted R l2.
Proof.
  induction l1 as [|x t IH]; cbn [app]; intros Hs; [exact Hs|].
  inversion Hs; subst. apply IH. assumption.
Qed.

Lemma StronglySorted_app_l {A} (R : A -> A -> Prop) (l1 l2 : list A) :
  StronglySorted R (l1 ++ l2) -> StronglySorted R l1.
Proof.
  induction l1 as [|x t IH]; cbn [app]; intros Hs; [constructor|].
  inversion Hs as [|? ? Ht Hx]; subst.
  constructor; [apply IH, Ht|].
  apply Forall_app in Hx. tauto.
Qed.

Lemma window_sorted {A} (R : A -> A -> Prop) (w l : list A) :
  window_of w l -> StronglySorted R l -> StronglySorted R w.
Proof.
  intros [pre [post ->]] Hs.
  apply StronglySorted_app_r in Hs. apply StronglySorted_app_l in Hs. exact Hs.
Qed.

Lemma window_In {A} (w l : list A) (x : A) :
  window_of w l -> In x w -> In x l.
Proof.
  intros [pre [post ->]] Hx. apply in_or_app. right.
  apply in_or_app. now left.
Qed.

Lemma fold_bind_raise {A B} (f : A -> B -> result A) (xs : list B) (e : Exn) :
  fold_left (fun acc x => a <- acc ;; f a x) xs (Raise e) = Raise e.
Proof. induction xs as [|x t IH]; cbn [fold_left bind]; [reflexivity|exact IH]. Qed.

Lemma impulse_setups_len (sc : SetupConfig) (h1 m30 : list Bar)
    (imp : Impulse) (n : list Setup) :
  impulse_setups sc h1 m30 imp = Ok n -> len n = setups_per_impulse sc.
Proof.
  unfold impulse_setups, setups_per_impulse.
  destruct (points imp) as [|p0 [|p1 [|p2 [|p3 [|p4 [|p5 [|p6 rest]]]]]]];
    try discriminate.
  destruct (py_index h1 (idx p2 + 1)) as [r3|]; [|discriminate].
  cbn [lift_index bind].
  destruct (USE_W5 sc).
  - destruct (py_index h1 (idx p4 + 1)) as [r5|]; [|discriminate].
    cbn [lift_index bind]. intros E. injection E as <-. reflexivity.
  - intros E. injection E as <-. reflexivity.
Qed.

Lemma collect_impulses_len (sc : SetupConfig) (h1 m30 : list Bar)
    (imps : list Impulse) :
  forall acc l,
    fold_left (fun acc imp =>
                 l <- acc ;; n <- impulse_setups sc h1 m30 imp ;; Ok (l ++ n))
              imps (Ok acc) = Ok l ->
    len l = (len acc + setups_per_impulse sc * len imps)%Z.
Proof.
  induction imps as [|imp t IH]; intros acc l; cbn [fold_left].
  - intros E. injection E as <-. rewrite len_nil. lia.
  - cbn [bind].
    destruct (impulse_setups sc h1 m30 imp) as [n|e] eqn:En; cbn [bind].
    + intros E. apply IH in E. rewrite E, len_app, len_cons.
      rewrite (impulse_setups_len _ _ _ _ _ En). lia.
    + rewrite (fold_bind_raise
                 (fun l imp => n <- impulse_setups sc h1 m30 imp ;; Ok (l ++ n))).
      discriminate.
Qed.

Lemma collect_abcs_len (sc : SetupConfig) (h1 m30 : list Bar)
    (abcl : list ABC) :
  forall acc l,
    fold_left (fun acc abc =>
                 l <- acc ;; s <- abc_setup sc h1 m30 abc ;; Ok (l ++ [s]))
              abcl (Ok acc) = Ok l ->
    len l = (len acc + len abcl)%Z.
Proof.
  induction abcl as [|abc t IH]; intros acc l; cbn [fold_left].
  - intros E. injection E as <-. rewrite len_nil. lia.
  - cbn [bind].
    destruct (abc_setup sc h1 m30 abc) as [s|e] eqn:Es; cbn [bind].
    + intros E. apply IH in E.
      rewrite E, len_app, !len_cons, len_nil. lia.
    + rewrite (fold_bind_raise
                 (fun l abc => s <- abc_setup sc h1 m30 abc ;; Ok (l ++ [s]))).
      discriminate.
Qed.

(** X27.  The setups [build_setups] returns are sorted by start time, the
    telemetry counts them, and there is one setup per correction and one
    per impulse, or two per impulse when wave-5 setups are switched on. *)
Theorem build_setups_sorted (sc : SetupConfig) (h1 m30 : list Bar)
    (imps : list Impulse) (abcl : list ABC) (tel tel' : Telemetry)
    (l : list Setup) :
  build_setups sc h1 m30 imps abcl tel = Ok (tel', l) ->
  StronglySorted start_le l
  /\ setups tel' = len l
  /\ len l = (setups_per_impulse sc * len imps + len abcl)%Z.
Proof.
  unfold build_setups, collect_setups.
  destruct (fold_left _ imps (Ok [])) as [from_imps|e] eqn:Ei;
    cbn [bind]; [|discriminate].
  destruct (fold_left _ abcl (Ok from_imps)) as [all|e] eqn:Ea;
    cbn [bind]; [|discriminate].
  intros E. injection E as <- <-.
  split; [|split].
  - apply (StronglySorted_impl (fun a b => start_leb a b = true)).
    + intros a b Hab. unfold start_le. unfold start_leb in Hab. lia.
    + apply sort_by_sorted.
      * intros a b Hab. unfold start_leb in *. lia.
      * intros a b c Hab Hbc. unfold start_leb in *. lia.
  - reflexivity.
  - rewrite len_sort.
    apply collect_abcs_len in Ea. apply collect_impulses_len in Ei.
    rewrite Ea, Ei, len_nil. lia.
Qed.

Lemma build_setups_sorted_witness :
  exists tel' l,
    build_setups balanced_setups wave_bars [] wave_impulses
                 (detect_abcs wave_engine wave_pivots)
                 (mkTelemetry 0 0 0 0 0 0 0 0 0) = Ok (tel', l)
    /\ l <> []
    /\ StronglySorted start_le l
    /\ setups tel' = len l
    /\ len l = (setups_per_impulse balanced_setups * len wave_impulses
                + len (detect_abcs wave_engine wave_pivots))%Z.
Proof.
  eexists. eexists. split; [vm_compute; reflexivity|].
  split; [discriminate|].
  apply (build_setups_sorted balanced_setups wave_bars [] wave_impulses
           (detect_abcs wave_engine wave_pivots)
           (mkTelemetry 0 0 0 0 0 0 0 0 0)).
  vm_compute. reflexivity.
Defined.

Lemma bar_after_in_frame (h1 : list Bar) (closes : list Q) (p q : Pivot) :
  len h1 = len closes ->
  is_sample closes p -> is_sample closes q -> idx_lt p q ->
  exists r, py_index h1 (idx p + 1) = Some r.
Proof.
  intros Hlen [[Hp0 _] _] [[_ Hq1] _] Hpq. unfold idx_lt in Hpq.
  apply py_index_in_range. lia.
Qed.

Lemma impulse_setups_total (sc : SetupConfig) (h1 m30 : list Bar)
    (closes : list Q) (piv : list Pivot) (imp : Impulse) :
  len h1 = len closes ->
  StronglySorted idx_lt piv ->
  Forall (is_sample closes) piv ->
  impulse_shape imp -> window_of (points imp) piv ->
  exists n, impulse_setups sc h1 m30 imp = Ok n.
Proof.
  intros Hlen Hsorted Hsamples [p0 [p1 [p2 [p3 [p4 [p5 [Hpts _]]]]]]] Hwin.
  rewrite Hpts in Hwin.
  pose proof (window_sorted idx_lt _ _ Hwin Hsorted) as Hw.
  rewrite Forall_forall in Hsamples.
  assert (Hin : forall x, In x [p0; p1; p2; p3; p4; p5] -> is_sample closes x)
    by (intros x Hx; apply Hsamples, (window_In _ _ _ Hwin Hx)).
  inversion Hw as [|? ? Hw1 _]; subst.
  inversion Hw1 as [|? ? Hw2 _]; subst.
  inversion Hw2 as [|? ? Hw3 H23]; subst.
  inversion Hw3 as [|? ? Hw4 _]; subst.
  inversion Hw4 as [|? ? _ H45]; subst.
  inversion H23 as [|? ? Hlt23 _]; subst.
  inversion H45 as [|? ? Hlt45 _]; subst.
  destruct (bar_after_in_frame h1 closes p2 p3 Hlen) as [r3 Hr3];
    [apply Hin; cbn; tauto|apply Hin; cbn; tauto|exact Hlt23|].
  destruct (bar_after_in_frame h1 closes p4 p5 Hlen) as [r5 Hr5];
    [apply Hin; cbn; tauto|apply Hin; cbn; tauto|exact Hlt45|].
  unfold impulse_setups. rewrite Hpts, Hr3. cbn [lift_index bind].
  destruct (USE_W5 sc); [|eexists; reflexivity].
  rewrite Hr5. cbn [lift_index bind]. eexists. reflexivity.
Qed.

Lemma abc_setup_total (sc : SetupConfig) (h1 m30 : list Bar)
    (closes : list Q) (piv : list Pivot) (abc : ABC) :
  len h1 = len closes ->
  StronglySorted idx_lt piv ->
  Forall (is_sample closes) piv ->
  abc_shape abc -> window_of (abc_points abc) piv ->
  exists s, abc_setup sc h1 m30 abc = Ok s.
Proof.
  intros Hlen Hsorted Hsamples [q0 [q1 [q2 [q3 [Hpts _]]]]] Hwin.
  rewrite Hpts in Hwin.
  pose proof (window_sorted idx_lt _ _ Hwin Hsorted) as Hw.
  rewrite Forall_forall in Hsamples.
  assert (Hin : forall x, In x [q0; q1; q2; q3] -> is_sample closes x)
    by (intros x Hx; apply Hsamples, (window_In _ _ _ Hwin Hx)).
  inversion Hw as [|? ? Hw1 _]; subst.
  inversion Hw1 as [|? ? Hw2 _]; subst.
  inversion Hw2 as [|? ? _ H23]; subst.
  inversion H23 as [|? ? Hlt23 _]; subst.
  destruct (bar_after_in_frame h1 closes q2 q3 Hlen) as [rc Hrc];
    [apply Hin; cbn; tauto|apply Hin; cbn; tauto|exact Hlt23|].
  unfold abc_setup. rewrite Hpts, Hrc. cbn [lift_index bind].
  eexists. reflexivity.
Qed.

Lemma collect_setups_total (sc : SetupConfig) (h1 m30 : list Bar)
    (imps : list Impulse) (abcl : list ABC) :
  Forall (fun imp => exists n, impulse_setups sc h1 m30 imp = Ok n) imps ->
  Forall (fun abc => exists s, abc_setup sc h1 m30 abc = Ok s) abcl ->
  exists l, collect_setups sc h1 m30 imps abcl = Ok l.
Proof.
  intros Hi Ha. unfold collect_setups.
  assert (H1 : forall acc, exists l,
             fold_left (fun acc imp =>
                          l <- acc ;; n <- impulse_setups sc h1 m30 imp ;;
                          Ok (l ++ n)) imps (Ok acc) = Ok l).
  { induction Hi as [|imp t [n Hn] _ IH]; intros acc; cbn [fold_left bind].
    - eexists. reflexivity.
    - rewrite Hn. cbn [bind]. apply IH. }
  assert (H2 : forall acc, exists l,
             fold_left (fun acc abc =>
                          l <- acc ;; s <- abc_setup sc h1 m30 abc ;;
                          Ok (l ++ [s])) abcl (Ok acc) = Ok l).
  { induction Ha as [|abc t [s Hs] _ IH]; intros acc; cbn [fold_left bind].
    - eexists. reflexivity.
    - rewrite Hs. cbn [bind]. apply IH. }
  destruct (H1 []) as [from_imps ->]. cbn [bind]. apply H2.
Qed.

Lemma build_setups_total (sc : SetupConfig) (he : ElliottEngine)
    (h1 m30 : list Bar) (closes : list Q) (atr : list (option Q))
    (imps : list Impulse) (tel : Telemetry) :
  0 < zz_pct he ->
  Forall (fun c => 0 < c) closes ->
  len h1 = len closes ->
  detect_impulses he (zigzag he closes atr) closes atr = Ok imps ->
  exists ts,
    build_setups sc h1 m30 imps (detect_abcs he (zigzag he closes atr)) tel
    = Ok ts.
Proof.
  intros Hpct Hpos Hlen Himps.
  pose proof (zigzag_strict he closes atr Hpct Hpos) as Hsorted.
  pose proof (zigzag_on_samples he closes atr) as Hsamples.
  destruct (collect_setups_total sc h1 m30 imps
              (detect_abcs he (zigzag he closes atr))) as [l Hl].
  - unfold detect_impulses in Himps.
    pose proof (detect_impulses_from_shape he atr _ _ _ (Nat.le_refl _) Himps)
      as Hshape.
    eapply Forall_impl; [|exact Hshape].
    intros imp [Hs Hw].
    apply (impulse_setups_total sc h1 m30 closes (zigzag he closes atr));
      assumption.
  - unfold detect_abcs.
    pose proof (detect_abcs_from_shape _ (zigzag he closes atr)
                  (Nat.le_refl _)) as Hshape.
    eapply Forall_impl; [|exact Hshape].
    intros abc [Hs Hw].
    apply (abc_setup_total sc h1 m30 closes (zigzag he closes atr));
      assumption.
  - unfold build_setups. rewrite Hl. cbn [bind]. eexists. reflexivity.
Qed.

(** X28.  On a 1H frame with positive closes and with a positive zigzag
    percentage, [build_setups] never raises on the impulses and
    corrections detected on that frame: the bar after the wave-2, wave-4
    or B pivot, whose date starts the setup, always exists, because a
    later pivot of the pattern sits on a later bar of the frame. *)
Theorem build_setups_returns (sc : SetupConfig) (he : ElliottEngine)
    (h1 m30 : list Bar) (atr : list (option Q)) (imps : list Impulse)
    (tel : Telemetry) :
  0 < zz_pct he ->
  Forall (fun r => 0 < close r) h1 ->
  detect_impulses he (zigzag he (map close h1) atr) (map close h1) atr
  = Ok imps ->
  exists ts,
    build_setups sc h1 m30 imps
                 (detect_abcs he (zigzag he (map close h1) atr)) tel
    = Ok ts.
Proof.
  intros Hpct Hpos Himps.
  apply (build_setups_total sc he h1 m30 (map close h1) atr imps tel Hpct).
  - apply Forall_map. exact Hpos.
  - unfold len. rewrite length_map. reflexivity.
  - exact Himps.
Qed.

Lemma build_setups_returns_witness :
  0 < zz_pct wave_engine
  /\ Forall (fun r => 0 < close r) wave_bars
  /\ detect_impulses wave_engine
                     (zigzag wave_engine (map close wave_bars) wave_atr)
                     (map close wave_bars) wave_atr
     = Ok wave_impulses
  /\ exists ts,
       build_setups balanced_setups wave_bars [] wave_impulses
                    (detect_abcs wave_engine
                       (zigzag wave_engine (map close wave_bars) wave_atr))
                    (mkTelemetry 0 0 0 0 0 0 0 0 0)
       = Ok ts.
Proof.
  assert (H1 : 0 < zz_pct wave_engine) by reflexivity.
  assert (H2 : Forall (fun r => 0 < close r) wave_bars)
    by (repeat constructor).
  assert (H3 : detect_impulses wave_engine
                 (zigzag wave_engine (map close wave_bars) wave_atr)
                 (map close wave_bars) wave_atr
               = Ok wave_impulses) by (vm_compute; reflexivity).
  split; [exact H1|]. split; [exact H2|]. split; [exact H3|].
  exact (build_setups_returns balanced_setups wave_engine wave_bars []
           wave_atr wave_impulses (mkTelemetry 0 0 0 0 0 0 0 0 0) H1 H2 H3).
Defined.

Section Preparation.

Context {X : External}.

(** X29.  The head of [run], from the frames to the candidates, never
    raises when the closes of the 1H frame are positive, the zigzag
    percentage of the 1H engine is positive, each ATR column is as long as
    its frame, and the hold and confirmation counts are not negative. *)
Theorem prepare_returns (cfg : Config) (sc : SetupConfig)
    (pe he : ElliottEngine) (daily : DailyFrame)
    (daily_close : list Q) (daily_atr : list (option Q))
    (h1 m30 : list Bar) (h1_atr : list (option Q)) (tel : Telemetry) :
  counts_nonneg cfg ->
  0 < zz_pct he ->
  Forall (fun r => 0 < close r) h1 ->
  len daily_atr = len daily_close ->
  len h1_atr = len h1 ->
  exists st,
    prepare cfg sc pe he daily daily_close daily_atr h1 m30 h1_atr tel = Ok st.
Proof.
  intros Hcfg Hpct Hpos Hd Hh. unfold prepare, analyze_structure.
  assert (Hh' : len h1_atr = len (map close h1))
    by (rewrite Hh; unfold len; rewrite length_map; reflexivity).
  destruct (detect_on_zigzag pe daily_close daily_atr Hd) as [pi ->].
  destruct (detect_on_zigzag he (map close h1) h1_atr Hh') as [im Him].
  rewrite Him. cbn [bind impulses abcs].
  destruct (build_setups_total sc he h1 m30 (map close h1) h1_atr im tel Hpct)
    as [ts Hts]; [apply Forall_map; exact Hpos
                 |unfold len; rewrite length_map; reflexivity|exact Him|].
  rewrite Hts. cbn [bind].
  unfold simulate_all.
  destruct (simulate_fold_spec cfg daily h1 m30 (fst ts) Hcfg (snd ts)
              (mkCandidates (fst ts) []) 0)
    as [st [Hfold _]];
    cbn [telemetry sim_trades]; try reflexivity;
    try (rewrite ?len_nil; lia); [constructor|].
  exists st. exact Hfold.
Qed.

End Preparation.

Lemma prepare_returns_witness :
  counts_nonneg balanced
  /\ 0 < zz_pct wave_engine
  /\ Forall (fun r => 0 < close r) wave_bars
  /\ len wave_atr = len wave_closes
  /\ len wave_atr = len wave_bars
  /\ exists st,
       @prepare no_learning balanced balanced_setups wave_engine wave_engine
                no_adx wave_closes wave_atr wave_bars [] wave_atr
                (mkTelemetry 0 0 0 0 0 0 0 0 0) = Ok st.
Proof.
  assert (H1 : counts_nonneg balanced) by (repeat split; discriminate).
  assert (H2 : 0 < zz_pct wave_engine) by reflexivity.
  assert (H3 : Forall (fun r => 0 < close r) wave_bars)
    by (repeat constructor).
  assert (H4 : len wave_atr = len wave_closes) by reflexivity.
  assert (H5 : len wave_atr = len wave_bars) by reflexivity.
  split; [exact H1|]. split; [exact H2|]. split; [exact H3|].
  split; [exact H4|]. split; [exact H5|].
  exact (@prepare_returns no_learning balanced balanced_setups wave_engine
           wave_engine no_adx wave_closes wave_atr wave_bars [] wave_atr
           (mkTelemetry 0 0 0 0 0 0 0 0 0) H1 H2 H3 H4 H5).
Defined.

Lemma relax_meets_quarter_witness :
  ML_MIN_PASS_RATE_TEST balanced == 1 # 4
  /\ [0.1; 0.2; 0.3; 0.4] <> []
  /\ exists thr',
       relax balanced 0.5 [0.1; 0.2; 0.3; 0.4] = Ok thr'
       /\ ML_MIN_PASS_RATE_TEST balanced
          <= pass_rate [0.1; 0.2; 0.3; 0.4] thr'.
Proof.
  assert (H1 : ML_MIN_PASS_RATE_TEST balanced == 1 # 4) by reflexivity.
  assert (H2 : [0.1; 0.2; 0.3; 0.4] <> []) by discriminate.
  split; [exact H1|]. split; [exact H2|].
  eexists. split; [vm_compute; reflexivity|].
  apply (relax_meets_quarter balanced 0.5 _ [0.1; 0.2; 0.3; 0.4] H1 H2).
  vm_compute. reflexivity.
Defined.
